(** * Nova Financial Solutions: news and stock helper functions

    A shallow embedding of the Python helper modules [data_loader],
    [publisher_analysis], [sentiment_analysis] and [text_processing], and the
    properties their specification states about them.

    Conventions of the embedding.
    - A Python [float] is an IEEE binary64 number: Rocq's primitive [float],
      compared with the primitive [<=?], [<?] and [=?], which are Python's
      [<=], [<] and [==] on floats (a NaN compares false with everything).
    - A Python [str] is a [string], the bytes of its UTF-8 encoding, so
      that one [ascii] is one character of ASCII text. What Python decides by
      the Unicode character ([lower], [strip], [isalpha], [len]) is computed
      on ASCII text and is a parameter on any other text.
    - A raised exception is [None] in a pure function and in the result
      component of a stateful one.
    - A [DataFrame] is a mutable object: tables live in a heap and are passed
      by reference, so that copying and updating in place are distinguished.
    - Third-party code (pandas, nltk, the operating system) is modelled by its
      documented behaviour where the repository's functions depend on it, and
      taken as a parameter where they do not (the lexicon scorer, the word
      tokenizer, the association measure, the csv parser), or where it
      differs between the versions of pandas, of which the repository pins
      none. *)

From Stdlib Require Import ZArith List Ascii String Floats Permutation Lia.
From stdpp Require Import base option list gmap strings pretty sorting.

#[local] Set Warnings "-inexact-float".
#[local] Open Scope string_scope.

(** * Part I: the embedding *)

(** ** Python strings *)

(** [c in s] for a one-character string [c]. *)
Fixpoint contains (c : ascii) (s : string) : bool :=
  match s with
  | EmptyString => false
  | String a s' => if Ascii.eqb a c then true else contains c s'
  end.

(** [s.split(sep)] for a one-character separator: the pieces between the
    occurrences of [sep], in order; never the empty list. *)
Fixpoint split (sep : ascii) (s : string) : list string :=
  match s with
  | EmptyString => [EmptyString]
  | String a s' =>
      if Ascii.eqb a sep then EmptyString :: split sep s'
      else match split sep s' with
           | [] => [String a EmptyString]
           | piece :: pieces => String a piece :: pieces
           end
  end.

(** ** publisher_analysis.extract_organization_from_email

    The subscripts [[1]] and [[0]] raise [IndexError] out of range, hence the
    lookups in the option monad. *)
Definition extract_organization_from_email (email : string) : option string :=
  if negb (contains "@" email) then Some email
  else
    domain ← split "@" email !! 1%nat;
    organization ← split "." domain !! 0%nat;
    Some organization.

(** ** sentiment_analysis.classify_sentiment *)
Definition classify_sentiment (compound_score : float) : string :=
  if (0.7 <=? compound_score)%float then "very-positive"
  else if (0.1 <=? compound_score)%float then "positive"
  else if (-0.1 <=? compound_score)%float then "neutral"
  else if (-0.7 <=? compound_score)%float then "negative"
  else "very-negative".

(** ** pandas.cut with explicit bin edges

    With the defaults [right=True] and [include_lowest=False], pandas locates
    a value with [bins.searchsorted(x, side='left')], the number of edges
    strictly below [x] in the increasing sequence of edges, and reports a
    missing value when that index is [0] or [len(bins)] or when [x] is NaN:
    bin [i] is the interval [(bins[i-1], bins[i]]]. *)
Fixpoint searchsorted_left (bins : list float) (x : float) : nat :=
  match bins with
  | [] => 0
  | b :: bins' => if (b <? x)%float then S (searchsorted_left bins' x) else 0
  end.

Definition cut (bins : list float) (labels : list string) (x : float) : option string :=
  let ids := searchsorted_left bins x in
  if is_nan x || (ids =? 0)%nat || (ids =? length bins)%nat then None
  else labels !! (ids - 1)%nat.

(** The bins and labels of [add_sentiment_analysis]. *)
Definition sentiment_bins : list float := [-1; -0.7; -0.1; 0.1; 0.7; 1]%float.

Definition sentiment_labels : list string :=
  ["very-negative"; "negative"; "neutral"; "positive"; "very-positive"].

Definition sentiment_category (score : float) : option string :=
  cut sentiment_bins sentiment_labels score.

(** [astype(str)] on a categorical value, up to pandas 2: a missing category
    becomes the string [nan]. From pandas 3 on it stays missing; the table
    function, [sentiment_group_cell] below, takes what becomes of it as a
    parameter and comes here for the labels only. *)
Definition category_astype_str (c : option string) : string :=
  match c with Some label => label | None => "nan" end.

(** [Series.replace] with the dictionary
    [{'very-positive': 'positive', 'very-negative': 'negative'}]: a value equal
    to a key is replaced, every other value is kept. *)
Definition replace_very (value : string) : string :=
  if String.eqb value "very-positive" then "positive"
  else if String.eqb value "very-negative" then "negative"
  else value.

Definition sentiment_group (c : option string) : string :=
  replace_very (category_astype_str c).

(** ** Python built-ins used by the text pipeline *)

(** [sorted(l)] under a strict comparison [lt]: Python's sort is stable, and
    so is this insertion sort, which puts a new element after the elements
    that are not greater. *)
Fixpoint insert_sorted {A} (lt : A → A → bool) (x : A) (l : list A) : list A :=
  match l with
  | [] => [x]
  | y :: l' => if lt x y then x :: y :: l' else y :: insert_sorted lt x l'
  end.

Definition sorted {A} (lt : A → A → bool) (l : list A) : list A :=
  fold_left (λ acc x, insert_sorted lt x acc) l [].

(** The slice [l[:n]]: a negative [n] counts from the end. *)
Definition slice_to {A} (n : Z) (l : list A) : list A :=
  if (n <? 0)%Z then take (length l - Z.to_nat (- n)) l else take (Z.to_nat n) l.

(** [str.lower], [str.strip] and [str.isalpha] on ASCII text. *)
Definition is_upper (a : ascii) : bool :=
  (65 <=? nat_of_ascii a)%nat && (nat_of_ascii a <=? 90)%nat.

Definition is_alpha (a : ascii) : bool :=
  is_upper a || ((97 <=? nat_of_ascii a)%nat && (nat_of_ascii a <=? 122)%nat).

Definition is_space (a : ascii) : bool :=
  ((9 <=? nat_of_ascii a)%nat && (nat_of_ascii a <=? 13)%nat)
  || ((28 <=? nat_of_ascii a)%nat && (nat_of_ascii a <=? 32)%nat).

Fixpoint lower (s : string) : string :=
  match s with
  | EmptyString => EmptyString
  | String a s' =>
      String (if is_upper a then ascii_of_nat (nat_of_ascii a + 32) else a) (lower s')
  end.

Fixpoint lstrip (s : string) : string :=
  match s with
  | EmptyString => EmptyString
  | String a s' => if is_space a then lstrip s' else s
  end.

Fixpoint rstrip (s : string) : string :=
  match s with
  | EmptyString => EmptyString
  | String a s' =>
      match rstrip s' with
      | EmptyString => if is_space a then EmptyString else String a EmptyString
      | r => String a r
      end
  end.

Definition strip (s : string) : string := rstrip (lstrip s).

Fixpoint all_alpha (s : string) : bool :=
  match s with
  | EmptyString => true
  | String a s' => is_alpha a && all_alpha s'
  end.

Definition isalpha (s : string) : bool :=
  match s with EmptyString => false | _ => all_alpha s end.

Fixpoint ascii_text (s : string) : bool :=
  match s with
  | EmptyString => true
  | String a s' => (nat_of_ascii a <? 128)%nat && ascii_text s'
  end.

(** [str.lower], [str.strip], [str.isalpha] and [len] on any text: Python
    goes by the Unicode character database, which is a parameter here. On
    ASCII text the four are the functions above and the number of bytes. *)
Class PyStr := {
  str_lower : string → string;
  str_strip : string → string;
  str_isalpha : string → bool;
  str_len : string → nat;
  str_lower_ascii s : ascii_text s = true → str_lower s = lower s;
  str_strip_ascii s : ascii_text s = true → str_strip s = strip s;
  str_isalpha_ascii s : ascii_text s = true → str_isalpha s = isalpha s;
  str_len_ascii s : ascii_text s = true → str_len s = String.length s
}.

(** [string.punctuation], as the set of its one-character strings: the ASCII
    codes 33-47, 58-64, 91-96 and 123-126. *)
Definition punctuation : list string :=
  map (λ n, String (ascii_of_nat n) EmptyString)
      (seq 33 15 ++ seq 58 7 ++ seq 91 6 ++ seq 123 4).

(** ** collections.Counter

    A [Counter] is a dictionary from keys to counts that remembers the order
    in which the keys were first seen; keys are compared with [==]. *)
Section CounterModel.
Context {K : Type} (eqb : K → K → bool).

(** [c[k] += 1] *)
Fixpoint count_one (k : K) (c : list (K * nat)) : list (K * nat) :=
  match c with
  | [] => [(k, 1%nat)]
  | (k', n) :: c' => if eqb k k' then (k', S n) :: c' else (k', n) :: count_one k c'
  end.

(** [Counter(iterable)] *)
Definition Counter (ws : list K) : list (K * nat) :=
  fold_left (λ c w, count_one w c) ws [].

(** [c[k]], which is [0] for an absent key. *)
Fixpoint count_of (k : K) (c : list (K * nat)) : nat :=
  match c with
  | [] => 0%nat
  | (k', n) :: c' => if eqb k k' then n else count_of k c'
  end.

End CounterModel.

(** [Counter.most_common(n)]: the items by decreasing count, items of equal
    count in the order first seen; all of them when [n] is [None], the first
    [n] otherwise (none for a negative [n]). *)
Definition by_count_desc {K} (x y : K * nat) : bool := (y.2 <? x.2)%nat.

Definition most_common {K} (n : option Z) (c : list (K * nat)) : list (K * nat) :=
  match n with
  | None => sorted by_count_desc c
  | Some n => take (Z.to_nat n) (sorted by_count_desc c)
  end.

(** ** nltk, as far as text_processing depends on it *)

(** The word tokenizer and the English stop-word list are data and code of
    nltk. The [LookupError] handlers, which fetch a missing resource and try
    again, are not modelled: the resources are taken to be present. *)
Class Nltk := {
  stopwords_english : list string;
  word_tokenize : string → list string
}.

(** ** text_processing.get_tokens *)
Definition keep_token `{PyStr} `{Nltk} (remove_stopwords remove_punctuation : bool)
    (token : string) : bool :=
  negb (String.eqb token "")
  && negb (remove_stopwords && bool_decide (token ∈ stopwords_english))
  && negb (remove_punctuation && bool_decide (token ∈ punctuation))
  && str_isalpha token.

Definition get_tokens `{PyStr} `{Nltk} (headline : string)
    (remove_stopwords remove_punctuation lowercase : bool) : list string :=
  let headline := if lowercase then str_lower headline else headline in
  let tokens := word_tokenize headline in
  fold_left
    (λ result token,
       let token := str_strip token in
       if keep_token remove_stopwords remove_punctuation token
       then (result ++ [token])%list else result)
    tokens [].

(** ** text_processing.get_word_frequencies

    [top_n] is [None] or an integer; [if top_n:] is false for [None] and for
    [0]. *)
Definition get_word_frequencies `{PyStr} `{Nltk} (headlines : list string)
    (top_n : option Z) : list (string * nat) :=
  let all_tokens :=
    fold_left (λ all_tokens headline,
                 (all_tokens ++ get_tokens headline true true true)%list)
              headlines [] in
  let word_counts := Counter String.eqb all_tokens in
  match top_n with
  | Some n => if (n =? 0)%Z then most_common None word_counts
              else most_common (Some n) word_counts
  | None => most_common None word_counts
  end.

(** ** nltk.collocations.TrigramCollocationFinder *)

Definition trigram : Type := string * string * string.

Definition trigram_eqb (s t : trigram) : bool :=
  String.eqb s.1.1 t.1.1 && String.eqb s.1.2 t.1.2 && String.eqb s.2 t.2.

(** [ngrams(sequence, 3, pad_right=True)]: the windows of three consecutive
    items of the sequence followed by two [None]. *)
Fixpoint windows (ws : list (option string))
    : list (option string * option string * option string) :=
  match ws with
  | w1 :: ((w2 :: w3 :: _) as rest) => (w1, w2, w3) :: windows rest
  | _ => []
  end.

Definition ngrams_pad_right (words : list string)
    : list (option string * option string * option string) :=
  windows (map Some words ++ [None; None]).

(** [from_words(words)] with the default window size: the loop over the
    windows skips a window that holds a [None] and counts the others. Of the
    four frequency tables of the finder this is the trigram table; the other
    three only feed the association measure. *)
Definition from_words (words : list string) : list (trigram * nat) :=
  fold_left
    (λ tfd window,
       match window with
       | (Some w1, Some w2, Some w3) => count_one trigram_eqb (w1, w2, w3) tfd
       | _ => tfd
       end)
    (ngrams_pad_right words) [].

(** [apply_freq_filter(min_freq)]: drops the trigrams whose count is below
    [min_freq]. *)
Definition apply_freq_filter (min_freq : Z) (ngram_fd : list (trigram * nat))
    : list (trigram * nat) :=
  filter (λ item, negb (Z.of_nat item.2 <? min_freq)%Z) ngram_fd.

(** The association measure handed to [nbest]. [TrigramAssocMeasures.pmi]
    computes a float from the counts of the trigram and of its parts in the
    word stream, with a logarithm: it is a parameter here, a function of the
    stream and the trigram; [None] is the finder's answer for a trigram that
    it does not score. *)
Class AssocMeasure := { pmi : list string → trigram → option float }.

(** Python's [<] on the sort keys [(-score, trigram)]: tuples compare by
    their first components that are not [==]. *)
Definition trigram_ltb (s t : trigram) : bool :=
  if String.eqb s.1.1 t.1.1 then
    if String.eqb s.1.2 t.1.2 then String.ltb s.2 t.2
    else String.ltb s.1.2 t.1.2
  else String.ltb s.1.1 t.1.1.

Definition score_key_ltb (x y : trigram * float) : bool :=
  if (- x.2 =? - y.2)%float then trigram_ltb x.1 y.1
  else (- x.2 <? - y.2)%float.

(** [score_ngrams(score_fn)] and [nbest(score_fn, n)]. *)
Definition score_ngrams `{AssocMeasure} (words : list string)
    (ngram_fd : list (trigram * nat)) : list (trigram * float) :=
  sorted score_key_ltb
    (omap (λ item, score ← pmi words item.1; Some (item.1, score)) ngram_fd).

Definition nbest `{AssocMeasure} (words : list string) (n : Z)
    (ngram_fd : list (trigram * nat)) : list trigram :=
  map fst (slice_to n (score_ngrams words ngram_fd)).

(** ** text_processing.get_trigrams *)
Definition get_trigrams `{AssocMeasure} (headlines : list (list string))
    (freq_filter top_n : Z) : list trigram :=
  let all_words := concat headlines in
  let finder := from_words all_words in
  let finder := apply_freq_filter freq_filter finder in
  let significant_trigrams := nbest all_words top_n finder in
  significant_trigrams.

(** ** Stateful code: a state monad with exceptions

    A computation takes the state and gives the state it leaves together with
    its result, [None] when an exception was raised. *)
Definition py (S A : Type) : Type := S → option A * S.

#[export] Instance py_ret {S} : MRet (py S) := λ A a s, (Some a, s).

#[export] Instance py_bind {S} : MBind (py S) := λ A B k m s,
  match m s with
  | (Some a, s') => k a s'
  | (None, s') => (None, s')
  end.

(** A pure step that may raise. *)
Definition lift {S A} (o : option A) : py S A := λ s, (o, s).

(** ** pandas tables *)

(** A cell holds a string, a float, an integer or a missing value. *)
Inductive cell : Type :=
  | Str (s : string)
  | Num (x : float)
  | Int (n : Z)
  | NA.

(** A table is its columns in order, each a label and the values of its
    rows; rows are identified by position. *)
Definition frame : Type := list (string * list cell).

Definition loc : Type := positive.

Abbreviation heap := (gmap loc frame).

Definition columns (f : frame) : list string := map fst f.

(** [f[col]], a [KeyError] for an absent label. *)
Fixpoint get_col (col : string) (f : frame) : option (list cell) :=
  match f with
  | [] => None
  | (label, values) :: f' =>
      if String.eqb label col then Some values else get_col col f'
  end.

(** [f[col] = values]: replaces the column, or appends it as the last one. *)
Fixpoint set_col (col : string) (values : list cell) (f : frame) : frame :=
  match f with
  | [] => [(col, values)]
  | (label, old) :: f' =>
      if String.eqb label col then (label, values) :: f'
      else (label, old) :: set_col col values f'
  end.

Definition nrows (f : frame) : nat :=
  match f with [] => 0%nat | (_, values) :: _ => length values end.

(** A new table object. *)
Definition df_new (f : frame) : py heap loc := λ h,
  let l := fresh (dom h) in (Some l, <[l:=f]> h).

(** Reading the table behind a reference. *)
Definition df_read (df : loc) : py heap frame := λ h, (h !! df, h).

(** [df.copy()]: a new object with the same contents. *)
Definition df_copy (df : loc) : py heap loc :=
  f ← df_read df; df_new f.

(** [df[col]] and [df[col] = values] on a table object; the assignment
    updates the object in place. *)
Definition getitem (df : loc) (col : string) : py heap (list cell) :=
  f ← df_read df; lift (get_col col f).

Definition setitem (df : loc) (col : string) (values : list cell) : py heap unit :=
  λ h, match h !! df with
       | Some f => (Some (), <[df:=set_col col values f]> h)
       | None => (None, h)
       end.

(** [df.loc[mask, col] = values], [values] holding one value per selected
    row: the selected rows of the column are overwritten, the others keep
    their value; a column that does not exist yet is created with missing
    values. *)
Fixpoint assign_masked (mask : list bool) (values old : list cell) : list cell :=
  match mask, old with
  | true :: mask', _ :: old' =>
      match values with
      | v :: values' => v :: assign_masked mask' values' old'
      | [] => NA :: assign_masked mask' [] old'
      end
  | false :: mask', c :: old' => c :: assign_masked mask' values old'
  | _, _ => []
  end.

Definition loc_setitem (df : loc) (mask : list bool) (col : string)
    (values : list cell) : py heap unit :=
  f ← df_read df;
  let old := default (replicate (nrows f) NA) (get_col col f) in
  setitem df col (assign_masked mask values old).

(** The rows selected by a mask. *)
Fixpoint select_masked (mask : list bool) (values : list cell) : list cell :=
  match mask, values with
  | true :: mask', v :: values' => v :: select_masked mask' values'
  | false :: mask', _ :: values' => select_masked mask' values'
  | _, _ => []
  end.

(** [Series.apply(fn)]: [fn] on every value, the first exception ending the
    loop. *)
Definition apply (fn : cell → option cell) (values : list cell) : option (list cell) :=
  mapM fn values.

(** Missing values: [NaN] in a float column, [None] or [NaN] among objects. *)
Definition isna (c : cell) : bool :=
  match c with
  | NA => true
  | Num x => is_nan x
  | _ => false
  end.

(** Python's [==] between an integer and a float compares the exact
    values. *)
Definition float_eqb_Z (x : float) (n : Z) : bool :=
  match Prim2SF x with
  | S754_zero _ => (n =? 0)%Z
  | S754_finite s m e =>
      let v := if s then Z.neg m else Z.pos m in
      if (0 <=? e)%Z then (n =? v * 2 ^ e)%Z else (n * 2 ^ (- e) =? v)%Z
  | _ => false
  end.

Definition cell_eqb (c d : cell) : bool :=
  match c, d with
  | Str s, Str t => String.eqb s t
  | Num x, Num y => (x =? y)%float
  | Int n, Int m => (n =? m)%Z
  | Num x, Int n | Int n, Num x => float_eqb_Z x n
  | NA, NA => true
  | _, _ => false
  end.

(** [Series.value_counts()]: the distinct values that are not missing with
    the number of rows holding each, by decreasing count. pandas does not
    promise an order among equal counts; the order first seen is taken. *)
Definition value_counts (values : list cell) : list (cell * nat) :=
  most_common None (Counter cell_eqb (filter (λ c, negb (isna c)) values)).

(** ** publisher_analysis.add_organization_column *)

(** [Series.str.contains('@', na=False)] on one cell: a value that is not a
    string counts as missing, and a missing value gives [False]. *)
Definition str_contains_at (c : cell) : bool :=
  match c with
  | Str s => contains "@" s
  | _ => false
  end.

Definition is_str (c : cell) : bool :=
  match c with Str _ => true | _ => false end.

(** [Series.str]: pandas gives the accessor to a column that holds a
    string, whatever else it holds, and raises an [AttributeError] for a
    column that holds numbers and no string. For a column that holds
    neither pandas goes by the dtype, which a table here does not record:
    the column is taken as [read_csv] makes it, an object column, which has
    the accessor, when it has no row, and a float column, which has none,
    when it has missing values only. *)
Definition str_accessor (values : list cell) : option unit :=
  if existsb is_str values || bool_decide (values = []) then Some () else None.

(** [extract_organization_from_email] under [Series.apply]: the test
    ['@' not in email] raises a [TypeError] on a value that is not a
    string. *)
Definition extract_organization_cell (c : cell) : option cell :=
  match c with
  | Str s => Str <$> extract_organization_from_email s
  | _ => None
  end.

Definition add_organization_column (df : loc)
    (publisher_column organization_column : string) : py heap loc :=
  df ← df_copy df;
  publishers ← getitem df publisher_column;
  lift (str_accessor publishers);;
  let email_mask := map str_contains_at publishers in
  organizations ←
    lift (apply extract_organization_cell (select_masked email_mask publishers));
  loc_setitem df email_mask organization_column organizations;;
  mret df.

(** ** publisher_analysis.get_organization_counts

    The call of [add_organization_column] passes no column names, so it reads
    [publisher] and writes [organization], whatever [organization_column]
    is. [value_counts()] names its result [count] (pandas 2 and later) and
    its index after the column counted, and [reset_index()], which makes the
    index a column, raises a [ValueError] when the two names are the same.
    The result is a new table of two columns, [organization] and [count]. *)
Definition get_organization_counts (df : loc) (organization_column : string)
    : py heap loc :=
  f ← df_read df;
  df ← (if bool_decide (organization_column ∈ columns f) then mret df
        else add_organization_column df "publisher" "organization");
  organizations ← getitem df organization_column;
  let org_counts := value_counts organizations in
  (if String.eqb organization_column "count" then lift None else mret ());;
  df_new [("organization", map fst org_counts);
          ("count", map (λ item, Int (Z.of_nat item.2)) org_counts)].

(** ** sentiment_analysis.add_sentiment_analysis *)

(** The dictionary of [polarity_scores]. *)
Record scores : Type := {
  neg : float;
  neu : float;
  pos : float;
  compound : float
}.

(** A [SentimentIntensityAnalyzer] is used through [polarity_scores] only. *)
Record analyzer : Type := { polarity_scores : string → scores }.

(** What [SentimentIntensityAnalyzer()] ends with: the scorer, a
    [LookupError] when the VADER lexicon is not found, or another
    exception. *)
Inductive construction : Type :=
  | Built (a : analyzer)
  | Lookup_error
  | Other_error.

(** The constructor of nltk, before and after
    [nltk.download('vader_lexicon')] was called: the download may fail, and
    then the lexicon is still not found. *)
Class Vader := { SentimentIntensityAnalyzer : bool → construction }.

(** ** sentiment_analysis.initialize_sentiment_analyzer

    The second call of the constructor stands outside the [try]: what it
    raises is raised by the function. *)
Definition initialize_sentiment_analyzer `{Vader} : option analyzer :=
  match SentimentIntensityAnalyzer false with
  | Built a => Some a
  | Lookup_error =>
      match SentimentIntensityAnalyzer true with
      | Built a => Some a
      | _ => None
      end
  | Other_error => None
  end.

(** [if analyzer is None: analyzer = initialize_sentiment_analyzer()] *)
Definition analyzer_or_new `{Vader} (a : option analyzer) : option analyzer :=
  match a with
  | None => initialize_sentiment_analyzer
  | Some a => Some a
  end.

Definition calculate_sentiment_scores `{Vader} (text : string)
    (a : option analyzer) : option scores :=
  a ← analyzer_or_new a;
  Some (polarity_scores a text).

Definition get_compound_sentiment `{Vader} (text : string)
    (a : option analyzer) : option float :=
  scores ← calculate_sentiment_scores text a;
  Some (compound scores).

(** The lambda under [apply]: the scorer raises on a value that is not a
    string. *)
Definition headline_sentiment_cell `{Vader} (a : analyzer) (c : cell) : option cell :=
  match c with
  | Str headline => Num <$> get_compound_sentiment headline (Some a)
  | _ => None
  end.

(** [astype(str)]: a string stays, a number becomes its text, [str(x)],
    which for a float is Python's shortest round-trip decimal, a parameter
    here. What becomes of a missing value depends on the value and on the
    version of pandas: up to pandas 2 a NaN becomes the text [nan] and a
    [None] the text [None], from pandas 3 on the value stays missing; and a
    missing category becomes the text [nan] or stays missing. Both are
    parameters. *)
Class AstypeStr := {
  float_str : float → string;
  missing_str : cell → cell;
  missing_category_str : cell
}.

(** [pd.cut] on the scores, and [astype(str).replace(...)] on the
    categories, one cell at a time. *)
Definition sentiment_category_cell (c : cell) : option cell :=
  match c with
  | Num score => Some (from_option Str NA (sentiment_category score))
  | _ => None
  end.

(** [Series.replace] with the dictionary on one cell: a missing value is no
    key. *)
Definition replace_very_cell (c : cell) : cell :=
  match c with
  | Str value => Str (replace_very value)
  | _ => c
  end.

Definition sentiment_group_cell `{AstypeStr} (c : cell) : option cell :=
  match c with
  | Str label => Some (Str (sentiment_group (Some label)))
  | NA => Some (replace_very_cell missing_category_str)
  | _ => None
  end.

Definition add_sentiment_analysis `{Vader} `{AstypeStr} (df : loc)
    (headline_column : string) (a : option analyzer) : py heap loc :=
  df ← df_copy df;
  a ← lift (analyzer_or_new a);
  headlines ← getitem df headline_column;
  sentiments ← lift (apply (headline_sentiment_cell a) headlines);
  setitem df "headline_sentiment" sentiments;;
  sentiments ← getitem df "headline_sentiment";
  categories ← lift (apply sentiment_category_cell sentiments);
  setitem df "sentiment_category" categories;;
  categories ← getitem df "sentiment_category";
  groups ← lift (apply sentiment_group_cell categories);
  setitem df "sentiment_group" groups;;
  mret df.

(** ** text_processing.add_headline_length *)

(** [astype(str)] on one cell. *)
Definition astype_str `{AstypeStr} (c : cell) : cell :=
  if isna c then missing_str c
  else match c with
       | Str s => Str s
       | Num x => Str (float_str x)
       | Int n => Str (pretty n)
       | NA => NA
       end.

(** [len] under [Series.apply]: the number of characters of a string, a
    [TypeError] on a number or a missing value. *)
Definition len_cell `{PyStr} (c : cell) : option cell :=
  match c with
  | Str s => Some (Int (Z.of_nat (str_len s)))
  | _ => None
  end.

Definition add_headline_length `{PyStr} `{AstypeStr} (df : loc)
    (headline_column : string) : py heap loc :=
  df ← df_copy df;
  headlines ← getitem df headline_column;
  setitem df headline_column (map astype_str headlines);;
  headlines ← getitem df headline_column;
  lengths ← lift (apply len_cell headlines);
  setitem df "headline_length" lengths;;
  mret df.

(** ** data_loader.load_stock_data *)

(** The files and the csv reader. [read_csv] and [to_datetime] raise on
    input they cannot parse. *)
Class World := {
  path_exists : string → bool;
  read_csv : string → option frame;
  to_datetime : list cell → option (list cell)
}.

(** [os.path.join(a, b)] on a POSIX system. *)
Definition endswith_slash (s : string) : bool :=
  match String.get (String.length s - 1) s with
  | Some c => Ascii.eqb c "/"
  | None => false
  end.

Definition path_join (a b : string) : string :=
  match b with
  | String "/" _ => b
  | _ => if String.eqb a "" || endswith_slash a then a ++ b else a ++ "/" ++ b
  end.

(** [print(line)]: the state is the text written to standard output. *)
Definition print (line : string) : py (list string) unit :=
  λ out, (Some (), (out ++ [line])%list).

Definition warning (ticker file_path : string) : string :=
  "Warning: File not found for " ++ ticker ++ ": " ++ file_path.

(** The body of the [if os.path.exists(file_path)] branch up to the table it
    stores. *)
Definition read_stock_csv `{World} (file_path : string) : option frame :=
  df ← read_csv file_path;
  if bool_decide ("Date" ∈ columns df) then
    dates ← get_col "Date" df;
    dates ← to_datetime dates;
    Some (set_col "Date" dates df)
  else Some df.

(** The [for ticker in tickers] loop, from a dictionary built so far. *)
Fixpoint load_stock_loop `{World} (tickers : list string) (base_path : string)
    (stock_data : gmap string frame) : py (list string) (gmap string frame) :=
  match tickers with
  | [] => mret stock_data
  | ticker :: tickers' =>
      let file_path := path_join base_path (ticker ++ ".csv") in
      stock_data ←
        (if path_exists file_path then
           df ← lift (read_stock_csv file_path);
           mret (<[ticker:=df]> stock_data)
         else
           print (warning ticker file_path);;
           mret stock_data);
      load_stock_loop tickers' base_path stock_data
  end.

Definition load_stock_data `{World} (tickers : list string) (base_path : string)
    : py (list string) (gmap string frame) :=
  load_stock_loop tickers base_path ∅.

(** ** data_loader.load_news_data *)

(** The news file is read with [index_col=False] and its dates are parsed
    with [utc=True, format='mixed']: calls with other arguments than those of
    [load_stock_data], and with results of their own. Both raise on input
    they cannot parse, the reader also on a file that does not exist. *)
Class NewsWorld := {
  read_csv_no_index : string → option frame;
  to_datetime_utc_mixed : list cell → option (list cell)
}.

(** [df.drop(columns=labels)]: every column with one of the labels goes; a
    [KeyError] for a label that the table lacks. *)
Definition drop_columns (labels : list string) (f : frame) : option frame :=
  if bool_decide (labels ⊆ columns f)
  then Some (filter (λ column, column.1 ∉ labels) f)
  else None.

Definition load_news_data `{NewsWorld} (file_path : string) (drop_unnamed : bool)
    : option frame :=
  news_df ← read_csv_no_index file_path;
  news_df ← (if drop_unnamed && bool_decide ("Unnamed: 0" ∈ columns news_df)
             then drop_columns ["Unnamed: 0"] news_df
             else Some news_df);
  if bool_decide ("date" ∈ columns news_df) then
    dates ← get_col "date" news_df;
    dates ← to_datetime_utc_mixed dates;
    Some (set_col "date" dates news_df)
  else Some news_df.

(** ** publisher_analysis.get_top_publishers *)

(** [df.groupby(key).count()], for one counted column: the groups are the
    values of the key column that are not missing, and the count of a group
    is the number of its rows whose cell in the counted column is not
    missing. *)
Definition group_keys (keys : list cell) : list cell :=
  map fst (Counter cell_eqb (filter (λ c, negb (isna c)) keys)).

Definition group_count (key : cell) (keys values : list cell) : nat :=
  length (filter (λ row, cell_eqb row.1 key && negb (isna row.2)) (zip keys values)).

(** [sort_values(by=..., ascending=False)] on the groups: pandas sorts with
    quicksort, which is not stable, so the rows come out by decreasing
    count and the order among rows of equal count is the sort's choice. The
    order by key that [groupby] gives the groups does not survive it; they
    are handed over in the order first seen. *)
Class SortValues := {
  sort_values_descending : list (cell * nat) → list (cell * nat);
  sort_values_permutation rows : sort_values_descending rows ≡ₚ rows;
  sort_values_sorted rows :
    StronglySorted (λ x y, (y.2 ≤ x.2)%nat) (sort_values_descending rows)
}.

(** The table is read only. The result has the publishers as its index and
    one column, [headline_column], of counts: it is given as the list of its
    rows, index label and count. [headline_column] is looked up among the
    columns of the counts, where the key column is not: a [KeyError] when it
    is the publisher column. [head(top_n)] is the slice [[:top_n]]. *)
Definition get_top_publishers `{SortValues} (f : frame)
    (publisher_column headline_column : string) (top_n : Z)
    : option (list (cell * nat)) :=
  publishers ← get_col publisher_column f;
  headlines ← (if String.eqb headline_column publisher_column then None
               else get_col headline_column f);
  let publisher_grouping :=
    sort_values_descending
      (map (λ publisher, (publisher, group_count publisher publishers headlines))
           (group_keys publishers)) in
  Some (slice_to top_n publisher_grouping).

(** * Part II: the vocabulary of the specification *)

(** ** Scores and bins *)

(** The five half-open bins of the specification, closed at the lower edge,
    by label. *)
Definition in_bin (label : string) (x : float) : bool :=
  if String.eqb label "very-positive" then (0.7 <=? x)%float
  else if String.eqb label "positive" then (0.1 <=? x)%float && (x <? 0.7)%float
  else if String.eqb label "neutral" then (-0.1 <=? x)%float && (x <? 0.1)%float
  else if String.eqb label "negative" then (-0.7 <=? x)%float && (x <? -0.1)%float
  else if String.eqb label "very-negative" then (x <? -0.7)%float
  else false.

(** The inner bin edges and the lowest one: the scores at which the lower
    and the upper end of a bin meet. *)
Definition bin_edges : list float := [-1; -0.7; -0.1; 0.1; 0.7]%float.

(** The order of floats, read off their decoding: a float that is not a NaN
    is placed by its sign class, then its exponent, then its mantissa, the
    last two mirrored for negative numbers. *)
Definition sf_key (f : spec_float) : option (Z * Z * Z) :=
  match f with
  | S754_nan => None
  | S754_infinity s => Some (if s then (-2) else 2, 0, 0)%Z
  | S754_zero _ => Some (0, 0, 0)%Z
  | S754_finite s m e => Some (if s then (-1, - e, Z.neg m) else (1, e, Z.pos m))%Z
  end.

Definition lex_compare (a b : Z * Z * Z) : comparison :=
  match (a.1.1 ?= b.1.1)%Z with
  | Eq => match (a.1.2 ?= b.1.2)%Z with
          | Eq => (a.2 ?= b.2)%Z
          | c => c
          end
  | c => c
  end.

Definition key_lt (a b : Z * Z * Z) : Prop :=
  (a.1.1 < b.1.1
   ∨ (a.1.1 = b.1.1 ∧ (a.1.2 < b.1.2 ∨ (a.1.2 = b.1.2 ∧ a.2 < b.2))))%Z.

Definition fkey (x : float) : option (Z * Z * Z) := sf_key (Prim2SF x).

Definition key_test (test : comparison → bool) (x y : float) : bool :=
  match fkey x, fkey y with
  | Some a, Some b => test (lex_compare a b)
  | _, _ => false
  end.

(** ** Email-shaped strings *)

(** The text strictly before the first [c] of [s]; all of [s] without one. *)
Fixpoint before_first (c : ascii) (s : string) : string :=
  match s with
  | EmptyString => EmptyString
  | String a s' => if Ascii.eqb a c then EmptyString else String a (before_first c s')
  end.

(** The text after the first [c] of [s]; empty without one. *)
Fixpoint after_first (c : ascii) (s : string) : string :=
  match s with
  | EmptyString => EmptyString
  | String a s' => if Ascii.eqb a c then s' else after_first c s'
  end.

(** ** Counting *)

(** The number of positions of the corpus at which the three words of [t]
    stand next to each other. *)
Definition occurrences (t : trigram) (corpus : list string) : nat :=
  length (filter (λ i, bool_decide (take 3 (drop i corpus) = [t.1.1; t.1.2; t.2]))
                 (seq 0 (length corpus))).

(** The trigrams of a word stream, position by position. *)
Fixpoint trigrams_of (ws : list string) : list trigram :=
  match ws with
  | w1 :: ((w2 :: w3 :: _) as rest) => (w1, w2, w3) :: trigrams_of rest
  | _ => []
  end.

(** The windows without a [None], as trigrams. *)
Definition complete (window : option string * option string * option string)
    : option trigram :=
  match window with
  | (Some w1, Some w2, Some w3) => Some (w1, w2, w3)
  | _ => None
  end.

(** The sum of the counts of a frequency list. *)
Definition total_count {K} (c : list (K * nat)) : nat := sum_list (map snd c).

(** A publisher entry that holds an [@] and whose extracted organization is
    [org]. *)
Definition email_of (org : string) (c : cell) : bool :=
  match c with
  | Str s => contains "@" s
             && bool_decide (extract_organization_from_email s = Some org)
  | _ => false
  end.

(** The number of such entries in a publisher column. *)
Definition email_entries (org : string) (publishers : list cell) : nat :=
  length (filter (email_of org) publishers).

(** ** Stock files *)

(** The file of a ticker in a directory: the name of the ticker with [.csv],
    after the path of the directory and a slash, which is left out when the
    path ends with one or is empty. *)
Fixpoint ends_with (c : ascii) (s : string) : bool :=
  match s with
  | EmptyString => false
  | String a EmptyString => Ascii.eqb a c
  | String _ s' => ends_with c s'
  end.

Definition csv_file (base_path ticker : string) : string :=
  if String.eqb base_path "" || ends_with "/" base_path
  then base_path ++ ticker ++ ".csv"
  else base_path ++ "/" ++ ticker ++ ".csv".

(** The line printed for a ticker without a file. *)
Definition file_not_found (ticker file_path : string) : string :=
  "Warning: File not found for " ++ ticker ++ ": " ++ file_path.

(** The tickers without a file, and the lines printed for them, in the order
    of the tickers. *)
Definition missing_tickers `{World} (tickers : list string) (base_path : string)
    : list string :=
  filter (λ ticker, path_exists (csv_file base_path ticker) = false) tickers.

Definition file_not_found_lines `{World} (tickers : list string)
    (base_path : string) : list string :=
  map (λ ticker, file_not_found ticker (csv_file base_path ticker))
      (missing_tickers tickers base_path).

(** A file that can be read: the csv parser takes it, and the date parser
    takes its [Date] column when it has one. *)
Definition readable `{World} (file_path : string) : Prop :=
  ∃ raw, read_csv file_path = Some raw
         ∧ ∀ dates, get_col "Date" raw = Some dates → is_Some (to_datetime dates).

(** C6 as stated, for every list of tickers and every base path: no error
    is raised, a warning is printed for each ticker without a file, and the
    keys of the dictionary are the tickers with a file. *)
Definition missing_files_only_warn `{World} (tickers : list string)
    (base_path : string) : Prop :=
  ∃ stock_data out,
    load_stock_data tickers base_path [] = (Some stock_data, out)
    ∧ (∀ ticker, ticker ∈ missing_tickers tickers base_path →
         file_not_found ticker (csv_file base_path ticker) ∈ out)
    ∧ (∀ ticker, ticker ∈ dom stock_data ↔
         ticker ∈ tickers ∧ path_exists (csv_file base_path ticker) = true).

Definition stock_file (base_path ticker : string) : string :=
  path_join base_path (ticker ++ ".csv").

(** The warnings for the tickers without a file, in the order of the
    tickers. *)
Definition missing_warnings `{World} (tickers : list string) (base_path : string)
    : list string :=
  map (λ ticker, warning ticker (stock_file base_path ticker))
      (filter (λ ticker, path_exists (stock_file base_path ticker) = false) tickers).

(** ** Table objects *)

(** A computation leaves every table of the heap as it was. *)
Definition keeps_tables {A} (m : py heap A) (h : heap) : Prop :=
  ∀ l f, h !! l = Some f → (m h).2 !! l = Some f.

(** The table a computation returns is an object that did not exist
    before. *)
Definition returns_new_table (m : py heap loc) (h : heap) : Prop :=
  ∀ df', (m h).1 = Some df' → h !! df' = None ∧ is_Some ((m h).2 !! df').

(** A computation writes to the table [l] only, and does not delete it. *)
Definition writes_only {A} (l : loc) (m : py heap A) : Prop :=
  ∀ h, (∀ k, k ≠ l → (m h).2 !! k = h !! k)
       ∧ (is_Some (h !! l) → is_Some ((m h).2 !! l)).

(** A computation whose result, when it has one, is [l]. *)
Definition returns (l : loc) (m : py heap loc) : Prop :=
  ∀ h r, (m h).1 = Some r → r = l.

(** C9 as stated, for one function and one table: the call returns a new
    table and leaves the table it is given as it was. *)
Definition returns_new_table_keeping (m : py heap loc) (h : heap) (df : loc)
    (f : frame) : Prop :=
  (∃ df', (m h).1 = Some df' ∧ h !! df' = None ∧ is_Some ((m h).2 !! df'))
  ∧ (m h).2 !! df = Some f.

(** The scorer that a call works with: the one it is given, or else the one
    the constructor builds, at once or, after a [LookupError], once the
    lexicon was downloaded. *)
Definition scorer `{Vader} (a : option analyzer) (an : analyzer) : Prop :=
  a = Some an
  ∨ (a = None
     ∧ (SentimentIntensityAnalyzer false = Built an
        ∨ (SentimentIntensityAnalyzer false = Lookup_error
           ∧ SentimentIntensityAnalyzer true = Built an))).

(** The group of a category: the category with the two [very-] labels
    merged, and for a missing category what [astype(str)] makes of it. *)
Definition group_of `{AstypeStr} (category : option string) : cell :=
  match category with
  | Some label => Str (replace_very label)
  | None => replace_very_cell missing_category_str
  end.

(** The text of a cell that is not missing. *)
Definition text_of `{AstypeStr} (c : cell) : string :=
  match c with
  | Str s => s
  | Num x => float_str x
  | Int n => pretty n
  | NA => ""
  end.

(** Every column of a table has one value per row. *)
Definition rectangular (f : frame) : Prop :=
  Forall (λ column, length column.2 = nrows f) f.

(** The organization of one publisher entry: extracted from an entry with an
    [@], missing for every other entry. *)
Definition organization_of (c : cell) : cell :=
  match c with
  | Str s => if contains "@" s
             then from_option Str NA (extract_organization_from_email s)
             else NA
  | _ => NA
  end.

(** The organizations of the entries with an [@], in row order. *)
Definition organizations (publishers : list cell) : list string :=
  omap (λ c, match c with
             | Str s => if contains "@" s then extract_organization_from_email s
                        else None
             | _ => None
             end)
       publishers.

(** ** Sample data *)

Definition sample_news : frame :=
  [("headline", [Str "Stocks rally"; Str "Shares slide"]);
   ("publisher", [Str "benzinga"; Str "a@benzinga.com"])].

Definition sample_heap : heap := {[1%positive := sample_news]}.

(** A table with a missing headline and publishers that are numbers. *)
Definition sample_gaps : frame :=
  [("headline", [Str "Stocks rally"; NA]);
   ("publisher", [Int 5; Int 7])].

Definition sample_gaps_heap : heap := {[1%positive := sample_gaps]}.

Definition sample_analyzer : analyzer :=
  {| polarity_scores := λ text,
       {| neg := 0; neu := 1; pos := 0;
          compound := if String.eqb text "Stocks rally" then 0.7 else -0.2 |} |}.

(** The lexicon is found. *)
Definition sample_vader : Vader :=
  {| SentimentIntensityAnalyzer := λ _, Built sample_analyzer |}.

(** The lexicon is not found before the download and is found after it. *)
Definition sample_vader_download : Vader :=
  {| SentimentIntensityAnalyzer := λ downloaded,
       if downloaded then Built sample_analyzer else Lookup_error |}.

(** [astype(str)] as pandas 2 has it on NaN. *)
Definition sample_astype : AstypeStr :=
  {| float_str := λ _, "0.0";
     missing_str := λ _, Str "nan";
     missing_category_str := Str "nan" |}.

(** Text that is taken to be ASCII. *)
Definition ascii_str : PyStr :=
  {| str_lower := lower;
     str_strip := strip;
     str_isalpha := isalpha;
     str_len := String.length;
     str_lower_ascii := λ _ _, eq_refl;
     str_strip_ascii := λ _ _, eq_refl;
     str_isalpha_ascii := λ _ _, eq_refl;
     str_len_ascii := λ _ _, eq_refl |}.

(** One stock file exists, the one of AAPL. *)
Definition sample_world : World :=
  {| path_exists := λ path, String.eqb path "../data/stock_data/AAPL.csv";
     read_csv := λ _, Some [("Date", [Str "2020-01-02"]); ("Close", [Num 75])];
     to_datetime := λ dates, Some dates |}.

(** The file of BAD exists and cannot be parsed; MSFT has no file. *)
Definition unreadable_world : World :=
  {| path_exists := λ path, String.eqb path "../data/stock_data/BAD.csv";
     read_csv := λ _, None;
     to_datetime := λ dates, Some dates |}.

(** A measure that prefers long last words. *)
Definition sample_measure : AssocMeasure :=
  {| pmi := λ _ t, Some (if (String.length t.2 <=? 1)%nat then 1 else 2)%float |}.


(** ** Further vocabulary *)

(** The place of a category on the scale from very-negative to
    very-positive. *)
Definition category_rank (label : string) : nat :=
  if String.eqb label "very-negative" then 0
  else if String.eqb label "negative" then 1
  else if String.eqb label "neutral" then 2
  else if String.eqb label "positive" then 3
  else 4.

(** A frequency list in the order of decreasing counts. *)
Definition decreasing_counts {K} (c : list (K * nat)) : Prop :=
  StronglySorted (λ x y, (y.2 ≤ x.2)%nat) c.

(** The words of a stream in the order in which they first occur. *)
Fixpoint first_seen (ws : list string) : list string :=
  match ws with
  | [] => []
  | w :: ws' => w :: filter (λ v, v ≠ w) (first_seen ws')
  end.

(** All tokens of a list of headlines, headline after headline. *)
Definition all_tokens_of `{PyStr} `{Nltk} (headlines : list string) : list string :=
  concat (map (λ headline, get_tokens headline true true true) headlines).

(** The number of times a word stands in a list of tokens. *)
Definition word_count (w : string) (tokens : list string) : nat :=
  length (filter (λ token, token = w) tokens).

(** The organization a row ends with: extracted for an entry with an [@],
    the value the row had before for every other entry. *)
Definition organization_update (publisher old : cell) : cell :=
  if str_contains_at publisher then organization_of publisher else old.

(** The organization column before the update: the column when the table
    has one, missing values otherwise. *)
Definition old_organizations (organization_column : string) (f : frame) : list cell :=
  default (replicate (nrows f) NA) (get_col organization_column f).

(** A news file with the index column that [to_csv] leaves behind. *)
Definition sample_news_world : NewsWorld :=
  {| read_csv_no_index := λ _,
       Some [("Unnamed: 0", [Int 0; Int 1]);
             ("headline", [Str "Stocks rally"; Str "Shares slide"]);
             ("date", [Str "2020-06-05 10:30:54-04:00"; Str "2020-06-03 00:00:00"])];
     to_datetime_utc_mixed := λ dates, Some dates |}.

(** * Part III: properties *)

(** ** The order of floats *)

Lemma SFcompare_key (x y : spec_float) :
  SFcompare x y =
    match sf_key x, sf_key y with
    | Some a, Some b => Some (lex_compare a b)
    | _, _ => None
    end.
Proof.
  destruct x as [[]|[]| |[] mx ex], y as [[]|[]| |[] my ey]; try reflexivity;
    cbn [SFcompare sf_key]; unfold lex_compare; cbn [fst snd]; f_equal.
  cbn. rewrite Z.compare_opp, (Z.compare_antisym ex ey).
  destruct (ex ?= ey)%Z; reflexivity.
Qed.

Lemma ltb_key (x y : float) :
  (x <? y)%float = key_test (λ c, match c with Lt => true | _ => false end) x y.
Proof.
  rewrite FloatAxioms.ltb_spec. unfold SFltb, key_test, fkey.
  rewrite SFcompare_key.
  destruct (sf_key (Prim2SF x)), (sf_key (Prim2SF y)); reflexivity.
Qed.

Lemma leb_key (x y : float) :
  (x <=? y)%float = key_test (λ c, match c with Gt => false | _ => true end) x y.
Proof.
  rewrite FloatAxioms.leb_spec. unfold SFleb, key_test, fkey.
  rewrite SFcompare_key.
  destruct (sf_key (Prim2SF x)), (sf_key (Prim2SF y)); reflexivity.
Qed.

Lemma eqb_key (x y : float) :
  (x =? y)%float = key_test (λ c, match c with Eq => true | _ => false end) x y.
Proof.
  rewrite FloatAxioms.eqb_spec. unfold SFeqb, key_test, fkey.
  rewrite SFcompare_key.
  destruct (sf_key (Prim2SF x)), (sf_key (Prim2SF y)); reflexivity.
Qed.

Lemma lex_compare_spec (a b : Z * Z * Z) :
  CompareSpec (a = b) (key_lt a b) (key_lt b a) (lex_compare a b).
Proof.
  destruct a as [[a1 a2] a3], b as [[b1 b2] b3].
  unfold lex_compare, key_lt; cbn [fst snd].
  destruct (Z.compare_spec a1 b1); [subst|constructor; lia..].
  destruct (Z.compare_spec a2 b2); [subst|constructor; lia..].
  destruct (Z.compare_spec a3 b3); [subst|..]; constructor; (reflexivity || lia).
Qed.

(** Comparisons of a float [x] with literals become integer comparisons on
    the key of [x]. *)
Ltac lex_cases :=
  repeat lazymatch goal with
  | H : context [lex_compare ?a ?b] |- _ => destruct (lex_compare_spec a b)
  | |- context [lex_compare ?a ?b] => destruct (lex_compare_spec a b)
  end.

(** Facts about the order of floats reduce to integer arithmetic on keys. *)
Ltac float_order :=
  intros;
  rewrite ?ltb_key, ?leb_key, ?eqb_key in *;
  unfold key_test in *;
  repeat lazymatch goal with
  | H : context [fkey ?x] |- _ => destruct (fkey x) as [[[? ?] ?]|]
  | |- context [fkey ?x] => destruct (fkey x) as [[[? ?] ?]|]
  end;
  lex_cases;
  try discriminate; try reflexivity;
  unfold key_lt in *; cbn [fst snd] in *; simplify_eq; lia.

Lemma float_lt_not_ge (x b c : float) :
  (x <? b)%float = true → (b <=? c)%float = true → (c <=? x)%float = false.
Proof. float_order. Qed.

Lemma float_not_ge_lt (lo x b : float) :
  (lo <=? x)%float = true → (b =? b)%float = true →
  (b <=? x)%float = false → (x <? b)%float = true.
Proof. float_order. Qed.

Lemma float_lt_le_lt (b c x : float) :
  (b <? c)%float = true → (c <=? x)%float = true → (b <? x)%float = true.
Proof. float_order. Qed.

Lemma float_le_ne_lt (b x : float) :
  (b <=? x)%float = true → (b =? x)%float = false → (b <? x)%float = true.
Proof. float_order. Qed.

Lemma float_not_le_not_lt (b x : float) :
  (b <=? x)%float = false → (b <? x)%float = false.
Proof. float_order. Qed.

Lemma float_le_not_lt (x b : float) :
  (x <=? b)%float = true → (b <? x)%float = false.
Proof. float_order. Qed.

Lemma float_le_not_nan (lo x : float) :
  (lo <=? x)%float = true → is_nan x = false.
Proof. unfold is_nan. float_order. Qed.

(** ** Sentiment classification *)

Lemma classify_sentiment_in_labels (x : float) :
  classify_sentiment x ∈ sentiment_labels.
Proof.
  unfold classify_sentiment, sentiment_labels.
  repeat match goal with |- context [if ?b then _ else _] => destruct b end;
    set_solver.
Qed.

Lemma classify_sentiment_in_its_bin (x : float) :
  (-1 <=? x)%float = true → in_bin (classify_sentiment x) x = true.
Proof.
  intros Hlo. unfold classify_sentiment.
  pose proof (float_not_ge_lt (-1) x) as Hlt.
  destruct (0.7 <=? x)%float eqn:E1; [exact E1|].
  destruct (0.1 <=? x)%float eqn:E2.
  { cbn. rewrite E2. apply (Hlt 0.7%float); done. }
  destruct (-0.1 <=? x)%float eqn:E3.
  { cbn. rewrite E3. apply (Hlt 0.1%float); done. }
  destruct (-0.7 <=? x)%float eqn:E4.
  { cbn. rewrite E4. apply (Hlt (-0.1)%float); done. }
  cbn. apply (Hlt (-0.7)%float); done.
Qed.

Lemma in_bin_classify_sentiment (label : string) (x : float) :
  in_bin label x = true → classify_sentiment x = label.
Proof.
  unfold in_bin, classify_sentiment.
  repeat match goal with
  | |- context [String.eqb label ?s] =>
      destruct (String.eqb_spec label s) as [->|_]
  end; try discriminate; intros Hbin.
  - rewrite Hbin. reflexivity.
  - apply andb_prop in Hbin as [H1 H2]. rewrite H1.
    rewrite (float_lt_not_ge x 0.7 0.7) by done. reflexivity.
  - apply andb_prop in Hbin as [H1 H2]. rewrite H1.
    rewrite (float_lt_not_ge x 0.1 0.7), (float_lt_not_ge x 0.1 0.1) by done.
    reflexivity.
  - apply andb_prop in Hbin as [H1 H2]. rewrite H1.
    rewrite (float_lt_not_ge x (-0.1) 0.7), (float_lt_not_ge x (-0.1) 0.1),
      (float_lt_not_ge x (-0.1) (-0.1)) by done.
    reflexivity.
  - rewrite (float_lt_not_ge x (-0.7) 0.7), (float_lt_not_ge x (-0.7) 0.1),
      (float_lt_not_ge x (-0.7) (-0.1)), (float_lt_not_ge x (-0.7) (-0.7)) by done.
    reflexivity.
Qed.

(** C1: a score between -1 and 1 gets exactly one of the five categories,
    the one whose bin, closed at its lower edge, holds the score: at least
    0.7 very-positive, from 0.1 up to 0.7 positive, from -0.1 up to 0.1
    neutral, from -0.7 up to -0.1 negative, below -0.7 very-negative; the
    score 0.7 itself is very-positive. *)
Theorem classify_sentiment_partition (x : float) :
  (-1 <=? x)%float = true → (x <=? 1)%float = true →
  classify_sentiment x ∈ sentiment_labels
  ∧ (∀ label, classify_sentiment x = label ↔ in_bin label x = true)
  ∧ classify_sentiment 0.7 = "very-positive"
  ∧ classify_sentiment 0.7 ≠ "positive".
Proof.
  intros Hlo Hhi. split; [apply classify_sentiment_in_labels|].
  split; [|split; [reflexivity|discriminate]].
  intros label. split.
  - intros <-. apply classify_sentiment_in_its_bin, Hlo.
  - apply in_bin_classify_sentiment.
Qed.

Lemma classify_sentiment_partition_witness :
  ((-1 <=? 0.7)%float = true ∧ (0.7 <=? 1)%float = true)
  ∧ classify_sentiment 0.7 ∈ sentiment_labels
  ∧ (∀ label, classify_sentiment 0.7 = label ↔ in_bin label 0.7 = true)
  ∧ classify_sentiment 0.7 = "very-positive"
  ∧ classify_sentiment 0.7 ≠ "positive".
Proof.
  split; [split; reflexivity|].
  apply (classify_sentiment_partition 0.7); reflexivity.
Defined.

(** The labels are five different strings. *)
Lemma sentiment_labels_distinct : NoDup sentiment_labels.
Proof. apply (bool_decide_unpack _). vm_compute. exact I. Qed.

(** ** The bins of pd.cut against classify_sentiment *)

(** Away from the bin edges the two classifications agree. *)
Lemma sentiment_category_off_edges (x : float) :
  (-1 <=? x)%float = true → (x <=? 1)%float = true →
  Forall (λ edge, (edge =? x)%float = false) bin_edges →
  sentiment_category x = Some (classify_sentiment x).
Proof.
  intros Hlo Hhi Hedges. unfold bin_edges in Hedges.
  repeat match goal with
  | H : Forall _ (_ :: _) |- _ => apply Forall_cons in H as [? H]
  end.
  unfold sentiment_category, cut, sentiment_bins, classify_sentiment.
  rewrite (float_le_not_nan _ _ Hlo). cbn [orb searchsorted_left].
  rewrite (float_le_ne_lt (-1) x) by done.
  rewrite (float_le_not_lt x 1) by done.
  destruct (0.7 <=? x)%float eqn:E1.
  { rewrite (float_lt_le_lt (-0.7) 0.7 x), (float_lt_le_lt (-0.1) 0.7 x),
      (float_lt_le_lt 0.1 0.7 x), (float_le_ne_lt 0.7 x) by done.
    reflexivity. }
  rewrite (float_not_le_not_lt _ _ E1).
  destruct (0.1 <=? x)%float eqn:E2.
  { rewrite (float_lt_le_lt (-0.7) 0.1 x), (float_lt_le_lt (-0.1) 0.1 x),
      (float_le_ne_lt 0.1 x) by done.
    reflexivity. }
  rewrite (float_not_le_not_lt _ _ E2).
  destruct (-0.1 <=? x)%float eqn:E3.
  { rewrite (float_lt_le_lt (-0.7) (-0.1) x), (float_le_ne_lt (-0.1) x) by done.
    reflexivity. }
  rewrite (float_not_le_not_lt _ _ E3).
  destruct (-0.7 <=? x)%float eqn:E4.
  { rewrite (float_le_ne_lt (-0.7) x) by done. reflexivity. }
  rewrite (float_not_le_not_lt _ _ E4). reflexivity.
Qed.

(** C2: at every bin edge the category of [pd.cut] is not the one of
    [classify_sentiment]: the score 0.7 is positive for the one and
    very-positive for the other, and the score -1 has no category at all. *)
Theorem sentiment_category_differs_at_edges :
  Forall (λ edge, sentiment_category edge ≠ Some (classify_sentiment edge)) bin_edges
  ∧ sentiment_category 0.7 = Some "positive"
  ∧ classify_sentiment 0.7 = "very-positive"
  ∧ sentiment_category (-1) = None
  ∧ classify_sentiment (-1) = "very-negative".
Proof.
  split; [|repeat split; reflexivity].
  unfold bin_edges. repeat constructor; vm_compute; discriminate.
Qed.

(** ** The three-way grouping *)

(** C8: the grouping sends very-positive and positive to positive,
    very-negative and negative to negative, and keeps neutral and every
    other value. *)
Theorem sentiment_group_merge :
  sentiment_group (Some "very-positive") = "positive"
  ∧ sentiment_group (Some "positive") = "positive"
  ∧ sentiment_group (Some "very-negative") = "negative"
  ∧ sentiment_group (Some "negative") = "negative"
  ∧ sentiment_group (Some "neutral") = "neutral"
  ∧ ∀ label, label ≠ "very-positive" → label ≠ "very-negative" →
      sentiment_group (Some label) = label.
Proof.
  repeat split; try reflexivity.
  intros label Hp Hn. unfold sentiment_group, replace_very. cbn.
  destruct (String.eqb_spec label "very-positive"); [done|].
  destruct (String.eqb_spec label "very-negative"); done.
Qed.

(** ** Organization extraction *)

(** [split] cuts at the first separator and goes on in the rest. *)
Lemma split_unfold (c : ascii) (s : string) :
  split c s =
    before_first c s :: (if contains c s then split c (after_first c s) else []).
Proof.
  induction s as [|a s IH]; [reflexivity|].
  cbn. destruct (Ascii.eqb a c); [reflexivity|].
  rewrite IH. reflexivity.
Qed.

(** The piece before the first of two separators is not changed by cutting
    at the other one first, when the other does not come first. *)
Lemma before_first_before_first (c d : ascii) (s : string) :
  contains d (before_first c s) = false →
  before_first c (before_first d s) = before_first c s.
Proof.
  induction s as [|a s IH]; [reflexivity|].
  cbn. destruct (Ascii.eqb a c) eqn:Ec.
  - intros _. destruct (Ascii.eqb a d); cbn; [reflexivity|].
    rewrite Ec. reflexivity.
  - cbn. destruct (Ascii.eqb a d); [discriminate|].
    intros H. cbn. rewrite Ec, IH by exact H. reflexivity.
Qed.

(** What the function computes on a string with an [@]: of the text after
    the first [@], the part before the next [@] or [.], whichever comes
    first. *)
Lemma extract_organization_unfold (email : string) :
  contains "@" email = true →
  extract_organization_from_email email =
    Some (before_first "." (before_first "@" (after_first "@" email))).
Proof.
  intros Hat. unfold extract_organization_from_email. rewrite Hat. cbn [negb].
  rewrite (split_unfold "@" email), Hat. cbn [lookup list_lookup].
  rewrite (split_unfold "@" (after_first "@" email)). cbn.
  rewrite split_unfold. reflexivity.
Qed.

(** The function raises on no string. *)
Lemma extract_organization_total (email : string) :
  is_Some (extract_organization_from_email email).
Proof.
  destruct (contains "@" email) eqn:Hat.
  - rewrite extract_organization_unfold by exact Hat. eauto.
  - unfold extract_organization_from_email. rewrite Hat. eauto.
Qed.

(** C3, as stated: for a string with an [@] whose part after the [@] holds a
    [.], the result is that part up to its first [.]. A second [@] before
    that [.] refutes it: of [a@b@c.d] the function returns [b]. *)
Lemma extract_organization_second_at :
  ¬ (∀ email,
       contains "@" email = true →
       contains "." (after_first "@" email) = true →
       extract_organization_from_email email =
         Some (before_first "." (after_first "@" email))).
Proof.
  intros H. specialize (H "a@b@c.d" eq_refl eq_refl). discriminate H.
Qed.

(** C3, amended: for a string with an [@] whose part after the first [@]
    holds a [.] and no further [@] before its first [.], the result is that
    part up to its first [.]: for [user@domain.tld], [domain]. *)
Theorem extract_organization_of_email (email : string) :
  contains "@" email = true →
  contains "." (after_first "@" email) = true →
  contains "@" (before_first "." (after_first "@" email)) = false →
  extract_organization_from_email email =
    Some (before_first "." (after_first "@" email)).
Proof.
  intros Hat _ Hone. rewrite extract_organization_unfold by exact Hat.
  rewrite before_first_before_first by exact Hone. reflexivity.
Qed.

Lemma extract_organization_of_email_witness :
  (contains "@" "john@mail.example.com" = true
   ∧ contains "." (after_first "@" "john@mail.example.com") = true
   ∧ contains "@" (before_first "." (after_first "@" "john@mail.example.com")) = false)
  ∧ extract_organization_from_email "john@mail.example.com" = Some "mail".
Proof.
  split; [repeat split; reflexivity|].
  apply (extract_organization_of_email "john@mail.example.com"); reflexivity.
Defined.

(** A string put together from a part without [c], a [c] and a rest. *)
Lemma after_first_app (c : ascii) (u rest : string) :
  contains c u = false → after_first c (u ++ String c rest) = rest.
Proof.
  induction u as [|a u IH].
  - intros _. change (after_first c (String c rest) = rest).
    cbn [after_first]. rewrite Ascii.eqb_refl. reflexivity.
  - change (String a u ++ String c rest) with (String a (u ++ String c rest)).
    cbn [after_first contains].
    destruct (Ascii.eqb a c); [discriminate|]. exact IH.
Qed.

Lemma before_first_app (c : ascii) (u rest : string) :
  contains c u = false → before_first c (u ++ String c rest) = u.
Proof.
  induction u as [|a u IH].
  - intros _. change (before_first c (String c rest) = "").
    cbn [before_first]. rewrite Ascii.eqb_refl. reflexivity.
  - change (String a u ++ String c rest) with (String a (u ++ String c rest)).
    cbn [before_first contains].
    destruct (Ascii.eqb a c); [discriminate|]. intros H. rewrite IH; done.
Qed.

Lemma contains_app (c : ascii) (u rest : string) :
  contains c (u ++ String c rest) = true.
Proof.
  induction u as [|a u IH].
  - change (contains c (String c rest) = true).
    cbn [contains]. rewrite Ascii.eqb_refl. reflexivity.
  - change (String a u ++ String c rest) with (String a (u ++ String c rest)).
    cbn [contains]. destruct (Ascii.eqb a c); [reflexivity|]. exact IH.
Qed.

(** The same in the shape of an address: user, domain and suffix. *)
Lemma extract_organization_user_domain (user domain tld : string) :
  contains "@" user = false →
  contains "@" domain = false →
  contains "." domain = false →
  extract_organization_from_email (user ++ "@" ++ domain ++ "." ++ tld) = Some domain.
Proof.
  intros Hu Hd Hdot.
  change (user ++ "@" ++ domain ++ "." ++ tld)
    with (user ++ String "@" (domain ++ String "." tld)).
  rewrite extract_organization_unfold by apply contains_app.
  rewrite after_first_app by exact Hu.
  rewrite before_first_before_first; rewrite before_first_app by exact Hdot; done.
Qed.

(** C4: a string without an [@] is returned as it is, and nothing is
    raised. *)
Theorem extract_organization_without_at (email : string) :
  contains "@" email = false →
  extract_organization_from_email email = Some email.
Proof.
  intros Hat. unfold extract_organization_from_email. rewrite Hat. reflexivity.
Qed.

Lemma extract_organization_without_at_witness :
  contains "@" "Benzinga Newsdesk" = false
  ∧ extract_organization_from_email "Benzinga Newsdesk" = Some "Benzinga Newsdesk".
Proof.
  split; [reflexivity|].
  apply (extract_organization_without_at "Benzinga Newsdesk"); reflexivity.
Defined.

(** ** Sorting and counting *)

Lemma insert_sorted_perm {A} (lt : A → A → bool) (x : A) (l : list A) :
  insert_sorted lt x l ≡ₚ x :: l.
Proof.
  induction l as [|y l IH]; cbn; [done|].
  destruct (lt x y); [done|].
  rewrite IH. apply Permutation_swap.
Qed.

Lemma sorted_perm {A} (lt : A → A → bool) (l : list A) : sorted lt l ≡ₚ l.
Proof.
  unfold sorted.
  enough (H : ∀ acc, fold_left (λ acc x, insert_sorted lt x acc) l acc ≡ₚ l ++ acc)
    by (rewrite H, app_nil_r; done).
  induction l as [|x l IH]; intros acc; cbn; [done|].
  rewrite IH, insert_sorted_perm. symmetry. apply Permutation_middle.
Qed.

Lemma slice_to_subseteq {A} (n : Z) (l : list A) : slice_to n l ⊆ l.
Proof. unfold slice_to. destruct (n <? 0)%Z; apply subseteq_take. Qed.

Section CounterFacts.
Context {K : Type} (eqb : K → K → bool).

Lemma total_count_count_one (k : K) (c : list (K * nat)) :
  total_count (count_one eqb k c) = S (total_count c).
Proof.
  unfold total_count. induction c as [|[k' n] c IH]; cbn; [done|].
  destruct (eqb k k'); cbn; [done|]. rewrite IH. lia.
Qed.

Lemma total_count_fold (ws : list K) (c : list (K * nat)) :
  total_count (fold_left (λ c w, count_one eqb w c) ws c)
  = length ws + total_count c.
Proof.
  revert c. induction ws as [|w ws IH]; intros c; cbn [fold_left length]; [done|].
  rewrite IH, total_count_count_one. lia.
Qed.

(** A counter counts every item of its input once. *)
Lemma total_count_Counter (ws : list K) :
  total_count (Counter eqb ws) = length ws.
Proof. unfold Counter. rewrite total_count_fold. cbn. lia. Qed.

(** From here on [==] on the keys is equality, as it is on strings and on
    tuples of strings. *)
Hypothesis eqb_eq : ∀ x y, eqb x y = true ↔ x = y.

Lemma eqb_refl (k : K) : eqb k k = true.
Proof. apply eqb_eq. reflexivity. Qed.

Lemma count_of_count_one (k w : K) (c : list (K * nat)) :
  count_of eqb k (count_one eqb w c)
  = (if eqb k w then 1 else 0) + count_of eqb k c.
Proof.
  induction c as [|[k' n] c IH]; cbn.
  - destruct (eqb k w); reflexivity.
  - destruct (eqb w k') eqn:Ew; cbn.
    + apply eqb_eq in Ew as ->. destruct (eqb k k'); reflexivity.
    + destruct (eqb k k') eqn:Ek; [|exact IH].
      apply eqb_eq in Ek as ->.
      destruct (eqb k' w) eqn:Ew'; [|reflexivity].
      apply eqb_eq in Ew' as ->. rewrite eqb_refl in Ew. discriminate.
Qed.

Lemma count_of_fold (k : K) (ws : list K) (c : list (K * nat)) :
  count_of eqb k (fold_left (λ c w, count_one eqb w c) ws c)
  = length (filter (eqb k) ws) + count_of eqb k c.
Proof.
  revert c. induction ws as [|w ws IH]; intros c; cbn [fold_left]; [done|].
  rewrite IH, count_of_count_one, filter_cons.
  case_decide as Hkw; destruct (eqb k w); try done; cbn [length]; lia.
Qed.

Lemma keys_count_one (w : K) (c : list (K * nat)) :
  NoDup (map fst c) → NoDup (map fst (count_one eqb w c))
  ∧ ∀ k, k ∈ map fst (count_one eqb w c) → k = w ∨ k ∈ map fst c.
Proof.
  induction c as [|[k' n] c IH]; cbn.
  - intros _. split; [apply NoDup_singleton|].
    intros k Hk%list_elem_of_singleton. left. exact Hk.
  - intros [Hk' Hc]%NoDup_cons. destruct (eqb w k') eqn:Ew; cbn.
    + split; [apply NoDup_cons; done|]. intros k Hk. right. exact Hk.
    + destruct (IH Hc) as [Hnd Hsub]. split.
      * apply NoDup_cons. split; [|done].
        intros [->|Hin]%Hsub; [|done].
        rewrite eqb_refl in Ew. discriminate.
      * intros k [->|Hin]%elem_of_cons; [right; left|].
        destruct (Hsub k Hin) as [->|Hin']; [left; reflexivity|right; right; done].
Qed.

Lemma keys_fold (ws : list K) (c : list (K * nat)) :
  NoDup (map fst c) →
  NoDup (map fst (fold_left (λ c w, count_one eqb w c) ws c)).
Proof.
  revert c. induction ws as [|w ws IH]; intros c Hc; cbn; [done|].
  apply IH, keys_count_one, Hc.
Qed.

Lemma count_of_item (k : K) (n : nat) (c : list (K * nat)) :
  NoDup (map fst c) → (k, n) ∈ c → count_of eqb k c = n.
Proof.
  induction c as [|[k' n'] c IH]; cbn; [intros _ []%elem_of_nil|].
  intros [Hk' Hc]%NoDup_cons [Heq|Hin]%elem_of_cons.
  - injection Heq as -> ->. rewrite eqb_refl. reflexivity.
  - destruct (eqb k k') eqn:Ek; [|apply IH; done].
    apply eqb_eq in Ek as ->. destruct Hk'.
    apply list_elem_of_fmap. exists (k', n). done.
Qed.

(** The count a counter holds for a key is the number of items equal to
    it. *)
Lemma Counter_item (k : K) (n : nat) (ws : list K) :
  (k, n) ∈ Counter eqb ws → n = length (filter (eqb k) ws).
Proof.
  intros Hin. unfold Counter in *.
  rewrite <- (count_of_item k n _ (keys_fold ws [] (NoDup_nil_2)) Hin).
  rewrite count_of_fold. cbn. lia.
Qed.

End CounterFacts.

(** ** Word frequencies *)

Lemma all_tokens_concat `{PyStr} `{Nltk} (headlines : list string) (acc : list string) :
  fold_left (λ all_tokens headline,
               (all_tokens ++ get_tokens headline true true true)%list)
            headlines acc
  = (acc ++ concat (map (λ headline, get_tokens headline true true true) headlines))%list.
Proof.
  revert acc. induction headlines as [|h hs IH]; intros acc; cbn.
  - rewrite app_nil_r. reflexivity.
  - rewrite IH, <- app_assoc. reflexivity.
Qed.

(** C7: with [top_n = None] the counts of the returned pairs add up to the
    number of tokens that tokenizing all the headlines produces. *)
Theorem word_frequencies_total `{PyStr} `{Nltk} (headlines : list string) :
  total_count (get_word_frequencies headlines None)
  = length (concat (map (λ headline, get_tokens headline true true true) headlines)).
Proof.
  unfold get_word_frequencies, most_common, total_count.
  rewrite sorted_perm. fold (total_count (Counter String.eqb
    (fold_left (λ all_tokens headline,
                  (all_tokens ++ get_tokens headline true true true)%list)
               headlines []))).
  rewrite total_count_Counter, all_tokens_concat. reflexivity.
Qed.

(** ** Trigrams *)

Lemma trigram_eqb_eq (s t : trigram) : trigram_eqb s t = true ↔ s = t.
Proof.
  destruct s as [[s1 s2] s3], t as [[t1 t2] t3]. unfold trigram_eqb. cbn.
  rewrite !andb_true_iff, !String.eqb_eq. split.
  - intros [[-> ->] ->]. reflexivity.
  - intros [= -> -> ->]. done.
Qed.

Lemma complete_windows (ws : list string) :
  omap complete (ngrams_pad_right ws) = trigrams_of ws.
Proof.
  unfold ngrams_pad_right.
  induction ws as [|w1 ws IH]; [reflexivity|].
  destruct ws as [|w2 [|w3 ws]]; [reflexivity..|].
  change (omap complete (windows (map Some (w1 :: w2 :: w3 :: ws) ++ [None; None])))
    with ((w1, w2, w3)
          :: omap complete (windows (map Some (w2 :: w3 :: ws) ++ [None; None]))).
  rewrite IH. reflexivity.
Qed.

(** The trigram table of the finder is the counter of the trigrams of the
    stream. *)
Lemma from_words_Counter (words : list string) :
  from_words words = Counter trigram_eqb (trigrams_of words).
Proof.
  unfold from_words, Counter. rewrite <- complete_windows.
  generalize (@nil (trigram * nat)).
  induction (ngrams_pad_right words) as [|[[[w1|] [w2|]] [w3|]] l IH];
    intros tfd; cbn; done.
Qed.

Lemma filter_seq_succ (P : nat → bool) (start n : nat) :
  length (filter (λ i, P (S i)) (seq start n))
  = length (filter P (seq (S start) n)).
Proof.
  revert start. induction n as [|n IH]; intros start; [reflexivity|].
  cbn [seq]. rewrite !filter_cons.
  case_decide; cbn [length]; rewrite IH; reflexivity.
Qed.

Lemma occurrences_cons (t : trigram) (w : string) (ws : list string) :
  occurrences t (w :: ws)
  = (if bool_decide (take 3 (w :: ws) = [t.1.1; t.1.2; t.2]) then 1 else 0)
    + occurrences t ws.
Proof.
  unfold occurrences. cbn [length seq]. rewrite filter_cons.
  pose proof (filter_seq_succ
    (λ i, bool_decide (take 3 (drop i (w :: ws)) = [t.1.1; t.1.2; t.2]))
    0 (length ws)) as Hshift.
  cbn [drop] in *.
  case_decide as Hd; case_bool_decide; try done; cbn [length];
    rewrite <- Hshift; reflexivity.
Qed.

(** The trigrams of the stream equal to [t] are as many as the places where
    [t] occurs. *)
Lemma trigrams_of_occurrences (t : trigram) (ws : list string) :
  length (filter (trigram_eqb t) (trigrams_of ws)) = occurrences t ws.
Proof.
  induction ws as [|w1 ws IH]; [reflexivity|].
  rewrite occurrences_cons, <- IH. clear IH.
  destruct ws as [|w2 [|w3 ws]].
  - case_bool_decide; [discriminate|reflexivity].
  - case_bool_decide; [discriminate|reflexivity].
  - change (trigrams_of (w1 :: w2 :: w3 :: ws))
      with ((w1, w2, w3) :: trigrams_of (w2 :: w3 :: ws)).
    rewrite filter_cons.
    change (take 3 (w1 :: w2 :: w3 :: ws)) with [w1; w2; w3].
    destruct (trigram_eqb t (w1, w2, w3)) eqn:Et.
    + apply trigram_eqb_eq in Et as ->. cbn [fst snd].
      rewrite decide_True, bool_decide_eq_true_2 by done. reflexivity.
    + rewrite decide_False by (intros []).
      rewrite bool_decide_eq_false_2; [reflexivity|].
      destruct t as [[t1 t2] t3]. intros [= -> -> ->].
      rewrite (proj2 (trigram_eqb_eq _ _) eq_refl) in Et. discriminate.
Qed.

Lemma nbest_items `{AssocMeasure} (words : list string) (n : Z)
    (ngram_fd : list (trigram * nat)) (t : trigram) :
  t ∈ nbest words n ngram_fd → ∃ freq, (t, freq) ∈ ngram_fd.
Proof.
  unfold nbest, score_ngrams.
  intros [[t' score] [-> Hin]]%list_elem_of_fmap.
  apply slice_to_subseteq in Hin. rewrite sorted_perm in Hin.
  apply list_elem_of_omap in Hin as [[t'' freq] [Hin Hscore]].
  cbn in Hscore. destruct (pmi words t''); [|discriminate].
  injection Hscore as -> _. exists freq. exact Hin.
Qed.

(** C5: a trigram that [get_trigrams] returns occurs at least [freq_filter]
    times as three neighbouring words of the stream of all headlines, the
    corpus the trigrams are built from. *)
Theorem get_trigrams_frequent `{AssocMeasure} (headlines : list (list string))
    (freq_filter top_n : Z) :
  Forall (λ t, (freq_filter ≤ Z.of_nat (occurrences t (concat headlines)))%Z)
         (get_trigrams headlines freq_filter top_n).
Proof.
  apply Forall_forall. intros t Hin. unfold get_trigrams in Hin.
  apply nbest_items in Hin as [freq Hin].
  apply list_elem_of_filter in Hin as [Hfreq Hin]. cbn in Hfreq.
  rewrite from_words_Counter in Hin.
  apply (Counter_item _ trigram_eqb_eq) in Hin.
  rewrite trigrams_of_occurrences in Hin. subst freq.
  apply Is_true_true, negb_true_iff, Z.ltb_ge in Hfreq. exact Hfreq.
Qed.

(** On a sample corpus: the one trigram that occurs twice is returned for a
    floor of two. *)
Example get_trigrams_sample :
  @get_trigrams sample_measure
    [["fed"; "raises"; "rates"; "again"]; ["fed"; "raises"; "rates"]] 2 50
  = [("fed", "raises", "rates")]
  ∧ occurrences ("fed", "raises", "rates")
      (concat [["fed"; "raises"; "rates"; "again"]; ["fed"; "raises"; "rates"]]) = 2%nat.
Proof. split; vm_compute; reflexivity. Qed.

(** ** The columns of a table *)

Lemma get_col_absent (col : string) (f : frame) :
  col ∉ columns f → get_col col f = None.
Proof.
  induction f as [|[label values] f IH]; cbn; [reflexivity|].
  intros Hnot. apply not_elem_of_cons in Hnot as [Hne Hnot].
  destruct (String.eqb_spec label col) as [->|_]; [done|]. apply IH, Hnot.
Qed.

Lemma get_col_present (col : string) (f : frame) :
  col ∈ columns f → is_Some (get_col col f).
Proof.
  induction f as [|[label values] f IH]; cbn; [intros []%elem_of_nil|].
  intros [->|Hin]%elem_of_cons.
  - rewrite String.eqb_refl. eauto.
  - destruct (String.eqb label col); [eauto|apply IH, Hin].
Qed.

(** ** Loading stock files *)

Lemma missing_warnings_cons `{World} (ticker : string) (tickers : list string)
    (base_path : string) :
  missing_warnings (ticker :: tickers) base_path
  = ((if path_exists (stock_file base_path ticker) then []
      else [warning ticker (stock_file base_path ticker)])
     ++ missing_warnings tickers base_path)%list.
Proof.
  unfold missing_warnings. rewrite filter_cons.
  destruct (path_exists (stock_file base_path ticker)); reflexivity.
Qed.

(** The loop, from any dictionary and any output so far. *)
Lemma load_stock_loop_spec `{World} (tickers : list string) (base_path : string)
    (stock_data : gmap string frame) (out : list string) :
  (∀ ticker, ticker ∈ tickers →
     path_exists (stock_file base_path ticker) = true →
     is_Some (read_stock_csv (stock_file base_path ticker))) →
  ∃ stock_data',
    load_stock_loop tickers base_path stock_data out
    = (Some stock_data', (out ++ missing_warnings tickers base_path)%list)
    ∧ (∀ ticker, ticker ∈ dom stock_data' ↔
         ticker ∈ dom stock_data
         ∨ (ticker ∈ tickers ∧ path_exists (stock_file base_path ticker) = true))
    ∧ (∀ ticker df, stock_data' !! ticker = Some df →
         stock_data !! ticker = Some df
         ∨ read_stock_csv (stock_file base_path ticker) = Some df).
Proof.
  revert stock_data out.
  induction tickers as [|ticker tickers IH]; intros stock_data out Hload.
  - exists stock_data. cbn. rewrite app_nil_r.
    split; [reflexivity|]. split; [|auto].
    intros t. split; [auto|]. intros [Hin|[Hin _]]; [done|].
    by apply elem_of_nil in Hin.
  - rewrite missing_warnings_cons.
    cbn [load_stock_loop]. fold (stock_file base_path ticker).
    unfold mbind at 1, py_bind.
    destruct (path_exists (stock_file base_path ticker)) eqn:Hex.
    + destruct (Hload ticker) as [df Hdf]; [left|exact Hex|].
      unfold mbind, py_bind, lift, mret, py_ret. rewrite Hdf.
      destruct (IH (<[ticker:=df]> stock_data) out) as (sd' & Hrun & Hdom & Hval).
      { intros t Hin. apply Hload. right. exact Hin. }
      exists sd'. split; [exact Hrun|]. split.
      * intros t. rewrite Hdom, dom_insert, elem_of_union, elem_of_singleton,
          elem_of_cons.
        split.
        -- intros [[->|Hin]|[Hin Ht]]; auto.
        -- intros [Hin|[[->|Hin] Ht]]; auto.
      * intros t df' [Hin|Hread]%Hval; [|right; exact Hread].
        apply lookup_insert_Some in Hin as [[<- <-]|[_ Hin]]; auto.
    + unfold mbind, py_bind, print, mret, py_ret.
      destruct (IH stock_data (out ++ [warning ticker (stock_file base_path ticker)])%list)
        as (sd' & Hrun & Hdom & Hval).
      { intros t Hin. apply Hload. right. exact Hin. }
      exists sd'. rewrite app_assoc. split; [exact Hrun|]. split; [|exact Hval].
      intros t. rewrite Hdom, elem_of_cons. split.
      * intros [Hin|[Hin Ht]]; auto.
      * intros [Hin|[[->|Hin] Ht]]; auto. congruence.
Qed.

(** The path that [os.path.join] gives is the file of the ticker, for a
    ticker that does not start with a slash. *)
Lemma endswith_slash_ends_with (s : string) :
  endswith_slash s = ends_with "/" s.
Proof.
  unfold endswith_slash. induction s as [|a s IH]; [reflexivity|].
  destruct s as [|b s]; [reflexivity|].
  cbn [String.length Nat.sub String.get ends_with] in *.
  rewrite Nat.sub_0_r in *. exact IH.
Qed.

Lemma stock_file_csv_file (base_path ticker : string) :
  (∀ rest, ticker ≠ String "/" rest) →
  stock_file base_path ticker = csv_file base_path ticker.
Proof.
  intros Hslash. unfold stock_file, csv_file, path_join.
  rewrite endswith_slash_ends_with.
  destruct ticker as [|a ticker]; [reflexivity|].
  change (String a ticker ++ ".csv") with (String a (ticker ++ ".csv")).
  destruct (Ascii.eqb_spec a "/") as [->|Hne]; [destruct (Hslash ticker); reflexivity|].
  destruct a as [[] [] [] [] [] [] [] []]; try reflexivity. destruct Hne. reflexivity.
Qed.

Lemma read_stock_csv_readable `{World} (file_path : string) :
  is_Some (read_stock_csv file_path) ↔ readable file_path.
Proof.
  unfold read_stock_csv, readable.
  destruct (read_csv file_path) as [raw|]; cbn;
    [|split; [intros [? [=]]|intros (? & [=] & _)]].
  case_bool_decide as Hdate.
  - destruct (get_col_present "Date" raw Hdate) as [dates Hdates].
    rewrite Hdates. cbn. split.
    + intros Hsome. exists raw. split; [reflexivity|].
      intros dates' Hdates'. rewrite Hdates in Hdates'. injection Hdates' as <-.
      destruct (to_datetime dates); [eauto|destruct Hsome as [? [=]]].
    + intros (raw' & Hraw & Hparse). injection Hraw as <-.
      destruct (Hparse dates Hdates) as [parsed ->]. cbn. eauto.
  - split; [|eauto]. intros _. exists raw. split; [reflexivity|].
    intros dates Hdates. rewrite (get_col_absent "Date" raw Hdate) in Hdates.
    discriminate.
Qed.

Lemma missing_warnings_lines `{World} (tickers : list string) (base_path : string) :
  (∀ ticker rest, ticker ∈ tickers → ticker ≠ String "/" rest) →
  missing_warnings tickers base_path = file_not_found_lines tickers base_path.
Proof.
  induction tickers as [|ticker tickers IH]; intros Hslash; [reflexivity|].
  rewrite missing_warnings_cons, IH
    by (intros t rest Hin; apply Hslash; right; exact Hin).
  rewrite (stock_file_csv_file base_path ticker) by (intros rest; apply Hslash; left).
  unfold file_not_found_lines, missing_tickers. rewrite filter_cons.
  destruct (path_exists (csv_file base_path ticker)); reflexivity.
Qed.

(** C6, as stated for every list of tickers: a ticker whose file exists and
    cannot be parsed refutes it. With the tickers BAD, whose file is
    unreadable, and MSFT, which has no file, the call raises: no dictionary
    is returned and no warning is printed. *)
Lemma load_stock_data_unreadable_file :
  ¬ @missing_files_only_warn unreadable_world ["BAD"; "MSFT"] "../data/stock_data/".
Proof.
  intros (stock_data & out & Hrun & _). vm_compute in Hrun. discriminate.
Qed.

(** C6, amended: when every file that exists can be read, and no ticker
    starts with a slash, [load_stock_data] raises no error and returns a
    dictionary whose keys are exactly the tickers whose file exists; the file
    of a ticker is [<base_path>/<ticker>.csv], and standard output gains
    the line [Warning: File not found for <ticker>: <file>] for each ticker
    without a file, in the order of the tickers, and nothing else. *)
Theorem load_stock_data_missing_files `{World} (tickers : list string)
    (base_path : string) (out : list string) :
  (∀ ticker rest, ticker ∈ tickers → ticker ≠ String "/" rest) →
  (∀ ticker, ticker ∈ tickers →
     path_exists (csv_file base_path ticker) = true →
     readable (csv_file base_path ticker)) →
  ∃ stock_data,
    load_stock_data tickers base_path out
    = (Some stock_data, (out ++ file_not_found_lines tickers base_path)%list)
    ∧ (∀ ticker, ticker ∈ dom stock_data ↔
         ticker ∈ tickers ∧ path_exists (csv_file base_path ticker) = true)
    ∧ (∀ ticker, ticker ∈ missing_tickers tickers base_path →
         file_not_found ticker (csv_file base_path ticker)
           ∈ file_not_found_lines tickers base_path
         ∧ ticker ∉ dom stock_data).
Proof.
  intros Hslash Hread. unfold load_stock_data.
  destruct (load_stock_loop_spec tickers base_path ∅ out) as (sd & Hrun & Hdom & _).
  { intros ticker Hin. rewrite (stock_file_csv_file base_path ticker)
      by (intros rest; apply Hslash, Hin).
    intros Hex. apply read_stock_csv_readable, Hread; assumption. }
  rewrite (missing_warnings_lines _ _ Hslash) in Hrun.
  assert (Hkeys : ∀ ticker, ticker ∈ dom sd ↔
            ticker ∈ tickers ∧ path_exists (csv_file base_path ticker) = true).
  { intros t. rewrite Hdom, dom_empty, elem_of_empty. split.
    - intros [[]|[Hin Hex]]. split; [exact Hin|].
      rewrite <- (stock_file_csv_file base_path t)
        by (intros rest; apply Hslash, Hin). exact Hex.
    - intros [Hin Hex]. right. split; [exact Hin|].
      rewrite (stock_file_csv_file base_path t)
        by (intros rest; apply Hslash, Hin). exact Hex. }
  exists sd. split; [exact Hrun|]. split; [exact Hkeys|].
  intros ticker Hmissing. split.
  - unfold file_not_found_lines. apply list_elem_of_fmap.
    exists ticker. split; [reflexivity|exact Hmissing].
  - apply list_elem_of_filter in Hmissing as [Hex _].
    intros [_ Hex']%Hkeys. congruence.
Qed.

Lemma load_stock_data_missing_files_witness :
  ((∀ ticker rest, ticker ∈ ["AAPL"; "MSFT"] → ticker ≠ String "/" rest)
   ∧ (∀ ticker, ticker ∈ ["AAPL"; "MSFT"] →
        @path_exists sample_world (csv_file "../data/stock_data/" ticker) = true →
        @readable sample_world (csv_file "../data/stock_data/" ticker)))
  ∧ ∃ stock_data,
      @load_stock_data sample_world ["AAPL"; "MSFT"] "../data/stock_data/" []
      = (Some stock_data,
         ([] ++ @file_not_found_lines sample_world ["AAPL"; "MSFT"]
                  "../data/stock_data/")%list)
      ∧ (∀ ticker, ticker ∈ dom stock_data ↔
           ticker ∈ ["AAPL"; "MSFT"]
           ∧ @path_exists sample_world (csv_file "../data/stock_data/" ticker) = true)
      ∧ (∀ ticker,
           ticker ∈ @missing_tickers sample_world ["AAPL"; "MSFT"] "../data/stock_data/" →
           file_not_found ticker (csv_file "../data/stock_data/" ticker)
             ∈ @file_not_found_lines sample_world ["AAPL"; "MSFT"] "../data/stock_data/"
           ∧ ticker ∉ dom stock_data).
Proof.
  assert (Hslash : ∀ ticker rest, ticker ∈ ["AAPL"; "MSFT"] → ticker ≠ String "/" rest).
  { intros ticker rest Hin.
    repeat (apply elem_of_cons in Hin as [->|Hin]); [discriminate..|].
    by apply elem_of_nil in Hin. }
  assert (Hread : ∀ ticker, ticker ∈ ["AAPL"; "MSFT"] →
     @path_exists sample_world (csv_file "../data/stock_data/" ticker) = true →
     @readable sample_world (csv_file "../data/stock_data/" ticker)).
  { intros ticker _ _. eexists. split; [reflexivity|]. intros dates _. eexists. reflexivity. }
  split; [split; [exact Hslash|exact Hread]|].
  exact (@load_stock_data_missing_files sample_world ["AAPL"; "MSFT"]
           "../data/stock_data/" [] Hslash Hread).
Defined.

(** On the sample files: AAPL is loaded, MSFT is warned about. *)
Example load_stock_data_sample :
  (@load_stock_data sample_world ["AAPL"; "MSFT"] "../data/stock_data/" []).2
  = ["Warning: File not found for MSFT: ../data/stock_data/MSFT.csv"]
  ∧ (map_to_list <$>
       (@load_stock_data sample_world ["AAPL"; "MSFT"] "../data/stock_data/" []).1)
    = Some [("AAPL", [("Date", [Str "2020-01-02"]); ("Close", [Num 75])])].
Proof. split; vm_compute; reflexivity. Qed.


(** ** Table objects: what a computation may touch *)

Lemma bind_run {S A B} (m : py S A) (k : A → py S B) (s s' : S) (a : A) :
  m s = (Some a, s') → (m ≫= k) s = k a s'.
Proof. intros Hm. unfold mbind, py_bind. rewrite Hm. reflexivity. Qed.

Lemma bind_raise {S A B} (m : py S A) (k : A → py S B) (s s' : S) :
  m s = (None, s') → (m ≫= k) s = (None, s').
Proof. intros Hm. unfold mbind, py_bind. rewrite Hm. reflexivity. Qed.

Lemma writes_only_bind {A B} (l : loc) (m : py heap A) (k : A → py heap B) :
  writes_only l m → (∀ a, writes_only l (k a)) → writes_only l (m ≫= k).
Proof.
  intros Hm Hk h. destruct (Hm h) as [Hm1 Hm2].
  destruct (m h) as [[a|] h1] eqn:Hrun.
  - rewrite (bind_run _ _ _ _ _ Hrun). destruct (Hk a h1) as [Hk1 Hk2].
    cbn [snd] in *. split.
    + intros k' Hne. rewrite Hk1, Hm1; done.
    + intros Hl. apply Hk2, Hm2, Hl.
  - rewrite (bind_raise _ _ _ _ Hrun). split; assumption.
Qed.

Lemma writes_only_ret {A} (l : loc) (a : A) : writes_only l (mret a).
Proof. intros h. split; auto. Qed.

Lemma writes_only_lift {A} (l : loc) (o : option A) : writes_only l (lift o).
Proof. intros h. split; auto. Qed.

Lemma writes_only_df_read (l df : loc) : writes_only l (df_read df).
Proof. intros h. split; auto. Qed.

Lemma writes_only_getitem (l df : loc) (col : string) :
  writes_only l (getitem df col).
Proof.
  apply writes_only_bind; [apply writes_only_df_read|].
  intros f. apply writes_only_lift.
Qed.

Lemma writes_only_setitem (l : loc) (col : string) (values : list cell) :
  writes_only l (setitem l col values).
Proof.
  intros h. unfold setitem. destruct (h !! l) as [f|] eqn:Hl; cbn [snd].
  - split.
    + intros k Hne. rewrite lookup_insert_ne; done.
    + intros _. rewrite lookup_insert_eq. eauto.
  - split; [auto|]. intros [? ?]. congruence.
Qed.

Lemma writes_only_loc_setitem (l : loc) (mask : list bool) (col : string)
    (values : list cell) :
  writes_only l (loc_setitem l mask col values).
Proof.
  apply writes_only_bind; [apply writes_only_df_read|].
  intros f. apply writes_only_setitem.
Qed.

Lemma returns_bind {A} (l : loc) (m : py heap A) (k : A → py heap loc) :
  (∀ a, returns l (k a)) → returns l (m ≫= k).
Proof.
  intros Hk h r. destruct (m h) as [[a|] h1] eqn:Hrun.
  - rewrite (bind_run _ _ _ _ _ Hrun). apply Hk.
  - rewrite (bind_raise _ _ _ _ Hrun). discriminate.
Qed.

Lemma returns_ret (l : loc) : returns l (mret l).
Proof. intros h r [= <-]. reflexivity. Qed.

Lemma df_copy_run (h : heap) (df : loc) (f : frame) :
  h !! df = Some f →
  df_copy df h = (Some (fresh (dom h)), <[fresh (dom h):=f]> h).
Proof.
  intros Hdf. unfold df_copy, df_read.
  rewrite (bind_run _ _ h h f) by (rewrite Hdf; reflexivity).
  reflexivity.
Qed.

Lemma fresh_loc_unused (h : heap) : h !! fresh (dom h) = None.
Proof. apply not_elem_of_dom, is_fresh. Qed.

(** Copy first, then work on the copy: the tables that were there stay as
    they were, and the result is the copy. *)
Lemma copy_then_write (df : loc) (body : loc → py heap loc) (h : heap) :
  (∀ l, writes_only l (body l)) → (∀ l, returns l (body l)) →
  keeps_tables (df_copy df ≫= body) h
  ∧ returns_new_table (df_copy df ≫= body) h.
Proof.
  intros Hwrites Hreturns. unfold keeps_tables, returns_new_table.
  destruct (h !! df) as [f|] eqn:Hdf.
  - rewrite (bind_run _ _ _ _ _ (df_copy_run h df f Hdf)).
    set (l := fresh (dom h)).
    destruct (Hwrites l (<[l:=f]> h)) as [Hother Hself].
    pose proof (fresh_loc_unused h) as Hfresh. fold l in Hfresh.
    split.
    + intros k g Hk. rewrite Hother by congruence.
      rewrite lookup_insert_ne by congruence. exact Hk.
    + intros r Hr. apply Hreturns in Hr as ->. split; [exact Hfresh|].
      apply Hself. rewrite lookup_insert_eq. eauto.
  - assert (Hrun : df_copy df h = (None, h)).
    { unfold df_copy. apply bind_raise. unfold df_read. rewrite Hdf. reflexivity. }
    rewrite (bind_raise _ _ _ _ Hrun). split.
    + intros k g Hk. exact Hk.
    + intros r Hr. discriminate.
Qed.

Ltac writes_only_steps :=
  repeat first
    [ apply writes_only_ret
    | apply writes_only_lift
    | apply writes_only_getitem
    | apply writes_only_setitem
    | apply writes_only_loc_setitem
    | apply writes_only_bind; [|intros ?] ].

Ltac returns_steps :=
  repeat first [ apply returns_ret | apply returns_bind; intros ? ].

(** ** Running the table operations *)

Lemma get_col_set_col (col : string) (values : list cell) (f : frame) :
  get_col col (set_col col values f) = Some values.
Proof.
  induction f as [|[label old] f IH]; cbn.
  - rewrite String.eqb_refl. reflexivity.
  - destruct (String.eqb label col) eqn:E; cbn; rewrite E; [reflexivity|exact IH].
Qed.

Lemma get_col_length (col : string) (values : list cell) (f : frame) :
  rectangular f → get_col col f = Some values → length values = nrows f.
Proof.
  unfold rectangular. generalize (nrows f). intros n Hrect.
  induction Hrect as [|[label old] f Hlen _ IH]; cbn; [discriminate|].
  destruct (String.eqb label col); [|exact IH].
  intros [= <-]. exact Hlen.
Qed.

Lemma getitem_run (h : heap) (df : loc) (f : frame) (col : string)
    (values : list cell) :
  h !! df = Some f → get_col col f = Some values →
  getitem df col h = (Some values, h).
Proof.
  intros Hdf Hcol. unfold getitem.
  rewrite (bind_run _ _ h h f) by (unfold df_read; rewrite Hdf; reflexivity).
  unfold lift. rewrite Hcol. reflexivity.
Qed.

Lemma setitem_run (h : heap) (df : loc) (f : frame) (col : string)
    (values : list cell) :
  h !! df = Some f →
  setitem df col values h = (Some (), <[df:=set_col col values f]> h).
Proof. intros Hdf. unfold setitem. rewrite Hdf. reflexivity. Qed.

Lemma loc_setitem_run (h : heap) (df : loc) (f : frame) (mask : list bool)
    (col : string) (values : list cell) :
  h !! df = Some f →
  loc_setitem df mask col values h
  = (Some (),
     <[df:=set_col col
             (assign_masked mask values
                (default (replicate (nrows f) NA) (get_col col f))) f]> h).
Proof.
  intros Hdf. unfold loc_setitem.
  rewrite (bind_run _ _ h h f) by (unfold df_read; rewrite Hdf; reflexivity).
  apply setitem_run, Hdf.
Qed.

(** ** The organization column *)

(** The organizations extracted for the entries with an [@], written into a
    column of missing values, give the organization of every entry. *)
Lemma organizations_assigned (publishers : list cell) :
  ∃ organizations,
    apply extract_organization_cell
      (select_masked (map str_contains_at publishers) publishers)
    = Some organizations
    ∧ assign_masked (map str_contains_at publishers) organizations
        (replicate (length publishers) NA)
      = map organization_of publishers.
Proof.
  unfold apply.
  induction publishers as [|p publishers (orgs & Happly & Hassign)];
    [exists []; done|].
  destruct p as [s| | |]; try (exists orgs; cbn; rewrite Hassign; done).
  cbn [map str_contains_at select_masked length replicate organization_of].
  destruct (contains "@" s) eqn:Hat; [|exists orgs; cbn; rewrite Hassign; done].
  destruct (extract_organization_total s) as [org Horg].
  exists (Str org :: orgs). cbn. rewrite Horg. cbn.
  rewrite Happly. cbn. rewrite Hassign. done.
Qed.

(** A column with a string has the [str] accessor. *)
Lemma str_accessor_string (values : list cell) (s : string) :
  Str s ∈ values → str_accessor values = Some ().
Proof.
  intros Hin. unfold str_accessor.
  assert (Hstr : existsb is_str values = true).
  { apply existsb_exists. exists (Str s). split; [|reflexivity].
    apply list_elem_of_In, Hin. }
  rewrite Hstr. reflexivity.
Qed.

Lemma add_organization_column_run (h : heap) (df : loc) (f : frame)
    (publishers : list cell) :
  h !! df = Some f → rectangular f →
  get_col "publisher" f = Some publishers →
  str_accessor publishers = Some () →
  "organization" ∉ columns f →
  add_organization_column df "publisher" "organization" h
  = (Some (fresh (dom h)),
     <[fresh (dom h):=set_col "organization" (map organization_of publishers) f]> h).
Proof.
  intros Hdf Hrect Hpub Hstr Horg. unfold add_organization_column.
  rewrite (bind_run _ _ _ _ _ (df_copy_run h df f Hdf)).
  set (l := fresh (dom h)). set (h1 := <[l:=f]> h).
  assert (Hl : h1 !! l = Some f) by apply lookup_insert_eq.
  rewrite (bind_run _ _ _ _ _ (getitem_run h1 l f _ _ Hl Hpub)).
  rewrite (bind_run _ _ h1 h1 ()) by (unfold lift; rewrite Hstr; reflexivity).
  destruct (organizations_assigned publishers) as (orgs & Happly & Hassign).
  rewrite (bind_run _ _ h1 h1 orgs) by (unfold lift; rewrite Happly; done).
  rewrite (bind_run _ _ _ _ _ (loc_setitem_run h1 l f _ _ _ Hl)).
  rewrite (get_col_absent _ _ Horg). cbn [default].
  rewrite <- (get_col_length _ _ _ Hrect Hpub), Hassign.
  unfold h1. rewrite insert_insert_eq. reflexivity.
Qed.

Lemma add_organization_column_no_accessor (h : heap) (df : loc) (f : frame)
    (publisher_column organization_column : string) (publishers : list cell) :
  h !! df = Some f → get_col publisher_column f = Some publishers →
  str_accessor publishers = None →
  (add_organization_column df publisher_column organization_column h).1 = None.
Proof.
  intros Hdf Hpub Hstr. unfold add_organization_column.
  rewrite (bind_run _ _ _ _ _ (df_copy_run h df f Hdf)).
  erewrite bind_run by (eapply getitem_run; [apply lookup_insert_eq|exact Hpub]).
  erewrite bind_raise; [reflexivity|]. unfold lift. rewrite Hstr. reflexivity.
Qed.

(** ** The rows of a count *)

Section CounterItems.
Context {K : Type} (eqb : K → K → bool).
Hypothesis eqb_eq : ∀ x y, eqb x y = true ↔ x = y.

Lemma count_of_positive_item (k : K) (c : list (K * nat)) :
  0 < count_of eqb k c → (k, count_of eqb k c) ∈ c.
Proof.
  induction c as [|[k' n] c IH]; cbn; [lia|].
  destruct (eqb k k') eqn:Ek.
  - apply eqb_eq in Ek as ->. intros _. left.
  - intros Hpos. right. apply IH, Hpos.
Qed.

Lemma counts_positive_count_one (w : K) (c : list (K * nat)) :
  Forall (λ item, 0 < item.2) c → Forall (λ item, 0 < item.2) (count_one eqb w c).
Proof.
  induction 1 as [|[k' n] c Hn Hc IH]; cbn.
  - repeat constructor.
  - destruct (eqb w k'); constructor; cbn in *; (lia || done).
Qed.

Lemma counts_positive_fold (ws : list K) (c : list (K * nat)) :
  Forall (λ item, 0 < item.2) c →
  Forall (λ item, 0 < item.2) (fold_left (λ c w, count_one eqb w c) ws c).
Proof.
  revert c. induction ws as [|w ws IH]; intros c Hc; cbn; [done|].
  apply IH, counts_positive_count_one, Hc.
Qed.

(** The items of a counter are the keys that occur, each with the number
    of its occurrences. *)
Lemma Counter_items (k : K) (n : nat) (ws : list K) :
  (k, n) ∈ Counter eqb ws ↔ n = length (filter (eqb k) ws) ∧ 0 < n.
Proof.
  split.
  - intros Hin. split; [apply (Counter_item eqb eqb_eq), Hin|].
    pose proof (counts_positive_fold ws [] (Forall_nil_2 _)) as Hpos.
    rewrite Forall_forall in Hpos. apply (Hpos (k, n)), Hin.
  - intros [-> Hpos].
    assert (Hcount : count_of eqb k (Counter eqb ws) = length (filter (eqb k) ws)).
    { unfold Counter. rewrite (count_of_fold eqb eqb_eq). cbn. lia. }
    rewrite <- Hcount in *. apply count_of_positive_item, Hpos.
Qed.

End CounterItems.

Lemma organization_column_notna (publishers : list cell) :
  filter (λ c, negb (isna c)) (map organization_of publishers)
  = map Str (organizations publishers).
Proof.
  unfold organizations.
  induction publishers as [|p publishers IH]; [reflexivity|].
  cbn [map omap list_omap]. rewrite filter_cons.
  destruct p as [s| | |]; cbn; try exact IH.
  destruct (contains "@" s); [|exact IH].
  destruct (extract_organization_from_email s); cbn; [|exact IH].
  rewrite IH. reflexivity.
Qed.

Lemma organizations_count (org : string) (publishers : list cell) :
  length (filter (String.eqb org) (organizations publishers))
  = email_entries org publishers.
Proof.
  unfold organizations, email_entries.
  induction publishers as [|p publishers IH]; [reflexivity|].
  cbn [omap list_omap]. rewrite (filter_cons (email_of org)).
  destruct p as [s| | |]; cbn [email_of];
    try (rewrite decide_False by (intros []); exact IH).
  destruct (contains "@" s); cbn [andb];
    [|rewrite decide_False by (intros []); exact IH].
  destruct (extract_organization_from_email s) as [org'|].
  - rewrite filter_cons. destruct (String.eqb_spec org org') as [->|Hne].
    + rewrite decide_True by exact I.
      rewrite bool_decide_eq_true_2, decide_True by done.
      cbn [length]. rewrite IH. reflexivity.
    + rewrite decide_False by (intros []).
      rewrite bool_decide_eq_false_2, decide_False; [exact IH|intros []|congruence].
  - rewrite bool_decide_eq_false_2, decide_False; [exact IH|intros []|discriminate].
Qed.

Lemma Counter_Str (organizations : list string) :
  Counter cell_eqb (map Str organizations)
  = map (λ item, (Str item.1, item.2)) (Counter String.eqb organizations).
Proof.
  unfold Counter.
  change (@nil (cell * nat)) with (map (λ item : string * nat, (Str item.1, item.2)) []).
  generalize (@nil (string * nat)).
  induction organizations as [|w ws IH]; intros c; [reflexivity|].
  cbn [map fold_left]. rewrite <- IH. f_equal.
  induction c as [|[k n] c IHc]; [reflexivity|].
  cbn. destruct (String.eqb w k); cbn; [reflexivity|]. rewrite IHc. reflexivity.
Qed.

(** The rows of the counts of an organization column computed on demand:
    one row for each organization extracted from at least one entry with an
    [@], with the number of those entries. *)
Lemma value_counts_organizations (publishers : list cell) (label : cell) (n : nat) :
  (label, n) ∈ value_counts (map organization_of publishers)
  ↔ ∃ org, label = Str org ∧ n = email_entries org publishers ∧ 0 < n.
Proof.
  unfold value_counts, most_common.
  rewrite sorted_perm, organization_column_notna, Counter_Str, list_elem_of_fmap.
  split.
  - intros [[org n'] [[= -> ->] Hin]]. exists org.
    apply (Counter_items _ String.eqb_eq) in Hin as [-> Hpos].
    rewrite organizations_count in *. done.
  - intros (org & -> & -> & Hpos). exists (org, email_entries org publishers).
    split; [reflexivity|].
    apply (Counter_items _ String.eqb_eq). rewrite organizations_count. done.
Qed.

(** ** Organization counts computed on demand *)

Lemma get_organization_counts_run (h : heap) (df : loc) (f : frame)
    (publishers : list cell) :
  h !! df = Some f → rectangular f →
  get_col "publisher" f = Some publishers →
  str_accessor publishers = Some () →
  "organization" ∉ columns f →
  let rows := value_counts (map organization_of publishers) in
  let h1 := <[fresh (dom h):=set_col "organization" (map organization_of publishers) f]> h in
  get_organization_counts df "organization" h
  = (Some (fresh (dom h1)),
     <[fresh (dom h1):=[("organization", map fst rows);
                        ("count", map (λ item, Int (Z.of_nat item.2)) rows)]]> h1).
Proof.
  intros Hdf Hrect Hpub Hstr Horg rows h1. unfold get_organization_counts.
  rewrite (bind_run _ _ h h f) by (unfold df_read; rewrite Hdf; reflexivity).
  rewrite bool_decide_eq_false_2 by exact Horg.
  rewrite (bind_run _ _ _ _ _
             (add_organization_column_run h df f _ Hdf Hrect Hpub Hstr Horg)).
  fold h1.
  rewrite (bind_run _ _ h1 h1 (map organization_of publishers)).
  - reflexivity.
  - eapply getitem_run; [apply lookup_insert_eq|apply get_col_set_col].
Qed.

(** C10: when the organization column is computed on demand, an entry
    without an [@] is counted in no row of the table returned. The rows are
    the organizations extracted from the entries with an [@], each with the
    number of those entries: a publisher without an [@] is absent from the
    counts, and where its name is also the organization of entries with an
    [@], the row of that name counts those entries alone, not the publisher.
    The call does return when the publisher column holds a string. *)
Theorem organization_counts_on_demand (h : heap) (df : loc) (f : frame)
    (publishers : list cell) :
  h !! df = Some f → rectangular f →
  get_col "publisher" f = Some publishers →
  "organization" ∉ columns f →
  (∀ s, Str s ∈ publishers →
     is_Some (get_organization_counts df "organization" h).1)
  ∧ ∀ res h',
      get_organization_counts df "organization" h = (Some res, h') →
      ∃ rows,
        h' !! res = Some [("organization", map fst rows);
                          ("count", map (λ item, Int (Z.of_nat item.2)) rows)]
        ∧ (∀ label n, (label, n) ∈ rows ↔
             ∃ org, label = Str org ∧ n = email_entries org publishers ∧ 0 < n)
        ∧ (∀ p, Str p ∈ publishers → contains "@" p = false →
             email_entries p publishers = 0 → Str p ∉ map fst rows)
        ∧ (∀ p n, Str p ∈ publishers → contains "@" p = false →
             (Str p, n) ∈ rows → n = email_entries p publishers).
Proof.
  intros Hdf Hrect Hpub Horg. split.
  - intros s Hstr%str_accessor_string.
    rewrite (get_organization_counts_run h df f publishers) by assumption.
    cbn. eauto.
  - intros res h' Hrun.
    destruct (str_accessor publishers) as [[]|] eqn:Hstr.
    2:{ pose proof (add_organization_column_no_accessor h df f "publisher"
                      "organization" publishers Hdf Hpub Hstr) as Hnone.
        unfold get_organization_counts in Hrun.
        rewrite (bind_run _ _ h h f) in Hrun
          by (unfold df_read; rewrite Hdf; reflexivity).
        rewrite bool_decide_eq_false_2 in Hrun by exact Horg.
        destruct (add_organization_column df "publisher" "organization" h)
          as [r h1] eqn:Hadd.
        cbn in Hnone. subst r. rewrite (bind_raise _ _ _ _ Hadd) in Hrun.
        discriminate. }
    rewrite (get_organization_counts_run h df f publishers) in Hrun by assumption.
    injection Hrun as <- <-.
    exists (value_counts (map organization_of publishers)).
    split; [apply lookup_insert_eq|].
    split; [apply value_counts_organizations|]. split.
    + intros p _ _ Hzero [[label n] [Hlabel Hin]]%list_elem_of_fmap.
      cbn in Hlabel. subst label.
      apply value_counts_organizations in Hin as (org & [= <-] & -> & Hpos). lia.
    + intros p n _ _ Hin.
      apply value_counts_organizations in Hin as (org & [= <-] & -> & _). reflexivity.
Qed.

Lemma organization_counts_on_demand_witness :
  (sample_heap !! 1%positive = Some sample_news
   ∧ rectangular sample_news
   ∧ get_col "publisher" sample_news = Some [Str "benzinga"; Str "a@benzinga.com"]
   ∧ "organization" ∉ columns sample_news)
  ∧ (∀ s, Str s ∈ [Str "benzinga"; Str "a@benzinga.com"] →
       is_Some (get_organization_counts 1%positive "organization" sample_heap).1)
  ∧ ∀ res h',
      get_organization_counts 1%positive "organization" sample_heap = (Some res, h') →
      ∃ rows,
        h' !! res = Some [("organization", map fst rows);
                          ("count", map (λ item, Int (Z.of_nat item.2)) rows)]
        ∧ (∀ label n, (label, n) ∈ rows ↔
             ∃ org, label = Str org
                    ∧ n = email_entries org [Str "benzinga"; Str "a@benzinga.com"]
                    ∧ 0 < n)
        ∧ (∀ p, Str p ∈ [Str "benzinga"; Str "a@benzinga.com"] →
             contains "@" p = false →
             email_entries p [Str "benzinga"; Str "a@benzinga.com"] = 0 →
             Str p ∉ map fst rows)
        ∧ (∀ p n, Str p ∈ [Str "benzinga"; Str "a@benzinga.com"] →
             contains "@" p = false →
             (Str p, n) ∈ rows →
             n = email_entries p [Str "benzinga"; Str "a@benzinga.com"]).
Proof.
  assert (Hrect : rectangular sample_news) by (repeat constructor).
  assert (Horg : "organization" ∉ columns sample_news).
  { apply (bool_decide_unpack _). vm_compute. exact I. }
  split; [done|].
  exact (organization_counts_on_demand sample_heap 1%positive sample_news
           [Str "benzinga"; Str "a@benzinga.com"] eq_refl Hrect eq_refl Horg).
Defined.

(** On the sample table the publisher [benzinga] has no [@] and is not
    counted: the one row, [benzinga], counts the entry [a@benzinga.com]. *)
Example organization_counts_sample :
  (get_organization_counts 1%positive "organization" sample_heap).2 !! 3%positive
  = Some [("organization", [Str "benzinga"]); ("count", [Int 1])].
Proof. vm_compute. reflexivity. Qed.

(** ** The three functions return on a table that has the columns *)

Lemma add_organization_column_returns (h : heap) (df : loc) (f : frame)
    (publisher_column organization_column : string) (publishers : list cell) :
  h !! df = Some f → get_col publisher_column f = Some publishers →
  str_accessor publishers = Some () →
  (add_organization_column df publisher_column organization_column h).1
  = Some (fresh (dom h)).
Proof.
  intros Hdf Hpub Hstr. unfold add_organization_column.
  rewrite (bind_run _ _ _ _ _ (df_copy_run h df f Hdf)).
  set (l := fresh (dom h)). set (h1 := <[l:=f]> h).
  assert (Hl : h1 !! l = Some f) by apply lookup_insert_eq.
  rewrite (bind_run _ _ _ _ _ (getitem_run h1 l f _ _ Hl Hpub)).
  rewrite (bind_run _ _ h1 h1 ()) by (unfold lift; rewrite Hstr; reflexivity).
  destruct (organizations_assigned publishers) as (orgs & Happly & _).
  rewrite (bind_run _ _ h1 h1 orgs) by (unfold lift; rewrite Happly; done).
  rewrite (bind_run _ _ _ _ _ (loc_setitem_run h1 l f _ _ _ Hl)).
  reflexivity.
Qed.

Lemma apply_total (fn : cell → option cell) (g : cell → cell) (values : list cell) :
  Forall (λ c, fn c = Some (g c)) values → apply fn values = Some (map g values).
Proof.
  unfold apply. induction 1 as [|c values Hc _ IH]; [reflexivity|].
  cbn. rewrite Hc. cbn. rewrite IH. reflexivity.
Qed.

Lemma astype_str_text `{AstypeStr} (c : cell) :
  isna c = false → astype_str c = Str (text_of c).
Proof.
  intros Hna. unfold astype_str. rewrite Hna. destruct c; [reflexivity..|discriminate].
Qed.

(** [add_headline_length] on a table whose headline column has no missing
    value: the copy gets the headlines as strings and their lengths. *)
Lemma add_headline_length_run `{PyStr} `{AstypeStr} (h : heap) (df : loc) (f : frame)
    (headline_column : string) (headlines : list cell) :
  h !! df = Some f → get_col headline_column f = Some headlines →
  Forall (λ c, isna c = false) headlines →
  add_headline_length df headline_column h
  = (Some (fresh (dom h)),
     <[fresh (dom h):=
         set_col "headline_length"
           (map (λ c, Int (Z.of_nat (str_len (text_of c)))) headlines)
           (set_col headline_column (map (λ c, Str (text_of c)) headlines) f)]> h).
Proof.
  intros Hdf Hcol Hna. unfold add_headline_length.
  rewrite (bind_run _ _ _ _ _ (df_copy_run h df f Hdf)).
  set (l := fresh (dom h)). set (h1 := <[l:=f]> h).
  assert (Hl : h1 !! l = Some f) by apply lookup_insert_eq.
  rewrite (bind_run _ _ _ _ _ (getitem_run h1 l f _ _ Hl Hcol)).
  assert (Htext : map astype_str headlines = map (λ c, Str (text_of c)) headlines).
  { apply Forall_fmap_ext_1. eapply Forall_impl; [exact Hna|].
    intros c Hc. apply astype_str_text, Hc. }
  rewrite Htext.
  rewrite (bind_run _ _ _ _ _ (setitem_run h1 l f _ _ Hl)).
  erewrite bind_run;
    [|eapply getitem_run; [apply lookup_insert_eq|apply get_col_set_col]].
  erewrite (bind_run (lift _)) by
    (unfold lift; erewrite (apply_total _ (λ c, match c with
                                               | Str s => Int (Z.of_nat (str_len s))
                                               | _ => NA
                                               end));
     [reflexivity|apply Forall_fmap, Forall_true; intros c; reflexivity]).
  rewrite <- list_fmap_compose.
  erewrite bind_run; [|eapply setitem_run; apply lookup_insert_eq].
  unfold h1. rewrite !insert_insert_eq. reflexivity.
Qed.

Lemma scorer_analyzer `{Vader} (a : option analyzer) (an : analyzer) :
  scorer a an ↔ analyzer_or_new a = Some an.
Proof.
  unfold scorer, analyzer_or_new, initialize_sentiment_analyzer.
  destruct a as [a|].
  - split; [intros [[= ->]|[[=] _]]; reflexivity|intros [= ->]; left; reflexivity].
  - split.
    + intros [[=]|[_ [->|[-> ->]]]]; reflexivity.
    + intros Hnew. right. split; [reflexivity|].
      destruct (SentimentIntensityAnalyzer false) as [b| |]; [|
        destruct (SentimentIntensityAnalyzer true) as [b| |]|]; try discriminate.
      * left. congruence.
      * right. split; [reflexivity|congruence].
Qed.

(** [add_sentiment_analysis] on a table whose headlines are strings, with a
    scorer: the copy gets the score of each headline, the category that
    [pd.cut] gives the score, and the group of the category. *)
Lemma add_sentiment_analysis_run `{Vader} `{AstypeStr} (h : heap) (df : loc)
    (f : frame) (headline_column : string) (a : option analyzer) (an : analyzer)
    (texts : list string) :
  h !! df = Some f → get_col headline_column f = Some (map Str texts) →
  analyzer_or_new a = Some an →
  let score := λ text, compound (polarity_scores an text) in
  add_sentiment_analysis df headline_column a h
  = (Some (fresh (dom h)),
     <[fresh (dom h):=
         set_col "sentiment_group"
           (map (λ text, group_of (sentiment_category (score text))) texts)
           (set_col "sentiment_category"
              (map (λ text, from_option Str NA (sentiment_category (score text))) texts)
              (set_col "headline_sentiment"
                 (map (λ text, Num (score text)) texts) f))]> h).
Proof.
  intros Hdf Hcol Han score. unfold add_sentiment_analysis.
  rewrite (bind_run _ _ _ _ _ (df_copy_run h df f Hdf)).
  set (l := fresh (dom h)). set (h1 := <[l:=f]> h).
  assert (Hl : h1 !! l = Some f) by apply lookup_insert_eq.
  rewrite (bind_run _ _ h1 h1 an) by (unfold lift; rewrite Han; reflexivity).
  rewrite (bind_run _ _ _ _ _ (getitem_run h1 l f _ _ Hl Hcol)).
  erewrite (bind_run (lift _)) by
    (unfold lift; erewrite (apply_total _ (λ c, match c with
                                               | Str text => Num (score text)
                                               | _ => NA
                                               end));
     [reflexivity|apply Forall_fmap, Forall_true; intros text; reflexivity]).
  rewrite <- list_fmap_compose.
  erewrite bind_run; [|eapply setitem_run; exact Hl].
  erewrite bind_run;
    [|eapply getitem_run; [apply lookup_insert_eq|apply get_col_set_col]].
  erewrite (bind_run (lift _)) by
    (unfold lift; erewrite (apply_total _ (λ c, match c with
                                               | Num x => from_option Str NA (sentiment_category x)
                                               | _ => NA
                                               end));
     [reflexivity|apply Forall_fmap, Forall_true; intros text; reflexivity]).
  rewrite <- list_fmap_compose.
  erewrite bind_run; [|eapply setitem_run; apply lookup_insert_eq].
  erewrite bind_run;
    [|eapply getitem_run; [apply lookup_insert_eq|apply get_col_set_col]].
  erewrite (bind_run (lift _)) by
    (unfold lift; erewrite (apply_total _ (λ c, match c with
                                               | Str label => Str (replace_very label)
                                               | _ => replace_very_cell missing_category_str
                                               end));
     [reflexivity|apply Forall_fmap, Forall_true; intros text; cbn;
                  destruct (sentiment_category (score text)); reflexivity]).
  rewrite <- list_fmap_compose.
  erewrite bind_run; [|eapply setitem_run; apply lookup_insert_eq].
  unfold h1. rewrite !insert_insert_eq. cbn [mret py_ret]. f_equal. f_equal.
  f_equal. apply list_fmap_ext. intros _ text _. cbn.
  destruct (sentiment_category (score text)); reflexivity.
Qed.

(** ** The functions that add columns and the table they are given *)

(** C9, as stated for every input table: a table with a missing headline
    and with numbers as publishers refutes it. On it
    [add_sentiment_analysis] raises, because the scorer takes strings only,
    and [add_organization_column] raises, because a column of numbers has no
    [str] accessor: neither returns a table. *)
Lemma add_column_functions_raise :
  ¬ returns_new_table_keeping
      (@add_sentiment_analysis sample_vader sample_astype 1%positive "headline" None)
      sample_gaps_heap 1%positive sample_gaps
  ∧ ¬ returns_new_table_keeping
        (add_organization_column 1%positive "publisher" "organization")
        sample_gaps_heap 1%positive sample_gaps.
Proof.
  split; intros [(df' & Hrun & _) _]; vm_compute in Hrun; discriminate.
Qed.

(** C9, amended: each of the three functions that add columns leaves the
    table it is given as it was, and every other table too, whether it
    returns or raises, and a table it returns is a new object. It does
    return a new table, the input unchanged, when the table has the column it
    reads and the column holds what the function can take: a string among
    the publishers for [add_organization_column]; strings only as headlines,
    and a scorer, for [add_sentiment_analysis]; no missing headline for
    [add_headline_length]. *)
Theorem add_column_functions_keep_input `{PyStr} `{Vader} `{AstypeStr}
    (h : heap) (df : loc) (f : frame)
    (publisher_column organization_column headline_column : string)
    (a : option analyzer) :
  h !! df = Some f →
  (∀ m, m ∈ [add_organization_column df publisher_column organization_column;
             add_sentiment_analysis df headline_column a;
             add_headline_length df headline_column] →
        (m h).2 !! df = Some f ∧ keeps_tables m h ∧ returns_new_table m h)
  ∧ (∀ publishers s,
       get_col publisher_column f = Some publishers → Str s ∈ publishers →
       returns_new_table_keeping
         (add_organization_column df publisher_column organization_column) h df f)
  ∧ (∀ texts an,
       get_col headline_column f = Some (map Str texts) → scorer a an →
       returns_new_table_keeping (add_sentiment_analysis df headline_column a) h df f)
  ∧ (∀ headlines,
       get_col headline_column f = Some headlines →
       Forall (λ c, isna c = false) headlines →
       returns_new_table_keeping (add_headline_length df headline_column) h df f).
Proof.
  intros Hdf.
  assert (Hframe : ∀ m,
    m ∈ [add_organization_column df publisher_column organization_column;
         add_sentiment_analysis df headline_column a;
         add_headline_length df headline_column] →
    (m h).2 !! df = Some f ∧ keeps_tables m h ∧ returns_new_table m h).
  { intros m Hm.
    enough (Hboth : keeps_tables m h ∧ returns_new_table m h).
    { destruct Hboth as [Hkeep Hnew]. split; [apply Hkeep, Hdf|done]. }
    repeat apply elem_of_cons in Hm as [->|Hm]; [..|by apply elem_of_nil in Hm];
      apply copy_then_write; intros l; (writes_only_steps || returns_steps). }
  assert (Hreturns : ∀ m df',
    m ∈ [add_organization_column df publisher_column organization_column;
         add_sentiment_analysis df headline_column a;
         add_headline_length df headline_column] →
    (m h).1 = Some df' → returns_new_table_keeping m h df f).
  { intros m df' Hm Hrun. destruct (Hframe m Hm) as (Hsame & _ & Hnew).
    split; [|exact Hsame]. exists df'. split; [exact Hrun|]. apply Hnew, Hrun. }
  split; [exact Hframe|]. split; [|split].
  - intros publishers s Hpub Hstr%str_accessor_string.
    eapply Hreturns; [left|].
    apply (add_organization_column_returns _ _ _ _ _ _ Hdf Hpub Hstr).
  - intros texts an Hhead Han%scorer_analyzer.
    eapply Hreturns; [right; left|].
    rewrite (add_sentiment_analysis_run h df f _ a an texts Hdf Hhead Han).
    reflexivity.
  - intros headlines Hhead Hna.
    eapply Hreturns; [right; right; left|].
    rewrite (add_headline_length_run h df f _ _ Hdf Hhead Hna). reflexivity.
Qed.

Lemma add_column_functions_keep_input_witness :
  sample_heap !! 1%positive = Some sample_news
  ∧ (∀ m, m ∈ [add_organization_column (1%positive) "publisher" "organization";
               @add_sentiment_analysis sample_vader sample_astype (1%positive)
                 "headline" None;
               @add_headline_length ascii_str sample_astype (1%positive) "headline"] →
          (m sample_heap).2 !! 1%positive = Some sample_news
          ∧ keeps_tables m sample_heap ∧ returns_new_table m sample_heap)
  ∧ (∀ publishers s,
       get_col "publisher" sample_news = Some publishers → Str s ∈ publishers →
       returns_new_table_keeping
         (add_organization_column 1%positive "publisher" "organization")
         sample_heap 1%positive sample_news)
  ∧ (∀ texts an,
       get_col "headline" sample_news = Some (map Str texts) →
       @scorer sample_vader None an →
       returns_new_table_keeping
         (@add_sentiment_analysis sample_vader sample_astype 1%positive "headline" None)
         sample_heap 1%positive sample_news)
  ∧ (∀ headlines,
       get_col "headline" sample_news = Some headlines →
       Forall (λ c, isna c = false) headlines →
       returns_new_table_keeping
         (@add_headline_length ascii_str sample_astype 1%positive "headline")
         sample_heap 1%positive sample_news).
Proof.
  split; [reflexivity|].
  apply (@add_column_functions_keep_input ascii_str sample_vader sample_astype
           sample_heap 1%positive sample_news "publisher" "organization"
           "headline" None).
  reflexivity.
Defined.

(** On the sample table the three functions do return, each a table with
    its new columns; the scorer is also built when the lexicon has to be
    downloaded first. *)
Example add_column_functions_sample :
  (add_organization_column (1%positive) "publisher" "organization" sample_heap).1
    = Some 2%positive
  ∧ (@add_sentiment_analysis sample_vader_download sample_astype (1%positive)
       "headline" None sample_heap).2
      !! 2%positive
    = Some (sample_news ++
            [("headline_sentiment", [Num 0.7; Num (-0.2)]);
             ("sentiment_category", [Str "positive"; Str "negative"]);
             ("sentiment_group", [Str "positive"; Str "negative"])])%list
  ∧ (@add_headline_length ascii_str sample_astype (1%positive) "headline"
       sample_heap).2
      !! 2%positive
    = Some (sample_news ++ [("headline_length", [Int 12; Int 12])])%list.
Proof. repeat split; vm_compute; reflexivity. Qed.

(** * Part IV: further properties of the code *)

(** ** More on the order of floats *)

Lemma float_le_trans (x y z : float) :
  (x <=? y)%float = true → (y <=? z)%float = true → (x <=? z)%float = true.
Proof. float_order. Qed.

Lemma float_lt_le (x y : float) :
  (x <? y)%float = true → (x <=? y)%float = true.
Proof. float_order. Qed.

Lemma float_not_lt_le (lo x b : float) :
  (lo <? x)%float = true → (b =? b)%float = true →
  (b <? x)%float = false → (x <=? b)%float = true.
Proof. float_order. Qed.

Lemma float_nan_not_le (b x : float) :
  is_nan x = true → (b <=? x)%float = false.
Proof. unfold is_nan. float_order. Qed.

Lemma float_nan_not_lt (b x : float) :
  is_nan x = true → (b <? x)%float = false.
Proof. unfold is_nan. float_order. Qed.

Lemma float_lt_not_nan (lo x : float) :
  (lo <? x)%float = true → is_nan x = false.
Proof. unfold is_nan. float_order. Qed.

Lemma float_lt_trans (x y z : float) :
  (x <? y)%float = true → (y <? z)%float = true → (x <? z)%float = true.
Proof. float_order. Qed.

Lemma float_le_lt_trans (x y z : float) :
  (x <=? y)%float = true → (y <? z)%float = true → (x <? z)%float = true.
Proof. float_order. Qed.

(** ** classify_sentiment on any float *)

(** X1: [classify_sentiment] is monotone: a score that is at most another
    gets a category that is at most the other's on the scale from
    very-negative to very-positive. *)
Theorem classify_sentiment_monotone (x y : float) :
  (x <=? y)%float = true →
  (category_rank (classify_sentiment x) ≤ category_rank (classify_sentiment y))%nat.
Proof.
  intros Hxy. unfold classify_sentiment.
  pose proof (λ b, float_le_trans b x y) as Htrans.
  destruct (0.7 <=? x)%float eqn:X1; [rewrite (Htrans _ X1 Hxy); cbn; lia|].
  destruct (0.1 <=? x)%float eqn:X2.
  { rewrite (Htrans _ X2 Hxy). destruct (0.7 <=? y)%float; cbn; lia. }
  destruct (-0.1 <=? x)%float eqn:X3.
  { rewrite (Htrans _ X3 Hxy).
    destruct (0.7 <=? y)%float, (0.1 <=? y)%float; cbn; lia. }
  destruct (-0.7 <=? x)%float eqn:X4.
  { rewrite (Htrans _ X4 Hxy).
    destruct (0.7 <=? y)%float, (0.1 <=? y)%float, (-0.1 <=? y)%float; cbn; lia. }
  destruct (0.7 <=? y)%float, (0.1 <=? y)%float, (-0.1 <=? y)%float,
    (-0.7 <=? y)%float; cbn; lia.
Qed.

Lemma classify_sentiment_monotone_witness :
  (-0.2 <=? 0.7)%float = true
  ∧ (category_rank (classify_sentiment (-0.2))
     ≤ category_rank (classify_sentiment 0.7))%nat.
Proof.
  split; [reflexivity|].
  apply (classify_sentiment_monotone (-0.2) 0.7); reflexivity.
Defined.

(** X2: [classify_sentiment] rejects no float. A NaN and every score below
    -1 are very-negative, every score above 1 is very-positive; [pd.cut]
    gives none of them a category. *)
Theorem classify_sentiment_out_of_range (x : float) :
  (is_nan x = true →
     classify_sentiment x = "very-negative" ∧ sentiment_category x = None)
  ∧ ((x <? -1)%float = true →
     classify_sentiment x = "very-negative" ∧ sentiment_category x = None)
  ∧ ((1 <? x)%float = true →
     classify_sentiment x = "very-positive" ∧ sentiment_category x = None).
Proof.
  split; [|split].
  - intros Hnan. split.
    + unfold classify_sentiment. rewrite !(float_nan_not_le _ _ Hnan). reflexivity.
    + unfold sentiment_category, cut. rewrite Hnan. reflexivity.
  - intros Hlow. split.
    + unfold classify_sentiment.
      rewrite (float_lt_not_ge x (-1) 0.7), (float_lt_not_ge x (-1) 0.1),
        (float_lt_not_ge x (-1) (-0.1)), (float_lt_not_ge x (-1) (-0.7)) by done.
      reflexivity.
    + unfold sentiment_category, cut, sentiment_bins. cbn [searchsorted_left].
      rewrite (float_not_le_not_lt _ _ (float_lt_not_ge x (-1) (-1) Hlow eq_refl)).
      cbn. rewrite orb_true_r. reflexivity.
  - intros Hhigh. split.
    + unfold classify_sentiment.
      rewrite (float_lt_le _ _ (float_lt_trans 0.7 1 x eq_refl Hhigh)). reflexivity.
    + unfold sentiment_category, cut, sentiment_bins. cbn [searchsorted_left].
      rewrite (float_lt_trans (-1) 1 x), (float_lt_trans (-0.7) 1 x),
        (float_lt_trans (-0.1) 1 x), (float_lt_trans 0.1 1 x),
        (float_lt_trans 0.7 1 x), Hhigh by done.
      cbn. rewrite orb_true_r. reflexivity.
Qed.

(** ** The categories of pd.cut *)

(** X3: [pd.cut] gives a score a category exactly when the score is above
    -1 and at most 1. *)
Theorem sentiment_category_domain (x : float) :
  is_Some (sentiment_category x)
  ↔ (-1 <? x)%float = true ∧ (x <=? 1)%float = true.
Proof.
  unfold sentiment_category, cut, sentiment_bins. cbn [searchsorted_left length].
  split.
  - destruct (is_nan x) eqn:Hnan; [intros [? [=]]|].
    destruct (-1 <? x)%float eqn:L0; [|intros [? [=]]].
    assert (Hle : ∀ b, (b =? b)%float = true → (b <=? 1)%float = true →
                       (b <? x)%float = false → (x <=? 1)%float = true).
    { intros b Hb Hb1 Hbx. apply (float_le_trans x b 1); [|exact Hb1].
      apply (float_not_lt_le (-1) x b); done. }
    destruct (-0.7 <? x)%float eqn:L1; [|intros _; split; [done|]; by apply (Hle (-0.7)%float)].
    destruct (-0.1 <? x)%float eqn:L2; [|intros _; split; [done|]; by apply (Hle (-0.1)%float)].
    destruct (0.1 <? x)%float eqn:L3; [|intros _; split; [done|]; by apply (Hle 0.1%float)].
    destruct (0.7 <? x)%float eqn:L4; [|intros _; split; [done|]; by apply (Hle 0.7%float)].
    destruct (1 <? x)%float eqn:L5; [intros [? [=]]|].
    intros _. split; [done|]. by apply (Hle 1%float).
  - intros [Hlo Hhi].
    rewrite (float_lt_not_nan _ _ Hlo), Hlo, (float_le_not_lt _ _ Hhi).
    destruct (-0.7 <? x)%float; [|cbn; eauto].
    destruct (-0.1 <? x)%float; [|cbn; eauto].
    destruct (0.1 <? x)%float; [|cbn; eauto].
    destruct (0.7 <? x)%float; cbn; eauto.
Qed.

(** X4: the three-way group is the same whether the category comes from
    [pd.cut] or from [classify_sentiment], for every score above -1 and at
    most 1 other than -0.1 and 0.1: at 0.7 and at -0.7, where the five-way
    categories differ, the groups agree. *)
Theorem sentiment_group_agrees (x : float) :
  (-1 <? x)%float = true → (x <=? 1)%float = true →
  (-0.1 =? x)%float = false → (0.1 =? x)%float = false →
  sentiment_group (sentiment_category x) = replace_very (classify_sentiment x).
Proof.
  intros Hlo Hhi Hm Hp.
  unfold sentiment_category, cut, sentiment_bins, classify_sentiment.
  cbn [searchsorted_left length].
  rewrite (float_lt_not_nan _ _ Hlo), Hlo, (float_le_not_lt _ _ Hhi).
  destruct (0.7 <=? x)%float eqn:E1.
  { rewrite (float_lt_le_lt (-0.7) 0.7 x), (float_lt_le_lt (-0.1) 0.7 x),
      (float_lt_le_lt 0.1 0.7 x) by done.
    destruct (0.7 <? x)%float; reflexivity. }
  rewrite (float_not_le_not_lt _ _ E1).
  destruct (0.1 <=? x)%float eqn:E2.
  { rewrite (float_lt_le_lt (-0.7) 0.1 x), (float_lt_le_lt (-0.1) 0.1 x),
      (float_le_ne_lt 0.1 x) by done.
    reflexivity. }
  rewrite (float_not_le_not_lt _ _ E2).
  destruct (-0.1 <=? x)%float eqn:E3.
  { rewrite (float_lt_le_lt (-0.7) (-0.1) x), (float_le_ne_lt (-0.1) x) by done.
    reflexivity. }
  rewrite (float_not_le_not_lt _ _ E3).
  destruct (-0.7 <=? x)%float eqn:E4.
  { destruct (-0.7 <? x)%float; reflexivity. }
  rewrite (float_not_le_not_lt _ _ E4). reflexivity.
Qed.

Lemma sentiment_group_agrees_witness :
  ((-1 <? 0.7)%float = true ∧ (0.7 <=? 1)%float = true
   ∧ (-0.1 =? 0.7)%float = false ∧ (0.1 =? 0.7)%float = false)
  ∧ sentiment_group (sentiment_category 0.7) = replace_very (classify_sentiment 0.7).
Proof.
  split; [repeat split; reflexivity|].
  apply (sentiment_group_agrees 0.7); reflexivity.
Defined.

(** ** More on organization extraction *)

Lemma contains_before_first_same (c : ascii) (s : string) :
  contains c (before_first c s) = false.
Proof.
  induction s as [|a s IH]; [reflexivity|].
  cbn. destruct (Ascii.eqb a c) eqn:E; [reflexivity|]. cbn. rewrite E. exact IH.
Qed.

Lemma contains_before_first_other (c d : ascii) (s : string) :
  contains d s = false → contains d (before_first c s) = false.
Proof.
  induction s as [|a s IH]; [reflexivity|].
  cbn. destruct (Ascii.eqb a d) eqn:Ed; [discriminate|].
  intros H. destruct (Ascii.eqb a c); [reflexivity|]. cbn. rewrite Ed. apply IH, H.
Qed.

(** X5: on a string with an [@] the function returns a text with neither an
    [@] nor a [.] in it, and never raises: the subscript [[1]] is always in
    range. *)
Theorem extract_organization_plain (email : string) :
  contains "@" email = true →
  ∃ organization,
    extract_organization_from_email email = Some organization
    ∧ contains "@" organization = false
    ∧ contains "." organization = false.
Proof.
  intros Hat. eexists. split; [apply extract_organization_unfold, Hat|]. split.
  - apply contains_before_first_other, contains_before_first_same.
  - apply contains_before_first_same.
Qed.

Lemma extract_organization_plain_witness :
  contains "@" "desk@news.example@relay.org" = true
  ∧ ∃ organization,
      extract_organization_from_email "desk@news.example@relay.org" = Some organization
      ∧ contains "@" organization = false
      ∧ contains "." organization = false.
Proof.
  split; [reflexivity|].
  apply (extract_organization_plain "desk@news.example@relay.org"); reflexivity.
Defined.

(** X6: extracting twice is extracting once: the function returns its own
    results unchanged. *)
Theorem extract_organization_idempotent (email organization : string) :
  extract_organization_from_email email = Some organization →
  extract_organization_from_email organization = Some organization.
Proof.
  intros Hfirst. destruct (contains "@" email) eqn:Hat.
  - rewrite (extract_organization_unfold email Hat) in Hfirst.
    injection Hfirst as <-.
    unfold extract_organization_from_email.
    rewrite contains_before_first_other by apply contains_before_first_same.
    reflexivity.
  - unfold extract_organization_from_email in Hfirst. rewrite Hat in Hfirst.
    injection Hfirst as <-.
    unfold extract_organization_from_email. rewrite Hat. reflexivity.
Qed.

Lemma extract_organization_idempotent_witness :
  extract_organization_from_email "john@mail.example.com" = Some "mail"
  ∧ extract_organization_from_email "mail" = Some "mail".
Proof.
  split; [reflexivity|].
  apply (extract_organization_idempotent "john@mail.example.com" "mail"); reflexivity.
Defined.

(** ** Tokens *)

Lemma get_tokens_filter `{PyStr} `{Nltk} (headline : string)
    (remove_stopwords remove_punctuation lowercase : bool) :
  get_tokens headline remove_stopwords remove_punctuation lowercase
  = filter (keep_token remove_stopwords remove_punctuation)
      (map str_strip (word_tokenize (if lowercase then str_lower headline else headline))).
Proof.
  unfold get_tokens.
  generalize (word_tokenize (if lowercase then str_lower headline else headline)).
  intros tokens.
  enough (Hloop : ∀ result,
    fold_left
      (λ result token,
         let token := str_strip token in
         if keep_token remove_stopwords remove_punctuation token
         then (result ++ [token])%list else result)
      tokens result
    = (result ++ filter (keep_token remove_stopwords remove_punctuation)
                   (map str_strip tokens))%list)
    by apply (Hloop []).
  induction tokens as [|token tokens IH]; intros result; cbn [fold_left map].
  - rewrite app_nil_r. reflexivity.
  - rewrite IH, filter_cons.
    destruct (keep_token remove_stopwords remove_punctuation (str_strip token)).
    + rewrite decide_True by exact I. rewrite <- app_assoc. reflexivity.
    + rewrite decide_False by (intros []). reflexivity.
Qed.

(** X7: every token that [get_tokens] returns is a stripped piece of the
    tokenizer's output, is not empty, consists of letters only, as
    [str.isalpha] of Python has it, letters beyond ASCII included, and is no
    stop word when stop words are to be removed; the tokens keep the order
    of the tokenizer's output. *)
Theorem get_tokens_clean `{PyStr} `{Nltk} (headline : string)
    (remove_stopwords remove_punctuation lowercase : bool) :
  let tokens := get_tokens headline remove_stopwords remove_punctuation lowercase in
  Forall (λ token, token ≠ "" ∧ str_isalpha token = true
                   ∧ (remove_stopwords = true → token ∉ stopwords_english)) tokens
  ∧ tokens `sublist_of`
      map str_strip (word_tokenize (if lowercase then str_lower headline else headline)).
Proof.
  cbn. rewrite get_tokens_filter. split; [|apply sublist_filter].
  apply Forall_forall. intros token [Hkeep _]%list_elem_of_filter.
  unfold keep_token in Hkeep.
  apply Is_true_true in Hkeep.
  apply andb_prop in Hkeep as [Hkeep Halpha].
  apply andb_prop in Hkeep as [Hkeep _].
  apply andb_prop in Hkeep as [Hempty Hstop].
  split; [|split; [exact Halpha|]].
  - intros ->. discriminate.
  - intros ->. cbn in Hstop. apply negb_true_iff, bool_decide_eq_false in Hstop.
    exact Hstop.
Qed.

Lemma punctuation_ascii_not_alpha :
  Forall (λ p, ascii_text p = true ∧ isalpha p = false) punctuation.
Proof.
  apply Forall_forall. intros p Hp. apply (bool_decide_unpack _).
  revert p Hp. apply Forall_forall. apply (bool_decide_unpack _).
  vm_compute. exact I.
Qed.

Lemma punctuation_not_alpha `{PyStr} :
  Forall (λ p, str_isalpha p = false) punctuation.
Proof.
  eapply Forall_impl; [apply punctuation_ascii_not_alpha|].
  intros p [Hascii Halpha]. rewrite (str_isalpha_ascii p Hascii). exact Halpha.
Qed.

(** X8: the flag [remove_punctuation] changes nothing: a punctuation mark is
    no letter, and tokens that are not all letters are dropped anyway. *)
Theorem get_tokens_punctuation_flag `{PyStr} `{Nltk} (headline : string)
    (remove_stopwords lowercase : bool) :
  get_tokens headline remove_stopwords true lowercase
  = get_tokens headline remove_stopwords false lowercase.
Proof.
  rewrite !get_tokens_filter. apply list_filter_iff. intros token.
  unfold keep_token. cbn [andb negb].
  destruct (bool_decide (token ∈ punctuation)) eqn:Hp; [|rewrite !andb_true_r; done].
  apply bool_decide_eq_true in Hp.
  pose proof punctuation_not_alpha as Hall. rewrite Forall_forall in Hall.
  rewrite (Hall token Hp), !andb_false_r. done.
Qed.

(** ** Rankings *)

Lemma insert_sorted_sorted {A} (lt : A → A → bool) (R : relation A)
    `{!Transitive R} (x : A) (l : list A) :
  (∀ a b, lt a b = true → R a b) → (∀ a b, lt a b = false → R b a) →
  StronglySorted R l → StronglySorted R (insert_sorted lt x l).
Proof.
  intros Hlt Hge. induction 1 as [|y l Hl IH Hy]; cbn.
  - repeat constructor.
  - destruct (lt x y) eqn:E.
    + constructor; [constructor; assumption|].
      constructor; [apply Hlt, E|].
      eapply Forall_impl; [exact Hy|]. intros z Hz. etrans; [|exact Hz].
      apply Hlt, E.
    + constructor; [exact IH|].
      rewrite insert_sorted_perm. constructor; [apply Hge, E|exact Hy].
Qed.

Lemma sorted_sorted {A} (lt : A → A → bool) (R : relation A)
    `{!Transitive R} (l : list A) :
  (∀ a b, lt a b = true → R a b) → (∀ a b, lt a b = false → R b a) →
  StronglySorted R (sorted lt l).
Proof.
  intros Hlt Hge. unfold sorted.
  enough (H : ∀ acc, StronglySorted R acc →
            StronglySorted R (fold_left (λ acc x, insert_sorted lt x acc) l acc))
    by (apply H; constructor).
  induction l as [|x l IH]; intros acc Hacc; cbn; [exact Hacc|].
  apply IH, insert_sorted_sorted; assumption.
Qed.

#[local] Instance by_count_trans {K} :
  Transitive (λ x y : K * nat, (y.2 ≤ x.2)%nat).
Proof. intros x y z Hxy Hyz. lia. Qed.

Lemma by_count_desc_true {K} (a b : K * nat) :
  by_count_desc a b = true → (b.2 ≤ a.2)%nat.
Proof. unfold by_count_desc. intros H%Nat.ltb_lt. lia. Qed.

Lemma by_count_desc_false {K} (a b : K * nat) :
  by_count_desc a b = false → (a.2 ≤ b.2)%nat.
Proof. unfold by_count_desc. intros H%Nat.ltb_ge. lia. Qed.

Lemma most_common_decreasing {K} (c : list (K * nat)) :
  decreasing_counts (most_common None c).
Proof.
  unfold decreasing_counts, most_common.
  apply sorted_sorted;
    [apply _|apply by_count_desc_true|apply by_count_desc_false].
Qed.

Lemma filter_none {A} (P : A → Prop) `{!∀ x, Decision (P x)} (l : list A) :
  Forall (λ x, ¬ P x) l → filter P l = [].
Proof.
  induction 1 as [|x l Hx _ IH]; [reflexivity|].
  rewrite filter_cons, decide_False by exact Hx. exact IH.
Qed.

Lemma filter_all {A} (P : A → Prop) `{!∀ x, Decision (P x)} (l : list A) :
  Forall P l → filter P l = l.
Proof.
  induction 1 as [|x l Hx _ IH]; [reflexivity|].
  rewrite filter_cons, decide_True by exact Hx. rewrite IH. reflexivity.
Qed.

(** Inserting keeps the items of every count in their order: the sort is
    stable. *)
Lemma insert_sorted_stable {K} (n : nat) (x : K * nat) (l : list (K * nat)) :
  decreasing_counts l →
  filter (λ item, item.2 = n) (insert_sorted by_count_desc x l)
  = (filter (λ item, item.2 = n) l ++ filter (λ item, item.2 = n) [x])%list.
Proof.
  unfold decreasing_counts. induction 1 as [|y l Hl IH Hy]; [reflexivity|].
  cbn [insert_sorted]. unfold by_count_desc at 1.
  destruct (y.2 <? x.2)%nat eqn:E.
  - apply Nat.ltb_lt in E.
    rewrite (filter_cons _ x), (filter_cons _ x []), filter_nil.
    case_decide as Hx; [|rewrite app_nil_r; reflexivity].
    rewrite (filter_none _ (y :: l)); [reflexivity|].
    constructor; [lia|].
    eapply Forall_impl; [exact Hy|]. cbn. intros z Hz. lia.
  - rewrite (filter_cons _ y), (filter_cons _ y l), IH.
    case_decide; reflexivity.
Qed.

Lemma sorted_stable {K} (n : nat) (c : list (K * nat)) :
  filter (λ item, item.2 = n) (sorted by_count_desc c)
  = filter (λ item, item.2 = n) c.
Proof.
  unfold sorted.
  enough (H : ∀ acc, decreasing_counts acc →
            filter (λ item, item.2 = n)
              (fold_left (λ acc x, insert_sorted by_count_desc x acc) c acc)
            = (filter (λ item, item.2 = n) acc ++ filter (λ item, item.2 = n) c)%list)
    by (rewrite H; [reflexivity|constructor]).
  induction c as [|x c IH]; intros acc Hacc; cbn [fold_left].
  - rewrite filter_nil, app_nil_r. reflexivity.
  - rewrite IH.
    + rewrite insert_sorted_stable, <- app_assoc by assumption.
      rewrite <- filter_app. reflexivity.
    + unfold decreasing_counts.
      apply insert_sorted_sorted;
        [apply _|apply by_count_desc_true|apply by_count_desc_false|exact Hacc].
Qed.

(** The keys of a counter stand in the order in which they first occur. *)
Lemma keys_count_one_string (w : string) (c : list (string * nat)) :
  map fst (count_one String.eqb w c)
  = (map fst c ++ (if bool_decide (w ∈ map fst c) then [] else [w]))%list.
Proof.
  induction c as [|[k n] c IH]; [reflexivity|].
  cbn [count_one map fst]. destruct (String.eqb_spec w k) as [->|Hne].
  - rewrite bool_decide_eq_true_2 by left. cbn. rewrite app_nil_r. reflexivity.
  - cbn [map fst]. rewrite IH. cbn. f_equal.
    destruct (bool_decide (w ∈ map fst c)) eqn:Hin.
    + apply bool_decide_eq_true in Hin.
      rewrite bool_decide_eq_true_2 by (right; exact Hin). reflexivity.
    + apply bool_decide_eq_false in Hin.
      rewrite bool_decide_eq_false_2; [reflexivity|].
      intros [?|?]%elem_of_cons; done.
Qed.

Lemma Counter_keys_first_seen (ws : list string) :
  map fst (Counter String.eqb ws) = first_seen ws.
Proof.
  unfold Counter.
  enough (H : ∀ c,
    map fst (fold_left (λ c w, count_one String.eqb w c) ws c)
    = (map fst c ++ filter (λ v, v ∉ map fst c) (first_seen ws))%list).
  { rewrite H. cbn. apply filter_all, Forall_forall. intros v _. apply not_elem_of_nil. }
  induction ws as [|w ws IH]; intros c; cbn [fold_left first_seen].
  - rewrite filter_nil, app_nil_r. reflexivity.
  - rewrite IH, keys_count_one_string, filter_cons, list_filter_filter.
    destruct (bool_decide (w ∈ map fst c)) eqn:Hin.
    + apply bool_decide_eq_true in Hin.
      rewrite app_nil_r, decide_False by (intros Hn; apply Hn, Hin).
      f_equal. apply list_filter_iff. intros v. split; [|tauto].
      intros Hv. split; [exact Hv|]. intros ->. done.
    + apply bool_decide_eq_false in Hin.
      rewrite decide_True by exact Hin. rewrite <- app_assoc. cbn. do 2 f_equal.
      apply list_filter_iff. intros v.
      rewrite not_elem_of_app, list_elem_of_singleton. tauto.
Qed.

(** ** More on word frequencies *)

Lemma word_count_eqb (w : string) (tokens : list string) :
  length (filter (String.eqb w) tokens) = word_count w tokens.
Proof.
  unfold word_count. f_equal. apply list_filter_iff. intros token.
  rewrite Is_true_true, String.eqb_eq. split; congruence.
Qed.

Lemma get_word_frequencies_all `{PyStr} `{Nltk} (headlines : list string) :
  get_word_frequencies headlines None
  = most_common None (Counter String.eqb (all_tokens_of headlines)).
Proof.
  unfold get_word_frequencies, all_tokens_of. rewrite all_tokens_concat.
  reflexivity.
Qed.

(** X9: with [top_n = None] the result lists every word that occurs among
    the tokens of the headlines once, with the number of its occurrences,
    and no other word. *)
Theorem word_frequencies_counts `{PyStr} `{Nltk} (headlines : list string) :
  NoDup (map fst (get_word_frequencies headlines None))
  ∧ ∀ w n, (w, n) ∈ get_word_frequencies headlines None
           ↔ n = word_count w (all_tokens_of headlines) ∧ (0 < n)%nat.
Proof.
  rewrite get_word_frequencies_all. unfold most_common. split.
  - rewrite sorted_perm. apply (keys_fold _ String.eqb_eq). constructor.
  - intros w n. rewrite sorted_perm, (Counter_items _ String.eqb_eq), word_count_eqb.
    reflexivity.
Qed.

Lemma filter_by_count {K} (f : K → nat) (n : nat) (c : list (K * nat)) :
  Forall (λ item, item.2 = f item.1) c →
  map fst (filter (λ item, item.2 = n) c) = filter (λ k, f k = n) (map fst c).
Proof.
  induction 1 as [|[k m] c Hk _ IH]; [reflexivity|].
  cbn [map fst]. rewrite !filter_cons. cbn in Hk. subst m. cbn [snd].
  case_decide; cbn [map fst]; rewrite IH; reflexivity.
Qed.

(** X10: with [top_n = None] the pairs stand in the order of decreasing
    counts, and the words of equal count in the order in which they first
    occur among the tokens. *)
Theorem word_frequencies_ranked `{PyStr} `{Nltk} (headlines : list string) :
  decreasing_counts (get_word_frequencies headlines None)
  ∧ ∀ n, map fst (filter (λ item, item.2 = n) (get_word_frequencies headlines None))
         = filter (λ w, word_count w (all_tokens_of headlines) = n)
             (first_seen (all_tokens_of headlines)).
Proof.
  rewrite get_word_frequencies_all. split; [apply most_common_decreasing|].
  intros n. unfold most_common. rewrite sorted_stable.
  rewrite (filter_by_count (λ w, word_count w (all_tokens_of headlines))).
  - rewrite Counter_keys_first_seen. reflexivity.
  - apply Forall_forall. intros [w k] Hin. cbn.
    apply (Counter_items _ String.eqb_eq) in Hin as [-> _]. apply word_count_eqb.
Qed.

(** X11: an integer [top_n] cuts the ranking: a positive one keeps its first
    [top_n] pairs, a negative one keeps none, and [0] keeps all of them, as
    [None] does, because [if top_n:] takes [0] for no limit. *)
Theorem word_frequencies_top_n `{PyStr} `{Nltk} (headlines : list string) (n : Z) :
  let ranking := get_word_frequencies headlines None in
  ((0 < n)%Z → get_word_frequencies headlines (Some n) = take (Z.to_nat n) ranking
               ∧ (length (get_word_frequencies headlines (Some n)) ≤ Z.to_nat n)%nat)
  ∧ (n = 0%Z → get_word_frequencies headlines (Some n) = ranking)
  ∧ ((n < 0)%Z → get_word_frequencies headlines (Some n) = []).
Proof.
  cbn. unfold get_word_frequencies. split; [|split].
  - intros Hn. rewrite (proj2 (Z.eqb_neq n 0)) by lia. split; [reflexivity|].
    unfold most_common. rewrite length_take. lia.
  - intros ->. reflexivity.
  - intros Hn. rewrite (proj2 (Z.eqb_neq n 0)) by lia.
    unfold most_common. rewrite Z2Nat.nonpos by lia. reflexivity.
Qed.

(** ** More on trigrams *)

Lemma scored_keys_sublist `{AssocMeasure} (words : list string)
    (ngram_fd : list (trigram * nat)) :
  map fst (omap (λ item, score ← pmi words item.1; Some (item.1, score)) ngram_fd)
  `sublist_of` map fst ngram_fd.
Proof.
  induction ngram_fd as [|[t freq] fd IH]; [constructor|].
  cbn. destruct (pmi words t); cbn; constructor; exact IH.
Qed.

Lemma slice_to_sublist {A} (n : Z) (l : list A) : slice_to n l `sublist_of` l.
Proof. unfold slice_to. destruct (n <? 0)%Z; apply sublist_take. Qed.

(** X12: [get_trigrams] returns no trigram twice, and at most [top_n]
    trigrams for a [top_n] that is not negative. *)
Theorem get_trigrams_bounded `{AssocMeasure} (headlines : list (list string))
    (freq_filter top_n : Z) :
  NoDup (get_trigrams headlines freq_filter top_n)
  ∧ ((0 ≤ top_n)%Z →
     (length (get_trigrams headlines freq_filter top_n) ≤ Z.to_nat top_n)%nat).
Proof.
  unfold get_trigrams, nbest. split.
  - eapply sublist_NoDup; [|apply fmap_sublist, slice_to_sublist].
    unfold score_ngrams. rewrite sorted_perm.
    eapply sublist_NoDup; [|apply scored_keys_sublist].
    eapply sublist_NoDup; [|apply fmap_sublist, sublist_filter].
    rewrite from_words_Counter. apply (keys_fold _ trigram_eqb_eq). constructor.
  - intros Hn. rewrite length_map. unfold slice_to.
    rewrite (proj2 (Z.ltb_ge top_n 0)) by exact Hn. apply firstn_le_length.
Qed.

(** X13: headlines with fewer than three words between them have no
    trigram. *)
Theorem get_trigrams_short `{AssocMeasure} (headlines : list (list string))
    (freq_filter top_n : Z) :
  (length (concat headlines) < 3)%nat →
  get_trigrams headlines freq_filter top_n = [].
Proof.
  unfold get_trigrams. destruct (concat headlines) as [|w1 [|w2 [|w3 ws]]];
    cbn [length]; intros Hlen; try lia;
    unfold nbest, slice_to; destruct (top_n <? 0)%Z; cbn; rewrite ?take_nil;
    reflexivity.
Qed.

Lemma get_trigrams_short_witness :
  (length (concat [["fed"]; []; ["raises"]]) < 3)%nat
  ∧ @get_trigrams sample_measure [["fed"]; []; ["raises"]] 1 50 = [].
Proof.
  split; [cbn; lia|].
  apply (@get_trigrams_short sample_measure [["fed"]; []; ["raises"]] 1 50).
  cbn; lia.
Defined.

Lemma count_one_length {K} (eqb : K → K → bool) (k : K) (c : list (K * nat)) :
  (length (count_one eqb k c) ≤ S (length c))%nat.
Proof.
  induction c as [|[k' n] c IH]; cbn; [lia|].
  destruct (eqb k k'); cbn; lia.
Qed.

Lemma Counter_length {K} (eqb : K → K → bool) (ws : list K) :
  (length (Counter eqb ws) ≤ length ws)%nat.
Proof.
  unfold Counter.
  enough (H : ∀ c, (length (fold_left (λ c w, count_one eqb w c) ws c)
                    ≤ length ws + length c)%nat)
    by (etrans; [apply H|cbn; lia]).
  induction ws as [|w ws IH]; intros c; cbn [fold_left length]; [lia|].
  etrans; [apply IH|]. pose proof (count_one_length eqb w c). lia.
Qed.

Lemma trigrams_of_length (ws : list string) :
  (length (trigrams_of ws) ≤ length ws)%nat.
Proof.
  induction ws as [|w1 ws IH]; [reflexivity|].
  destruct ws as [|w2 [|w3 ws]]; cbn [trigrams_of length] in *; lia.
Qed.

(** X14: nothing frequent is lost. When the measure scores every trigram that
    occurs, as pointwise mutual information does, and [top_n] is at least
    the number of words, every trigram that occurs at least [freq_filter]
    times, and at least once, is returned. *)
Theorem get_trigrams_complete `{AssocMeasure} (headlines : list (list string))
    (freq_filter top_n : Z) (t : trigram) :
  (∀ t', (0 < occurrences t' (concat headlines))%nat →
         is_Some (pmi (concat headlines) t')) →
  (Z.of_nat (length (concat headlines)) ≤ top_n)%Z →
  (0 < occurrences t (concat headlines))%nat →
  (freq_filter ≤ Z.of_nat (occurrences t (concat headlines)))%Z →
  t ∈ get_trigrams headlines freq_filter top_n.
Proof.
  intros Hscore Htop Hocc Hfreq. unfold get_trigrams, nbest.
  set (words := concat headlines) in *.
  destruct (Hscore t Hocc) as [score Ht].
  apply list_elem_of_fmap. exists (t, score). split; [reflexivity|].
  assert (Hin : (t, score) ∈ score_ngrams words
                  (apply_freq_filter freq_filter (from_words words))).
  { unfold score_ngrams. rewrite sorted_perm. apply list_elem_of_omap.
    exists (t, occurrences t words). cbn. rewrite Ht. split; [|reflexivity].
    apply list_elem_of_filter. split.
    - cbn. apply Is_true_true, negb_true_iff, Z.ltb_ge. exact Hfreq.
    - rewrite from_words_Counter. apply (Counter_items _ trigram_eqb_eq).
      rewrite trigrams_of_occurrences. done. }
  unfold slice_to. rewrite (proj2 (Z.ltb_ge top_n 0)) by lia.
  rewrite take_ge; [exact Hin|].
  unfold score_ngrams. rewrite sorted_perm.
  rewrite <- (length_map fst).
  etrans; [apply sublist_length, scored_keys_sublist|]. rewrite length_map.
  etrans; [apply length_filter|].
  rewrite from_words_Counter.
  etrans; [apply Counter_length|]. etrans; [apply trigrams_of_length|]. lia.
Qed.

Lemma get_trigrams_complete_witness :
  ((∀ t', (0 < occurrences t' (concat [["fed"; "raises"; "rates"; "again"]]))%nat →
          is_Some (@pmi sample_measure (concat [["fed"; "raises"; "rates"; "again"]]) t'))
   ∧ (Z.of_nat (length (concat [["fed"; "raises"; "rates"; "again"]])) ≤ 50)%Z
   ∧ (0 < occurrences ("raises", "rates", "again")
            (concat [["fed"; "raises"; "rates"; "again"]]))%nat
   ∧ (1 ≤ Z.of_nat (occurrences ("raises", "rates", "again")
                      (concat [["fed"; "raises"; "rates"; "again"]])))%Z)
  ∧ ("raises", "rates", "again")
    ∈ @get_trigrams sample_measure [["fed"; "raises"; "rates"; "again"]] 1 50.
Proof.
  assert (Hscore : ∀ t',
    (0 < occurrences t' (concat [["fed"; "raises"; "rates"; "again"]]))%nat →
    is_Some (@pmi sample_measure (concat [["fed"; "raises"; "rates"; "again"]]) t'))
    by (intros t' _; eexists; reflexivity).
  assert (Hocc : (0 < occurrences ("raises", "rates", "again")
                        (concat [["fed"; "raises"; "rates"; "again"]]))%nat)
    by (vm_compute; lia).
  split; [repeat split; [exact Hscore|vm_compute; discriminate|exact Hocc|vm_compute; discriminate]|].
  apply (@get_trigrams_complete sample_measure [["fed"; "raises"; "rates"; "again"]]
           1 50 ("raises", "rates", "again") Hscore); [vm_compute; discriminate|exact Hocc|vm_compute; discriminate].
Defined.

(** ** More on tables *)

Lemma get_col_set_col_ne (col col' : string) (values : list cell) (f : frame) :
  col' ≠ col → get_col col' (set_col col values f) = get_col col' f.
Proof.
  intros Hne. induction f as [|[label old] f IH]; cbn.
  - destruct (String.eqb_spec col col'); [congruence|reflexivity].
  - destruct (String.eqb_spec label col) as [->|Hl]; cbn.
    + destruct (String.eqb_spec col col'); [congruence|reflexivity].
    + destruct (String.eqb label col'); [reflexivity|exact IH].
Qed.

Lemma set_col_set_col (col : string) (values values' : list cell) (f : frame) :
  set_col col values (set_col col values' f) = set_col col values f.
Proof.
  induction f as [|[label old] f IH]; cbn.
  - rewrite String.eqb_refl. reflexivity.
  - destruct (String.eqb label col) eqn:E; cbn; rewrite E; [reflexivity|].
    rewrite IH. reflexivity.
Qed.

Lemma columns_set_col (col : string) (values : list cell) (f : frame) :
  col ∈ columns f → columns (set_col col values f) = columns f.
Proof.
  unfold columns.
  induction f as [|[label old] f IH]; cbn [map fst set_col]; [intros []%elem_of_nil|].
  destruct (String.eqb_spec label col) as [->|Hne]; [reflexivity|].
  intros [->|Hin]%elem_of_cons; [done|].
  cbn [map fst]. rewrite IH by exact Hin. reflexivity.
Qed.

Lemma set_col_lengths (n : nat) (col : string) (values : list cell) (f : frame) :
  Forall (λ column, length column.2 = n) f → length values = n →
  Forall (λ column, length column.2 = n) (set_col col values f).
Proof.
  intros Hf Hlen. induction Hf as [|[label old] f Hold Hf IH]; cbn.
  - repeat constructor. exact Hlen.
  - destruct (String.eqb label col); constructor; assumption.
Qed.

Lemma nrows_set_col (col : string) (values : list cell) (f : frame) :
  f ≠ [] → length values = nrows f → nrows (set_col col values f) = nrows f.
Proof.
  destruct f as [|[label old] f]; [done|]. intros _ Hlen. cbn.
  destruct (String.eqb label col); cbn; [exact Hlen|reflexivity].
Qed.

Lemma rectangular_set_col (col : string) (values : list cell) (f : frame) :
  f ≠ [] → rectangular f → length values = nrows f →
  rectangular (set_col col values f).
Proof.
  intros Hne Hrect Hlen. unfold rectangular.
  rewrite nrows_set_col by assumption. apply set_col_lengths; assumption.
Qed.

(** The update of the organization column, row by row. *)
Lemma organizations_updated (publishers old : list cell) :
  length old = length publishers →
  ∃ organizations,
    apply extract_organization_cell
      (select_masked (map str_contains_at publishers) publishers)
    = Some organizations
    ∧ assign_masked (map str_contains_at publishers) organizations old
      = zip_with organization_update publishers old.
Proof.
  unfold apply. revert old.
  induction publishers as [|p publishers IH]; intros old Hlen.
  { exists []. destruct old; done. }
  destruct old as [|o old]; [discriminate|]. injection Hlen as Hlen.
  destruct (IH old Hlen) as (orgs & Happly & Hassign).
  cbn [zip_with]. rewrite <- Hassign.
  destruct p as [s| | |]; try (exists orgs; done).
  cbn [map str_contains_at select_masked]. unfold organization_update.
  cbn [str_contains_at organization_of].
  destruct (contains "@" s) eqn:Hat.
  - destruct (extract_organization_total s) as [org Horg].
    exists (Str org :: orgs). cbn. rewrite Horg. cbn. rewrite Happly. done.
  - exists orgs. done.
Qed.

Lemma old_organizations_length (organization_column : string) (f : frame) :
  rectangular f → length (old_organizations organization_column f) = nrows f.
Proof.
  intros Hrect. unfold old_organizations.
  destruct (get_col organization_column f) as [old|] eqn:Hold; cbn.
  - apply (get_col_length _ _ _ Hrect Hold).
  - apply length_replicate.
Qed.

(** [add_organization_column] on a table with the publisher column. *)
Lemma add_organization_column_result (h : heap) (df : loc) (f : frame)
    (publisher_column organization_column : string) (publishers : list cell) :
  h !! df = Some f → rectangular f →
  get_col publisher_column f = Some publishers →
  str_accessor publishers = Some () →
  add_organization_column df publisher_column organization_column h
  = (Some (fresh (dom h)),
     <[fresh (dom h):=
         set_col organization_column
           (zip_with organization_update publishers
              (old_organizations organization_column f)) f]> h).
Proof.
  intros Hdf Hrect Hpub Hstr. unfold add_organization_column.
  rewrite (bind_run _ _ _ _ _ (df_copy_run h df f Hdf)).
  set (l := fresh (dom h)). set (h1 := <[l:=f]> h).
  assert (Hl : h1 !! l = Some f) by apply lookup_insert_eq.
  rewrite (bind_run _ _ _ _ _ (getitem_run h1 l f _ _ Hl Hpub)).
  rewrite (bind_run _ _ h1 h1 ()) by (unfold lift; rewrite Hstr; reflexivity).
  destruct (organizations_updated publishers (old_organizations organization_column f))
    as (orgs & Happly & Hassign).
  { rewrite old_organizations_length by exact Hrect.
    symmetry. apply (get_col_length _ _ _ Hrect Hpub). }
  rewrite (bind_run _ _ h1 h1 orgs) by (unfold lift; rewrite Happly; done).
  rewrite (bind_run _ _ _ _ _ (loc_setitem_run h1 l f _ _ _ Hl)).
  fold (old_organizations organization_column f). rewrite Hassign.
  unfold h1. rewrite insert_insert_eq. reflexivity.
Qed.

Lemma get_col_columns (col : string) (f : frame) :
  is_Some (get_col col f) ↔ col ∈ columns f.
Proof.
  split; [|apply get_col_present].
  intros [values Hcol]. destruct (decide (col ∈ columns f)) as [Hin|Hout]; [exact Hin|].
  rewrite (get_col_absent _ _ Hout) in Hcol. discriminate.
Qed.

Lemma organization_of_no_at (c : cell) : str_contains_at (organization_of c) = false.
Proof.
  destruct c as [s| | |]; try reflexivity. cbn.
  destruct (contains "@" s) eqn:Hat; [|reflexivity].
  rewrite (extract_organization_unfold s Hat). cbn.
  apply contains_before_first_other, contains_before_first_same.
Qed.

Lemma organization_update_twice (p o : cell) :
  organization_update p (organization_update p o) = organization_update p o.
Proof. unfold organization_update. destruct (str_contains_at p); reflexivity. Qed.

Lemma organization_update_own (p : cell) :
  organization_update (organization_update p p) (organization_update p p)
  = organization_update p p.
Proof.
  unfold organization_update. destruct (str_contains_at p) eqn:Hat.
  - rewrite organization_of_no_at. reflexivity.
  - rewrite Hat. reflexivity.
Qed.

Lemma zip_with_organization_update_twice (publishers old : list cell) :
  zip_with organization_update publishers
    (zip_with organization_update publishers old)
  = zip_with organization_update publishers old.
Proof.
  revert old. induction publishers as [|p publishers IH]; intros [|o old];
    cbn; try reflexivity.
  rewrite organization_update_twice, IH. reflexivity.
Qed.

Lemma zip_with_organization_update_own (publishers : list cell) :
  zip_with organization_update
    (zip_with organization_update publishers publishers)
    (zip_with organization_update publishers publishers)
  = zip_with organization_update publishers publishers.
Proof.
  induction publishers as [|p publishers IH]; cbn; [reflexivity|].
  rewrite IH. f_equal. apply organization_update_own.
Qed.

Lemma add_organization_column_raises (h : heap) (df : loc) (f : frame)
    (publisher_column organization_column : string) :
  h !! df = Some f → get_col publisher_column f = None →
  (add_organization_column df publisher_column organization_column h).1 = None.
Proof.
  intros Hdf Hpub. unfold add_organization_column.
  rewrite (bind_run _ _ _ _ _ (df_copy_run h df f Hdf)).
  erewrite bind_raise; [reflexivity|].
  unfold getitem. erewrite bind_run
    by (unfold df_read; rewrite lookup_insert_eq; reflexivity).
  unfold lift. rewrite Hpub. reflexivity.
Qed.

Lemma is_str_organization_update (p : cell) :
  is_str (organization_update p p) = is_str p.
Proof.
  unfold organization_update. destruct p as [s| | |]; try reflexivity. cbn.
  destruct (contains "@" s); [|reflexivity].
  destruct (extract_organization_total s) as [org ->]. reflexivity.
Qed.

Lemma str_accessor_organization_update (publishers : list cell) :
  str_accessor (zip_with organization_update publishers publishers)
  = str_accessor publishers.
Proof.
  unfold str_accessor. f_equal.
  assert (Hstr : existsb is_str (zip_with organization_update publishers publishers)
                 = existsb is_str publishers).
  { induction publishers as [|p publishers IH]; [reflexivity|].
    cbn. rewrite is_str_organization_update, IH. reflexivity. }
  rewrite Hstr. destruct publishers; reflexivity.
Qed.

(** X15: on a table whose publisher column holds a string,
    [add_organization_column]
    returns a new table in which a row whose publisher is a string with an
    [@] has the organization extracted from it, and every other row has the
    value the organization column had before, or a missing value when the
    column is new; no other column changes. *)
Theorem add_organization_column_rows (h : heap) (df : loc) (f : frame)
    (publisher_column organization_column : string) (publishers : list cell)
    (s : string) :
  h !! df = Some f → rectangular f →
  get_col publisher_column f = Some publishers →
  Str s ∈ publishers →
  ∃ df' f',
    add_organization_column df publisher_column organization_column h
    = (Some df', <[df':=f']> h)
    ∧ h !! df' = None
    ∧ get_col organization_column f'
      = Some (zip_with organization_update publishers
                (old_organizations organization_column f))
    ∧ ∀ col, col ≠ organization_column → get_col col f' = get_col col f.
Proof.
  intros Hdf Hrect Hpub Hstr%str_accessor_string. eexists _, _.
  split; [apply (add_organization_column_result _ _ _ _ _ _ Hdf Hrect Hpub Hstr)|].
  split; [apply fresh_loc_unused|].
  split; [apply get_col_set_col|].
  intros col Hne. apply get_col_set_col_ne, Hne.
Qed.

Lemma add_organization_column_rows_witness :
  (sample_heap !! 1%positive = Some sample_news
   ∧ rectangular sample_news
   ∧ get_col "publisher" sample_news = Some [Str "benzinga"; Str "a@benzinga.com"]
   ∧ Str "benzinga" ∈ [Str "benzinga"; Str "a@benzinga.com"])
  ∧ ∃ df' f',
      add_organization_column 1%positive "publisher" "organization" sample_heap
      = (Some df', <[df':=f']> sample_heap)
      ∧ sample_heap !! df' = None
      ∧ get_col "organization" f'
        = Some (zip_with organization_update [Str "benzinga"; Str "a@benzinga.com"]
                  (old_organizations "organization" sample_news))
      ∧ ∀ col, col ≠ "organization" → get_col col f' = get_col col sample_news.
Proof.
  split; [repeat split; repeat constructor|].
  apply (add_organization_column_rows sample_heap 1%positive sample_news
           "publisher" "organization" [Str "benzinga"; Str "a@benzinga.com"]
           "benzinga").
  - reflexivity.
  - repeat constructor.
  - reflexivity.
  - left.
Defined.

(** X16: adding the organization column to a table that
    [add_organization_column] returned changes nothing: the second result
    has the contents of the first, also when the organization column is the
    publisher column itself. *)
Theorem add_organization_column_idempotent (h h1 : heap) (df df1 : loc) (f : frame)
    (publisher_column organization_column : string) :
  h !! df = Some f → rectangular f →
  add_organization_column df publisher_column organization_column h = (Some df1, h1) →
  ∃ df2 h2 f1,
    add_organization_column df1 publisher_column organization_column h1 = (Some df2, h2)
    ∧ h1 !! df1 = Some f1 ∧ h2 !! df2 = Some f1.
Proof.
  intros Hdf Hrect Hrun.
  destruct (get_col publisher_column f) as [publishers|] eqn:Hpub.
  2:{ pose proof (add_organization_column_raises h df f publisher_column
                    organization_column Hdf Hpub) as Hnone.
      rewrite Hrun in Hnone. discriminate. }
  destruct (str_accessor publishers) as [[]|] eqn:Hstr.
  2:{ pose proof (add_organization_column_no_accessor h df f publisher_column
                    organization_column publishers Hdf Hpub Hstr) as Hnone.
      rewrite Hrun in Hnone. discriminate. }
  rewrite (add_organization_column_result _ _ _ _ _ _ Hdf Hrect Hpub Hstr) in Hrun.
  injection Hrun as <- <-.
  set (new := zip_with organization_update publishers
                (old_organizations organization_column f)).
  set (f1 := set_col organization_column new f).
  assert (Hne : f ≠ []) by (intros ->; discriminate).
  assert (Hlen : length new = nrows f).
  { unfold new. rewrite length_zip_with, old_organizations_length by exact Hrect.
    rewrite (get_col_length _ _ _ Hrect Hpub). lia. }
  assert (Hrect1 : rectangular f1) by (apply rectangular_set_col; assumption).
  assert (Hold1 : old_organizations organization_column f1 = new).
  { unfold old_organizations, f1. rewrite get_col_set_col. reflexivity. }
  assert (Hf1 : <[fresh (dom h):=f1]> h !! fresh (dom h) = Some f1)
    by apply lookup_insert_eq.
  assert (∃ publishers1, get_col publisher_column f1 = Some publishers1
            ∧ str_accessor publishers1 = Some ()
            ∧ zip_with organization_update publishers1 new = new)
    as (publishers1 & Hpub1 & Hstr1 & Hsame).
  { destruct (decide (publisher_column = organization_column)) as [->|Hdiff].
    - exists new. split; [apply get_col_set_col|].
      unfold new, old_organizations. rewrite Hpub. cbn [default].
      split; [rewrite str_accessor_organization_update; exact Hstr|].
      apply zip_with_organization_update_own.
    - exists publishers. split; [|split; [exact Hstr|]].
      + unfold f1. rewrite get_col_set_col_ne by exact Hdiff. exact Hpub.
      + apply zip_with_organization_update_twice. }
  eexists _, _, f1. split; [|split; [exact Hf1|]].
  - apply (add_organization_column_result _ _ _ _ _ _ Hf1 Hrect1 Hpub1 Hstr1).
  - rewrite lookup_insert_eq, Hold1, Hsame. unfold f1.
    rewrite set_col_set_col. reflexivity.
Qed.

Lemma add_organization_column_idempotent_witness :
  (sample_heap !! 1%positive = Some sample_news
   ∧ rectangular sample_news
   ∧ (add_organization_column 1%positive "publisher" "organization" sample_heap).1
     = Some 2%positive)
  ∧ ∃ df2 h2 f1,
      add_organization_column 2%positive "publisher" "organization"
        (add_organization_column 1%positive "publisher" "organization" sample_heap).2
      = (Some df2, h2)
      ∧ (add_organization_column 1%positive "publisher" "organization" sample_heap).2
          !! 2%positive = Some f1
      ∧ h2 !! df2 = Some f1.
Proof.
  split; [repeat split; repeat constructor|].
  apply (add_organization_column_idempotent sample_heap _ 1%positive 2%positive
           sample_news).
  - reflexivity.
  - repeat constructor.
  - vm_compute. reflexivity.
Defined.

(** ** More on the organization counts *)

Lemma total_count_perm {K} (c d : list (K * nat)) :
  c ≡ₚ d → total_count c = total_count d.
Proof. intros Hperm. unfold total_count. rewrite Hperm. reflexivity. Qed.

Lemma value_counts_total (values : list cell) :
  total_count (value_counts values)
  = length (filter (λ c, negb (isna c)) values).
Proof.
  unfold value_counts, most_common.
  rewrite (total_count_perm _ _ (sorted_perm _ _)). apply total_count_Counter.
Qed.

Lemma count_one_keys {K} (eqb : K → K → bool) (w k : K) (c : list (K * nat)) :
  k ∈ map fst (count_one eqb w c) → k = w ∨ k ∈ map fst c.
Proof.
  induction c as [|[k' n] c IH]; cbn.
  - intros ->%list_elem_of_singleton. left. reflexivity.
  - destruct (eqb w k'); cbn; [right; done|].
    intros [->|Hin]%elem_of_cons; [right; left|].
    destruct (IH Hin) as [->|Hin']; [left; reflexivity|right; right; done].
Qed.

Lemma Counter_keys_subset {K} (eqb : K → K → bool) (ws : list K) (k : K) :
  k ∈ map fst (Counter eqb ws) → k ∈ ws.
Proof.
  unfold Counter.
  enough (Hloop : ∀ c, k ∈ map fst (fold_left (λ c w, count_one eqb w c) ws c) →
                       k ∈ ws ∨ k ∈ map fst c).
  { intros Hin. destruct (Hloop [] Hin) as [Hws|Hnil]; [exact Hws|].
    by apply elem_of_nil in Hnil. }
  induction ws as [|w ws IH]; intros c; cbn [fold_left]; [right; done|].
  intros Hin. destruct (IH _ Hin) as [Hws|Hc]; [left; right; exact Hws|].
  destruct (count_one_keys _ _ _ _ Hc) as [->|Hc']; [left; left|right; exact Hc'].
Qed.

Lemma value_counts_rows (values : list cell) (label : cell) (n : nat) :
  (label, n) ∈ value_counts values →
  isna label = false ∧ label ∈ values ∧ 0 < n.
Proof.
  unfold value_counts, most_common. rewrite sorted_perm. intros Hin.
  assert (Hlabel : label ∈ filter (λ c, negb (isna c)) values).
  { apply (Counter_keys_subset cell_eqb), list_elem_of_fmap.
    exists (label, n). done. }
  apply list_elem_of_filter in Hlabel as [Hna Hlabel].
  split; [destruct (isna label); done|]. split; [exact Hlabel|].
  pose proof (counts_positive_fold cell_eqb
                (filter (λ c, negb (isna c)) values) [] (Forall_nil_2 _)) as Hpos.
  rewrite Forall_forall in Hpos. apply (Hpos (label, n)), Hin.
Qed.

Lemma organizations_length (publishers : list cell) :
  length (organizations publishers)
  = length (filter (λ c, str_contains_at c = true) publishers).
Proof.
  unfold organizations.
  induction publishers as [|p publishers IH]; [reflexivity|].
  cbn [omap list_omap]. rewrite filter_cons.
  destruct p as [s| | |]; cbn [str_contains_at];
    try (rewrite decide_False by discriminate; exact IH).
  destruct (contains "@" s) eqn:Hat.
  - destruct (extract_organization_total s) as [org ->].
    rewrite decide_True by reflexivity. cbn. rewrite IH. reflexivity.
  - rewrite decide_False by discriminate. exact IH.
Qed.

(** X17: the parameter [organization_column] is honoured only for a column
    that exists: for a column that the table lacks the function calls
    [add_organization_column] without it, the column added is
    [organization], and reading any other name then raises. *)
Theorem get_organization_counts_other_column (h : heap) (df : loc) (f : frame)
    (organization_column : string) :
  h !! df = Some f → rectangular f →
  organization_column ∉ columns f → organization_column ≠ "organization" →
  (get_organization_counts df organization_column h).1 = None.
Proof.
  intros Hdf Hrect Hout Hne. unfold get_organization_counts.
  rewrite (bind_run _ _ h h f) by (unfold df_read; rewrite Hdf; reflexivity).
  rewrite bool_decide_eq_false_2 by exact Hout.
  destruct (get_col "publisher" f) as [publishers|] eqn:Hpub;
    [destruct (str_accessor publishers) as [[]|] eqn:Hstr|].
  - rewrite (bind_run _ _ _ _ _
               (add_organization_column_result _ _ _ _ _ _ Hdf Hrect Hpub Hstr)).
    erewrite bind_raise; [reflexivity|].
    unfold getitem. erewrite bind_run
      by (unfold df_read; rewrite lookup_insert_eq; reflexivity).
    unfold lift. rewrite get_col_set_col_ne by exact Hne.
    rewrite (get_col_absent _ _ Hout). reflexivity.
  - pose proof (add_organization_column_no_accessor h df f "publisher"
                  "organization" publishers Hdf Hpub Hstr) as Hnone.
    destruct (add_organization_column df "publisher" "organization" h)
      as [r h1] eqn:Hrun.
    cbn in Hnone. subst r. rewrite (bind_raise _ _ _ _ Hrun). reflexivity.
  - pose proof (add_organization_column_raises h df f "publisher" "organization"
                  Hdf Hpub) as Hnone.
    destruct (add_organization_column df "publisher" "organization" h)
      as [r h1] eqn:Hrun.
    cbn in Hnone. subst r. rewrite (bind_raise _ _ _ _ Hrun). reflexivity.
Qed.

Lemma get_organization_counts_other_column_witness :
  (sample_heap !! 1%positive = Some sample_news
   ∧ rectangular sample_news
   ∧ ("org" ∉ columns sample_news) ∧ "org" ≠ "organization")
  ∧ (get_organization_counts 1%positive "org" sample_heap).1 = None.
Proof.
  assert (Hout : "org" ∉ columns sample_news).
  { apply (bool_decide_unpack _). vm_compute. exact I. }
  split; [repeat split; first [progress repeat constructor|done]|].
  apply (get_organization_counts_other_column sample_heap 1%positive sample_news).
  - reflexivity.
  - repeat constructor.
  - exact Hout.
  - discriminate.
Defined.

(** X18: on a table that has the column, under a name other than [count],
    [get_organization_counts] copies nothing: the only new table is the
    result. Its rows are values of the column that are not missing, each
    with a positive count, by decreasing count, and the counts add up to the
    number of cells of the column that are not missing. *)
Theorem get_organization_counts_existing (h : heap) (df : loc) (f : frame)
    (organization_column : string) (values : list cell) :
  h !! df = Some f → get_col organization_column f = Some values →
  organization_column ≠ "count" →
  ∃ res rows,
    get_organization_counts df organization_column h
    = (Some res,
       <[res:=[("organization", map fst rows);
               ("count", map (λ item, Int (Z.of_nat item.2)) rows)]]> h)
    ∧ h !! res = None
    ∧ decreasing_counts rows
    ∧ total_count rows = length (filter (λ c, isna c = false) values)
    ∧ ∀ label n, (label, n) ∈ rows →
        isna label = false ∧ label ∈ values ∧ 0 < n.
Proof.
  intros Hdf Hcol Hname. exists (fresh (dom h)), (value_counts values).
  split; [|split; [apply fresh_loc_unused|split; [apply most_common_decreasing|split]]].
  - unfold get_organization_counts.
    rewrite (bind_run _ _ h h f) by (unfold df_read; rewrite Hdf; reflexivity).
    rewrite bool_decide_eq_true_2 by (apply get_col_columns; eauto).
    rewrite (bind_run _ _ h h df) by reflexivity.
    rewrite (bind_run _ _ _ _ _ (getitem_run h df f _ _ Hdf Hcol)).
    rewrite (proj2 (String.eqb_neq _ _) Hname). reflexivity.
  - rewrite value_counts_total. f_equal. apply list_filter_iff.
    intros c. destruct (isna c); done.
  - apply value_counts_rows.
Qed.

Lemma get_organization_counts_existing_witness :
  (sample_heap !! 1%positive = Some sample_news
   ∧ get_col "publisher" sample_news = Some [Str "benzinga"; Str "a@benzinga.com"]
   ∧ "publisher" ≠ "count")
  ∧ ∃ res rows,
      get_organization_counts 1%positive "publisher" sample_heap
      = (Some res,
         <[res:=[("organization", map fst rows);
                 ("count", map (λ item, Int (Z.of_nat item.2)) rows)]]> sample_heap)
      ∧ sample_heap !! res = None
      ∧ decreasing_counts rows
      ∧ total_count rows
        = length (filter (λ c, isna c = false) [Str "benzinga"; Str "a@benzinga.com"])
      ∧ ∀ label n, (label, n) ∈ rows →
          isna label = false ∧ label ∈ [Str "benzinga"; Str "a@benzinga.com"] ∧ 0 < n.
Proof.
  split; [repeat split; discriminate|].
  apply (get_organization_counts_existing sample_heap 1%positive sample_news);
    [reflexivity|reflexivity|discriminate].
Defined.

(** X19: when the organization column is computed on demand, for a table
    whose publisher column holds a string, the counts add up to the number
    of publisher entries with an [@], and the rows stand by decreasing
    count. *)
Theorem get_organization_counts_total (h : heap) (df : loc) (f : frame)
    (publishers : list cell) (s : string) :
  h !! df = Some f → rectangular f →
  get_col "publisher" f = Some publishers →
  Str s ∈ publishers →
  "organization" ∉ columns f →
  ∃ res h' rows,
    get_organization_counts df "organization" h = (Some res, h')
    ∧ h' !! res = Some [("organization", map fst rows);
                        ("count", map (λ item, Int (Z.of_nat item.2)) rows)]
    ∧ decreasing_counts rows
    ∧ total_count rows
      = length (filter (λ c, str_contains_at c = true) publishers).
Proof.
  intros Hdf Hrect Hpub Hstr%str_accessor_string Horg.
  eexists _, _, (value_counts (map organization_of publishers)).
  split; [apply (get_organization_counts_run h df f publishers); assumption|].
  split; [apply lookup_insert_eq|]. split; [apply most_common_decreasing|].
  rewrite value_counts_total, organization_column_notna, length_map.
  apply organizations_length.
Qed.

Lemma get_organization_counts_total_witness :
  (sample_heap !! 1%positive = Some sample_news
   ∧ rectangular sample_news
   ∧ get_col "publisher" sample_news = Some [Str "benzinga"; Str "a@benzinga.com"]
   ∧ Str "benzinga" ∈ [Str "benzinga"; Str "a@benzinga.com"]
   ∧ "organization" ∉ columns sample_news)
  ∧ ∃ res h' rows,
      get_organization_counts 1%positive "organization" sample_heap = (Some res, h')
      ∧ h' !! res = Some [("organization", map fst rows);
                          ("count", map (λ item, Int (Z.of_nat item.2)) rows)]
      ∧ decreasing_counts rows
      ∧ total_count rows
        = length (filter (λ c, str_contains_at c = true)
                    [Str "benzinga"; Str "a@benzinga.com"]).
Proof.
  assert (Hout : "organization" ∉ columns sample_news).
  { apply (bool_decide_unpack _). vm_compute. exact I. }
  split; [repeat split; first [progress repeat constructor|done]|].
  apply (get_organization_counts_total sample_heap 1%positive sample_news
           [Str "benzinga"; Str "a@benzinga.com"] "benzinga").
  - reflexivity.
  - repeat constructor.
  - reflexivity.
  - left.
  - exact Hout.
Defined.

(** X20: [get_organization_counts] leaves every table as it was, the one it
    is given too, whether it returns or raises: the organization column
    computed on demand goes into a copy. The table it returns is a new
    object. *)
Theorem get_organization_counts_keeps_tables (h : heap) (df : loc)
    (organization_column : string) :
  keeps_tables (get_organization_counts df organization_column) h
  ∧ returns_new_table (get_organization_counts df organization_column) h.
Proof.
  unfold keeps_tables, returns_new_table, get_organization_counts.
  destruct (h !! df) as [f|] eqn:Hdf.
  2:{ rewrite (bind_raise _ _ h h) by (unfold df_read; rewrite Hdf; reflexivity).
      split; [auto|discriminate]. }
  rewrite (bind_run _ _ h h f) by (unfold df_read; rewrite Hdf; reflexivity).
  assert (Hrest : ∀ (df1 : loc) (h1 : heap),
            (∀ l g, h !! l = Some g → h1 !! l = Some g) →
            let m := getitem df1 organization_column ≫= λ organizations,
                     (if String.eqb organization_column "count"
                      then lift None else mret ()) ≫= λ _,
                     df_new [("organization", map fst (value_counts organizations));
                             ("count", map (λ item, Int (Z.of_nat item.2))
                                           (value_counts organizations))] in
            (∀ l g, h !! l = Some g → (m h1).2 !! l = Some g)
            ∧ ∀ df', (m h1).1 = Some df' →
                h !! df' = None ∧ is_Some ((m h1).2 !! df')).
  { intros df1 h1 Hkeep m. subst m.
    destruct (getitem df1 organization_column h1) as [[values|] h2] eqn:Hget.
    - assert (h2 = h1) as ->.
      { unfold getitem, df_read, mbind, py_bind, lift in Hget.
        destruct (h1 !! df1); [destruct (get_col _ _)|]; congruence. }
      rewrite (bind_run _ _ _ _ _ Hget).
      destruct (String.eqb organization_column "count");
        [rewrite (bind_raise _ _ h1 h1) by reflexivity;
         split; [exact Hkeep|discriminate]|].
      rewrite (bind_run _ _ h1 h1 ()) by reflexivity.
      unfold df_new. cbn [fst snd].
      pose proof (fresh_loc_unused h1) as Hfresh. split.
      + intros l g Hl. rewrite lookup_insert_ne; [apply Hkeep, Hl|].
        intros <-. apply Hkeep in Hl. congruence.
      + intros df' [= <-]. split; [|rewrite lookup_insert_eq; eauto].
        destruct (h !! fresh (dom h1)) as [g|] eqn:Hl; [|reflexivity].
        apply Hkeep in Hl. congruence.
    - assert (h2 = h1) as ->.
      { unfold getitem, df_read, mbind, py_bind, lift in Hget.
        destruct (h1 !! df1); [destruct (get_col _ _)|]; congruence. }
      rewrite (bind_raise _ _ _ _ Hget). split; [exact Hkeep|discriminate]. }
  case_bool_decide as Hcol.
  - rewrite (bind_run _ _ h h df) by reflexivity. apply Hrest. auto.
  - destruct (copy_then_write df
                (λ df, getitem df "publisher" ≫= λ publishers,
                   lift (str_accessor publishers) ≫= λ _,
                   lift (apply extract_organization_cell
                           (select_masked (map str_contains_at publishers) publishers))
                   ≫= λ organizations,
                   loc_setitem df (map str_contains_at publishers) "organization"
                     organizations ≫= λ _, mret df) h) as [Hkeep _].
    { intros l. writes_only_steps. }
    { intros l. returns_steps. }
    fold (add_organization_column df "publisher" "organization") in Hkeep.
    destruct (add_organization_column df "publisher" "organization" h)
      as [[df1|] h1] eqn:Hrun.
    + rewrite (bind_run _ _ _ _ _ Hrun). apply Hrest.
      intros l g Hl. specialize (Hkeep l g Hl). rewrite Hrun in Hkeep. exact Hkeep.
    + rewrite (bind_raise _ _ _ _ Hrun). split; [|discriminate].
      intros l g Hl. specialize (Hkeep l g Hl). rewrite Hrun in Hkeep. exact Hkeep.
Qed.

(** ** More on the sentiment columns and the headline lengths *)

Lemma sentiment_category_label (x : float) (label : string) :
  sentiment_category x = Some label → label ∈ sentiment_labels.
Proof.
  unfold sentiment_category, cut. destruct (_ || _ || _); [discriminate|].
  apply list_elem_of_lookup_2.
Qed.

Lemma replace_very_labels (label : string) :
  label ∈ sentiment_labels →
  replace_very label ∈ ["positive"; "neutral"; "negative"].
Proof.
  unfold sentiment_labels. intros Hin.
  repeat (apply elem_of_cons in Hin as [->|Hin]); [..|by apply elem_of_nil in Hin];
    vm_compute; set_unfold; tauto.
Qed.

(** X21: on a table with the headline column, [add_sentiment_analysis]
    returns exactly when it has a scorer and every headline is a string. The
    scorer is the one it is given, or the one the constructor builds, at
    once or after the download that follows a [LookupError]; the scorer
    raises on a number and on a missing value, so one missing headline makes
    the whole call fail. *)
Theorem add_sentiment_analysis_defined `{Vader} `{AstypeStr} (h : heap) (df : loc)
    (f : frame) (headline_column : string) (a : option analyzer)
    (headlines : list cell) :
  h !! df = Some f → get_col headline_column f = Some headlines →
  is_Some (add_sentiment_analysis df headline_column a h).1
  ↔ (∃ an, scorer a an) ∧ Forall (λ c, ∃ text, c = Str text) headlines.
Proof.
  intros Hdf Hcol. split.
  - intros Hsome. unfold add_sentiment_analysis in Hsome.
    rewrite (bind_run _ _ _ _ _ (df_copy_run h df f Hdf)) in Hsome.
    destruct (analyzer_or_new a) as [an|] eqn:Han.
    2:{ erewrite bind_raise in Hsome by reflexivity. destruct Hsome as [? [=]]. }
    split; [exists an; apply scorer_analyzer, Han|].
    erewrite bind_run in Hsome by reflexivity.
    erewrite bind_run in Hsome
      by (eapply getitem_run; [apply lookup_insert_eq|exact Hcol]).
    destruct (apply (headline_sentiment_cell an) headlines) as [sentiments|] eqn:Happly.
    + apply mapM_Some in Happly. clear Hsome Hcol.
      induction Happly as [|c s cs ss Hc _ IH]; [constructor|].
      constructor; [|exact IH]. destruct c; try discriminate. eauto.
    + erewrite bind_raise in Hsome by reflexivity.
      destruct Hsome as [? [=]].
  - intros [[an Han%scorer_analyzer] Hall].
    assert (∃ texts, headlines = map Str texts) as [texts ->].
    { clear Hcol. induction Hall as [|c cs [text ->] _ [texts ->]]; [by exists []|].
      by exists (text :: texts). }
    rewrite (add_sentiment_analysis_run h df f _ a an texts Hdf Hcol Han). cbn. eauto.
Qed.

Lemma add_sentiment_analysis_defined_witness :
  (sample_heap !! 1%positive = Some sample_news
   ∧ get_col "headline" sample_news = Some [Str "Stocks rally"; Str "Shares slide"])
  ∧ (is_Some (@add_sentiment_analysis sample_vader_download sample_astype 1%positive
                "headline" None sample_heap).1
     ↔ (∃ an, @scorer sample_vader_download None an)
       ∧ Forall (λ c, ∃ text, c = Str text) [Str "Stocks rally"; Str "Shares slide"]).
Proof.
  split; [split; reflexivity|].
  apply (@add_sentiment_analysis_defined sample_vader_download sample_astype
           sample_heap 1%positive sample_news); reflexivity.
Defined.

(** X22: the columns of the table that [add_sentiment_analysis] returns on
    headlines that are strings: the score of each headline, the category
    that [pd.cut] gives the score, and the group. In a row whose score has a
    category the group is the category with the two [very-] labels merged,
    one of positive, neutral and negative; in a row whose score has none it
    is what [astype(str)] makes of a missing category. No column other than
    the three changes. *)
Theorem add_sentiment_analysis_columns `{Vader} `{AstypeStr} (h : heap) (df : loc)
    (f : frame) (headline_column : string) (a : option analyzer) (an : analyzer)
    (texts : list string) :
  h !! df = Some f → get_col headline_column f = Some (map Str texts) →
  scorer a an →
  let score := λ text, compound (polarity_scores an text) in
  ∃ df' f' groups,
    add_sentiment_analysis df headline_column a h = (Some df', <[df':=f']> h)
    ∧ get_col "headline_sentiment" f' = Some (map (λ text, Num (score text)) texts)
    ∧ get_col "sentiment_category" f'
      = Some (map (λ text, from_option Str NA (sentiment_category (score text))) texts)
    ∧ get_col "sentiment_group" f' = Some groups
    ∧ length groups = length texts
    ∧ (∀ i text label,
         texts !! i = Some text → sentiment_category (score text) = Some label →
         groups !! i = Some (Str (replace_very label))
         ∧ replace_very label ∈ ["positive"; "neutral"; "negative"])
    ∧ (∀ i text,
         texts !! i = Some text → sentiment_category (score text) = None →
         groups !! i = Some (replace_very_cell missing_category_str))
    ∧ ∀ col, col ∉ ["headline_sentiment"; "sentiment_category"; "sentiment_group"] →
        get_col col f' = get_col col f.
Proof.
  intros Hdf Hcol Han%scorer_analyzer score.
  eexists _, _, (map (λ text, group_of (sentiment_category (score text))) texts).
  split; [apply (add_sentiment_analysis_run h df f _ a an texts Hdf Hcol Han)|].
  split; [rewrite !get_col_set_col_ne by discriminate; apply get_col_set_col|].
  split; [rewrite get_col_set_col_ne by discriminate; apply get_col_set_col|].
  split; [apply get_col_set_col|].
  split; [apply length_map|].
  split; [|split].
  - intros i text label Htext Hlabel. rewrite list_lookup_fmap, Htext. cbn.
    rewrite Hlabel. split; [reflexivity|].
    apply replace_very_labels, (sentiment_category_label _ _ Hlabel).
  - intros i text Htext Hnone. rewrite list_lookup_fmap, Htext. cbn.
    rewrite Hnone. reflexivity.
  - intros col Hcol'. rewrite !not_elem_of_cons in Hcol'.
    destruct Hcol' as (H1 & H2 & H3 & _).
    rewrite !get_col_set_col_ne by done. reflexivity.
Qed.

Lemma add_sentiment_analysis_columns_witness :
  (sample_heap !! 1%positive = Some sample_news
   ∧ get_col "headline" sample_news = Some (map Str ["Stocks rally"; "Shares slide"])
   ∧ @scorer sample_vader None sample_analyzer)
  ∧ ∃ df' f' groups,
      @add_sentiment_analysis sample_vader sample_astype 1%positive "headline" None
        sample_heap
      = (Some df', <[df':=f']> sample_heap)
      ∧ get_col "headline_sentiment" f'
        = Some (map (λ text, Num (compound (polarity_scores sample_analyzer text)))
                  ["Stocks rally"; "Shares slide"])
      ∧ get_col "sentiment_category" f'
        = Some (map (λ text, from_option Str NA
                      (sentiment_category
                         (compound (polarity_scores sample_analyzer text))))
                  ["Stocks rally"; "Shares slide"])
      ∧ get_col "sentiment_group" f' = Some groups
      ∧ length groups = length ["Stocks rally"; "Shares slide"]
      ∧ (∀ i text label,
           ["Stocks rally"; "Shares slide"] !! i = Some text →
           sentiment_category (compound (polarity_scores sample_analyzer text))
           = Some label →
           groups !! i = Some (Str (replace_very label))
           ∧ replace_very label ∈ ["positive"; "neutral"; "negative"])
      ∧ (∀ i text,
           ["Stocks rally"; "Shares slide"] !! i = Some text →
           sentiment_category (compound (polarity_scores sample_analyzer text)) = None →
           groups !! i = Some (replace_very_cell (@missing_category_str sample_astype)))
      ∧ ∀ col, col ∉ ["headline_sentiment"; "sentiment_category"; "sentiment_group"] →
          get_col col f' = get_col col sample_news.
Proof.
  assert (Han : @scorer sample_vader None sample_analyzer).
  { right. split; [reflexivity|]. left. reflexivity. }
  split; [repeat split; (reflexivity || exact Han)|].
  apply (@add_sentiment_analysis_columns sample_vader sample_astype sample_heap
           1%positive sample_news "headline" None sample_analyzer
           ["Stocks rally"; "Shares slide"]);
    [reflexivity|reflexivity|exact Han].
Defined.

(** X23: on a table whose headline column has no missing value,
    [add_headline_length] returns, whether the cells hold strings or
    numbers, because the column is turned into strings first: in the result
    the headlines are the texts of the cells, the lengths are the lengths of
    these texts, and no other column changes. *)
Theorem add_headline_length_rows `{PyStr} `{AstypeStr} (h : heap) (df : loc)
    (f : frame) (headline_column : string) (headlines : list cell) :
  h !! df = Some f → get_col headline_column f = Some headlines →
  Forall (λ c, isna c = false) headlines →
  ∃ df' f',
    add_headline_length df headline_column h = (Some df', <[df':=f']> h)
    ∧ get_col "headline_length" f'
      = Some (map (λ c, Int (Z.of_nat (str_len (text_of c)))) headlines)
    ∧ (headline_column ≠ "headline_length" →
       get_col headline_column f' = Some (map (λ c, Str (text_of c)) headlines))
    ∧ ∀ col, col ≠ headline_column → col ≠ "headline_length" →
        get_col col f' = get_col col f.
Proof.
  intros Hdf Hcol Hna. eexists _, _.
  split; [apply (add_headline_length_run h df f _ _ Hdf Hcol Hna)|].
  split; [apply get_col_set_col|]. split.
  - intros Hne. rewrite get_col_set_col_ne by exact Hne. apply get_col_set_col.
  - intros col Hne1 Hne2. rewrite !get_col_set_col_ne by done. reflexivity.
Qed.

Lemma add_headline_length_rows_witness :
  (sample_heap !! 1%positive = Some sample_news
   ∧ get_col "headline" sample_news = Some [Str "Stocks rally"; Str "Shares slide"]
   ∧ Forall (λ c, isna c = false) [Str "Stocks rally"; Str "Shares slide"])
  ∧ ∃ df' f',
      @add_headline_length ascii_str sample_astype 1%positive "headline" sample_heap
      = (Some df', <[df':=f']> sample_heap)
      ∧ get_col "headline_length" f'
        = Some (map (λ c, Int (Z.of_nat (@str_len ascii_str
                                            (@text_of sample_astype c))))
                  [Str "Stocks rally"; Str "Shares slide"])
      ∧ ("headline" ≠ "headline_length" →
         get_col "headline" f'
         = Some (map (λ c, Str (@text_of sample_astype c))
                   [Str "Stocks rally"; Str "Shares slide"]))
      ∧ ∀ col, col ≠ "headline" → col ≠ "headline_length" →
          get_col col f' = get_col col sample_news.
Proof.
  assert (Hna : Forall (λ c, isna c = false) [Str "Stocks rally"; Str "Shares slide"])
    by (repeat constructor).
  split; [repeat split; (reflexivity || exact Hna)|].
  apply (@add_headline_length_rows ascii_str sample_astype sample_heap 1%positive
           sample_news); [reflexivity|reflexivity|exact Hna].
Defined.

(** ** More on the loaders *)


Lemma load_stock_loop_tables `{World} (tickers : list string) (base_path : string)
    (stock_data stock_data' : gmap string frame) (out out' : list string) :
  load_stock_loop tickers base_path stock_data out = (Some stock_data', out') →
  ∀ ticker df, stock_data' !! ticker = Some df →
    stock_data !! ticker = Some df
    ∨ (ticker ∈ tickers ∧ path_exists (stock_file base_path ticker) = true
       ∧ read_stock_csv (stock_file base_path ticker) = Some df).
Proof.
  revert stock_data out.
  induction tickers as [|t tickers IH]; intros stock_data out.
  { cbn. intros [= <- <-]. auto. }
  cbn [load_stock_loop]. fold (stock_file base_path t).
  unfold mbind at 1, py_bind.
  destruct (path_exists (stock_file base_path t)) eqn:Hex.
  - destruct (read_stock_csv (stock_file base_path t)) as [df0|] eqn:Hread;
      [|discriminate].
    cbn. intros Hrun ticker df Hdf.
    destruct (IH _ _ Hrun ticker df Hdf) as [Hold|(Hin & Hex' & Hread')].
    + destruct (decide (ticker = t)) as [->|Hne].
      * rewrite lookup_insert_eq in Hold. injection Hold as <-.
        right. split; [left|done].
      * rewrite lookup_insert_ne in Hold by done. left. exact Hold.
    + right. split; [right; exact Hin|done].
  - cbn. intros Hrun ticker df Hdf.
    destruct (IH _ _ Hrun ticker df Hdf) as [Hold|(Hin & Hex' & Hread')];
      [left; exact Hold|].
    right. split; [right; exact Hin|done].
Qed.

Lemma get_col_filter_labels (col : string) (labels : list string) (f : frame) :
  col ∉ labels →
  get_col col (filter (λ column, column.1 ∉ labels) f) = get_col col f.
Proof.
  intros Hcol. unfold frame in *.
  induction f as [|[label values] f IH]; [reflexivity|].
  rewrite filter_cons. cbn [fst get_col]. case_decide as Hlabel.
  - cbn [get_col]. destruct (String.eqb label col); [reflexivity|exact IH].
  - destruct (String.eqb_spec label col) as [->|_]; [|exact IH].
    destruct (Hcol Hlabel).
Qed.

Lemma columns_filter_labels (labels : list string) (f : frame) :
  columns (filter (λ column, column.1 ∉ labels) f)
  = filter (λ label, label ∉ labels) (columns f).
Proof.
  unfold columns, frame in *. induction f as [|[label values] f IH]; [reflexivity|].
  cbn [map fst]. rewrite !filter_cons. cbn [fst].
  case_decide; cbn [map fst]; rewrite IH; reflexivity.
Qed.

Lemma columns_set_col_present (col : string) (values : list cell) (f : frame) :
  is_Some (get_col col f) → columns (set_col col values f) = columns f.
Proof. intros Hcol%get_col_columns. apply columns_set_col, Hcol. Qed.


(** X25: a table that [load_stock_data] returns for a ticker is the table of
    the ticker's file with at most the [Date] column changed: the columns
    and their order are those of the file, every column other than [Date]
    is as it was read, and [Date], when the file has it, holds the parsed
    dates. This holds also for a ticker that is listed twice. *)
Theorem load_stock_data_tables `{World} (tickers : list string) (base_path : string)
    (out out' : list string) (stock_data : gmap string frame) :
  load_stock_data tickers base_path out = (Some stock_data, out') →
  ∀ ticker df, stock_data !! ticker = Some df →
    ticker ∈ tickers
    ∧ ∃ raw, read_csv (stock_file base_path ticker) = Some raw
             ∧ columns df = columns raw
             ∧ (∀ col, col ≠ "Date" → get_col col df = get_col col raw)
             ∧ (∀ dates, get_col "Date" raw = Some dates →
                  get_col "Date" df = to_datetime dates).
Proof.
  intros Hrun ticker df Hdf.
  destruct (load_stock_loop_tables _ _ _ _ _ _ Hrun ticker df Hdf)
    as [Hempty|(Hin & _ & Hread)].
  { rewrite lookup_empty in Hempty. discriminate. }
  split; [exact Hin|]. unfold read_stock_csv in Hread.
  destruct (read_csv (stock_file base_path ticker)) as [raw|]; [|discriminate].
  exists raw. split; [reflexivity|]. cbn in Hread.
  case_bool_decide as Hdate.
  - destruct (get_col "Date" raw) as [dates|] eqn:Hdates;
      [|cbn in Hread; discriminate].
    cbn in Hread.
    destruct (to_datetime dates) as [parsed|] eqn:Hparsed;
      [|cbn in Hread; discriminate].
    cbn in Hread.
    injection Hread as <-. split; [apply columns_set_col, Hdate|]. split.
    + intros col Hne. apply get_col_set_col_ne, Hne.
    + intros ? [= <-]. rewrite get_col_set_col, Hparsed. reflexivity.
  - injection Hread as <-. split; [reflexivity|]. split; [reflexivity|].
    intros dates Hdates. rewrite (get_col_absent _ _ Hdate) in Hdates. discriminate.
Qed.

Lemma load_stock_data_tables_witness :
  @load_stock_data sample_world ["AAPL"; "MSFT"; "AAPL"] "../data/stock_data/" []
  = (Some {["AAPL" := [("Date", [Str "2020-01-02"]); ("Close", [Num 75])]]},
     ["Warning: File not found for MSFT: ../data/stock_data/MSFT.csv"])
  ∧ ∀ ticker df,
      ({["AAPL" := [("Date", [Str "2020-01-02"]); ("Close", [Num 75])]]}
         : gmap string frame) !! ticker = Some df →
      ticker ∈ ["AAPL"; "MSFT"; "AAPL"]
      ∧ ∃ raw, @read_csv sample_world (stock_file "../data/stock_data/" ticker) = Some raw
               ∧ columns df = columns raw
               ∧ (∀ col, col ≠ "Date" → get_col col df = get_col col raw)
               ∧ (∀ dates, get_col "Date" raw = Some dates →
                    get_col "Date" df = @to_datetime sample_world dates).
Proof.
  assert (Hrun :
    @load_stock_data sample_world ["AAPL"; "MSFT"; "AAPL"] "../data/stock_data/" []
    = (Some {["AAPL" := [("Date", [Str "2020-01-02"]); ("Close", [Num 75])]]},
       ["Warning: File not found for MSFT: ../data/stock_data/MSFT.csv"])).
  { vm_compute. reflexivity. }
  split; [exact Hrun|].
  exact (@load_stock_data_tables sample_world _ _ _ _ _ Hrun).
Defined.

(** X26: the table that [load_news_data] returns is the table of the file
    without the column [Unnamed: 0], when it is to be dropped, and with the
    [date] column parsed: the other columns keep their order and their
    values, and without [drop_unnamed] the column [Unnamed: 0] stays. *)
Theorem load_news_data_table `{NewsWorld} (file_path : string) (drop_unnamed : bool)
    (df : frame) :
  load_news_data file_path drop_unnamed = Some df →
  ∃ raw, read_csv_no_index file_path = Some raw
         ∧ columns df
           = filter (λ label, ¬ (drop_unnamed = true ∧ label = "Unnamed: 0"))
               (columns raw)
         ∧ (∀ col, col ≠ "date" → col ≠ "Unnamed: 0" →
              get_col col df = get_col col raw)
         ∧ (drop_unnamed = false →
              get_col "Unnamed: 0" df = get_col "Unnamed: 0" raw)
         ∧ (∀ dates, get_col "date" raw = Some dates →
              get_col "date" df = to_datetime_utc_mixed dates).
Proof.
  unfold load_news_data. intros Hload.
  destruct (read_csv_no_index file_path) as [raw|]; [|discriminate].
  exists raw. split; [reflexivity|]. cbn in Hload.
  set (kept := filter (λ column : string * list cell, column.1 ∉ ["Unnamed: 0"]) raw).
  assert (Hdrop : ∃ mid,
    (if drop_unnamed && bool_decide ("Unnamed: 0" ∈ columns raw)
     then drop_columns ["Unnamed: 0"] raw else Some raw) = Some mid
    ∧ columns mid
      = filter (λ label, ¬ (drop_unnamed = true ∧ label = "Unnamed: 0")) (columns raw)
    ∧ (∀ col, col ≠ "Unnamed: 0" → get_col col mid = get_col col raw)
    ∧ (drop_unnamed = false → mid = raw)).
  { destruct drop_unnamed; cbn [andb].
    - case_bool_decide as Hun.
      + exists kept. unfold drop_columns.
        rewrite bool_decide_eq_true_2
          by (intros label ->%list_elem_of_singleton; exact Hun).
        split; [reflexivity|]. split; [|split; [|discriminate]].
        * unfold kept. rewrite columns_filter_labels. apply list_filter_iff.
          intros label. rewrite list_elem_of_singleton. tauto.
        * intros col Hne. apply get_col_filter_labels.
          rewrite list_elem_of_singleton. exact Hne.
      + exists raw. split; [reflexivity|]. split; [|done].
        symmetry. apply filter_all. apply Forall_forall.
        intros label Hlabel [_ ->]. done.
    - exists raw. split; [reflexivity|]. split; [|done].
      symmetry. apply filter_all. apply Forall_forall.
      intros label _ [[=] _]. }
  destruct Hdrop as (mid & Hmid & Hcols & Hother & Hkeep).
  rewrite Hmid in Hload. clear Hmid. cbn in Hload.
  assert (Hdate : get_col "date" mid = get_col "date" raw)
    by (apply Hother; discriminate).
  case_bool_decide as Hin.
  - destruct (get_col "date" mid) as [dates|] eqn:Hdates;
      [|cbn in Hload; discriminate].
    cbn in Hload.
    destruct (to_datetime_utc_mixed dates) as [parsed|] eqn:Hparsed;
      [|cbn in Hload; discriminate].
    cbn in Hload.
    injection Hload as <-.
    split; [rewrite columns_set_col by exact Hin; exact Hcols|].
    split; [|split].
    + intros col Hne1 Hne2. rewrite get_col_set_col_ne by exact Hne1.
      apply Hother, Hne2.
    + intros Hfalse. rewrite get_col_set_col_ne by discriminate.
      rewrite (Hkeep Hfalse). reflexivity.
    + intros dates' Hdates'. rewrite get_col_set_col.
      rewrite <- Hdate in Hdates'. injection Hdates' as <-. symmetry. exact Hparsed.
  - injection Hload as <-. split; [exact Hcols|]. split; [|split].
    + intros col _ Hne. apply Hother, Hne.
    + intros Hfalse. rewrite (Hkeep Hfalse). reflexivity.
    + intros dates Hdates. rewrite <- Hdate, (get_col_absent _ _ Hin) in Hdates.
      discriminate.
Qed.

Lemma load_news_data_table_witness :
  ∃ df,
    @load_news_data sample_news_world "../data/raw/raw_analyst_ratings.csv" true
    = Some df
    ∧ ∃ raw,
        @read_csv_no_index sample_news_world "../data/raw/raw_analyst_ratings.csv"
        = Some raw
        ∧ columns df
          = filter (λ label, ¬ (true = true ∧ label = "Unnamed: 0")) (columns raw)
        ∧ (∀ col, col ≠ "date" → col ≠ "Unnamed: 0" →
             get_col col df = get_col col raw)
        ∧ (true = false → get_col "Unnamed: 0" df = get_col "Unnamed: 0" raw)
        ∧ (∀ dates, get_col "date" raw = Some dates →
             get_col "date" df = @to_datetime_utc_mixed sample_news_world dates).
Proof.
  eexists. split; [vm_compute; reflexivity|].
  apply (@load_news_data_table sample_news_world
           "../data/raw/raw_analyst_ratings.csv" true).
  vm_compute. reflexivity.
Defined.

(** X27: [load_news_data] raises exactly when the file cannot be read or it
    has a [date] column that cannot be parsed: dropping [Unnamed: 0] never
    raises, and does not touch the dates. *)
Theorem load_news_data_raises_iff `{NewsWorld} (file_path : string)
    (drop_unnamed : bool) :
  load_news_data file_path drop_unnamed = None
  ↔ read_csv_no_index file_path = None
    ∨ ∃ raw dates, read_csv_no_index file_path = Some raw
                   ∧ get_col "date" raw = Some dates
                   ∧ to_datetime_utc_mixed dates = None.
Proof.
  unfold load_news_data.
  destruct (read_csv_no_index file_path) as [raw|]; [|split; [left; reflexivity|done]].
  cbn.
  assert (Hdrop : ∃ mid,
    (if drop_unnamed && bool_decide ("Unnamed: 0" ∈ columns raw)
     then drop_columns ["Unnamed: 0"] raw else Some raw) = Some mid
    ∧ get_col "date" mid = get_col "date" raw).
  { destruct (drop_unnamed && bool_decide ("Unnamed: 0" ∈ columns raw)) eqn:Hflag;
      [|by exists raw].
    apply andb_true_iff in Hflag as [_ Hun%bool_decide_eq_true].
    eexists. unfold drop_columns.
    rewrite bool_decide_eq_true_2
      by (intros label ->%list_elem_of_singleton; exact Hun).
    split; [reflexivity|]. apply get_col_filter_labels.
    rewrite list_elem_of_singleton. discriminate. }
  destruct Hdrop as (mid & -> & Hdate). cbn.
  case_bool_decide as Hin.
  - destruct (get_col_present _ _ Hin) as [dates Hdates].
    rewrite Hdates. cbn. rewrite Hdate in Hdates.
    destruct (to_datetime_utc_mixed dates) as [parsed|] eqn:Hparsed; cbn.
    + split; [discriminate|]. intros [[=]|(raw' & dates' & [= <-] & Hd & Hp)].
      congruence.
    + split; [|done]. intros _. right. exists raw, dates. done.
  - split; [discriminate|]. intros [[=]|(raw' & dates' & [= <-] & Hd & Hp)].
    rewrite <- Hdate, (get_col_absent _ _ Hin) in Hd. discriminate.
Qed.

(** ** The top publishers *)

Lemma count_one_keys_kept {K} (eqb : K → K → bool) (w k : K) (c : list (K * nat)) :
  k ∈ map fst c → k ∈ map fst (count_one eqb w c).
Proof.
  induction c as [|[k' n] c IH]; cbn; [intros []%elem_of_nil|].
  destruct (eqb w k'); cbn; [done|].
  intros [->|Hin]%elem_of_cons; [left|right; apply IH, Hin].
Qed.

Lemma count_one_key {K} (eqb : K → K → bool) (w : K) (c : list (K * nat)) :
  eqb w w = true → ∃ k, k ∈ map fst (count_one eqb w c) ∧ eqb w k = true.
Proof.
  intros Hrefl. induction c as [|[k' n] c IH]; cbn.
  - exists w. split; [left|exact Hrefl].
  - destruct (eqb w k') eqn:Ew; cbn.
    + exists k'. split; [left|exact Ew].
    + destruct IH as (k & Hin & Hk). exists k. split; [right; exact Hin|exact Hk].
Qed.

Lemma count_one_keys_NoDup {K} (eqb : K → K → bool) (w : K) (c : list (K * nat)) :
  eqb w w = true → NoDup (map fst c) → NoDup (map fst (count_one eqb w c)).
Proof.
  intros Hrefl. induction c as [|[k' n] c IH]; cbn.
  - intros _. apply NoDup_singleton.
  - intros [Hk' Hc]%NoDup_cons. destruct (eqb w k') eqn:Ew; cbn.
    + apply NoDup_cons. done.
    + apply NoDup_cons. split; [|apply IH, Hc].
      intros [->|Hin]%count_one_keys; [congruence|done].
Qed.

Lemma Counter_keys_cover {K} (eqb : K → K → bool) (ws : list K) (w : K) :
  w ∈ ws → eqb w w = true → ∃ k, k ∈ map fst (Counter eqb ws) ∧ eqb w k = true.
Proof.
  unfold Counter. intros Hin Hrefl.
  enough (Hloop : ∀ c,
            (w ∈ ws ∨ ∃ k, k ∈ map fst c ∧ eqb w k = true) →
            ∃ k, k ∈ map fst (fold_left (λ c w, count_one eqb w c) ws c)
                 ∧ eqb w k = true) by (apply Hloop; left; exact Hin).
  clear Hin. induction ws as [|v ws IH]; intros c; cbn [fold_left].
  - intros [[]%elem_of_nil|Hk]. exact Hk.
  - intros [[->|Hin]%elem_of_cons|(k & Hk & Hwk)]; apply IH.
    + right. apply count_one_key, Hrefl.
    + left. exact Hin.
    + right. exists k. split; [apply count_one_keys_kept, Hk|exact Hwk].
Qed.

Lemma Counter_keys_NoDup {K} (eqb : K → K → bool) (ws : list K) :
  Forall (λ w, eqb w w = true) ws → NoDup (map fst (Counter eqb ws)).
Proof.
  unfold Counter. intros Hrefl.
  enough (Hloop : ∀ c, NoDup (map fst c) →
            NoDup (map fst (fold_left (λ c w, count_one eqb w c) ws c)))
    by (apply Hloop, NoDup_nil_2).
  induction Hrefl as [|w ws Hw _ IH]; intros c Hc; cbn [fold_left]; [exact Hc|].
  apply IH, count_one_keys_NoDup; assumption.
Qed.

Lemma cell_eqb_refl (c : cell) : isna c = false → cell_eqb c c = true.
Proof.
  destruct c as [s|x|n|]; cbn.
  - intros _. apply String.eqb_refl.
  - unfold is_nan. destruct (x =? x)%float; done.
  - intros _. apply Z.eqb_refl.
  - discriminate.
Qed.

Lemma group_keys_present (publishers : list cell) (p : cell) :
  p ∈ group_keys publishers → isna p = false ∧ p ∈ publishers.
Proof.
  unfold group_keys. intros Hin%Counter_keys_subset.
  apply list_elem_of_filter in Hin as [Hna Hin].
  split; [destruct (isna p); done|exact Hin].
Qed.

Lemma group_keys_NoDup (publishers : list cell) : NoDup (group_keys publishers).
Proof.
  apply Counter_keys_NoDup, Forall_forall. intros c [Hna _]%list_elem_of_filter.
  apply cell_eqb_refl. destruct (isna c); done.
Qed.

Lemma group_keys_string (publishers : list cell) (s : string) :
  Str s ∈ publishers → Str s ∈ group_keys publishers.
Proof.
  intros Hin.
  destruct (Counter_keys_cover cell_eqb (filter (λ c, negb (isna c)) publishers)
              (Str s)) as (k & Hk & Heq).
  - apply list_elem_of_filter. split; [exact I|exact Hin].
  - apply String.eqb_refl.
  - destruct k as [t| | |]; try discriminate.
    apply String.eqb_eq in Heq as ->. exact Hk.
Qed.

Lemma slice_to_take {A} (n : Z) (l : list A) : ∃ m, slice_to n l = take m l.
Proof. unfold slice_to. destruct (n <? 0)%Z; eauto. Qed.

Lemma slice_to_all {A} (n : Z) (l : list A) :
  (Z.of_nat (length l) ≤ n)%Z → slice_to n l = l.
Proof.
  intros Hlen. unfold slice_to. rewrite (proj2 (Z.ltb_ge n 0)) by lia.
  apply take_ge. lia.
Qed.

Lemma slice_to_length {A} (n : Z) (l : list A) :
  (0 ≤ n)%Z → (length (slice_to n l) ≤ Z.to_nat n)%nat.
Proof.
  intros Hn. unfold slice_to. rewrite (proj2 (Z.ltb_ge n 0)) by lia.
  rewrite length_take. lia.
Qed.

(** The insertion sort by decreasing count is one of the sorts that
    [sort_values] may be. *)
Lemma stable_sort_values : SortValues.
Proof.
  refine {| sort_values_descending := sorted by_count_desc |}.
  - intros rows. apply sorted_perm.
  - intros rows. apply sorted_sorted;
      [apply _|apply by_count_desc_true|apply by_count_desc_false].
Defined.

Section TopPublishers.
Context `{SortValues}.
Variables (f : frame) (publisher_column headline_column : string).
Variables (publishers headlines : list cell).
Hypothesis publishers_column : get_col publisher_column f = Some publishers.
Hypothesis headlines_column : get_col headline_column f = Some headlines.
Hypothesis other_column : headline_column ≠ publisher_column.

Lemma get_top_publishers_run (top_n : Z) :
  get_top_publishers f publisher_column headline_column top_n
  = Some (slice_to top_n
            (sort_values_descending
               (map (λ publisher,
                       (publisher, group_count publisher publishers headlines))
                    (group_keys publishers)))).
Proof.
  unfold get_top_publishers. rewrite publishers_column. cbn.
  rewrite (proj2 (String.eqb_neq _ _) other_column), headlines_column.
  reflexivity.
Qed.

Lemma grouping_keys :
  map fst (map (λ publisher, (publisher, group_count publisher publishers headlines))
               (group_keys publishers))
  = group_keys publishers.
Proof. rewrite <- list_fmap_compose. apply list_fmap_id. Qed.

End TopPublishers.

(** X28: on a table with the two columns [get_top_publishers] returns rows
    of publishers that are not missing, no publisher twice, each with the
    number of its rows in which the headline is not missing, by decreasing
    count, and at most [top_n] of them for a [top_n] that is not negative. *)
Theorem get_top_publishers_rows `{SortValues} (f : frame)
    (publisher_column headline_column : string) (top_n : Z)
    (publishers headlines : list cell) :
  get_col publisher_column f = Some publishers →
  get_col headline_column f = Some headlines →
  headline_column ≠ publisher_column →
  ∃ rows,
    get_top_publishers f publisher_column headline_column top_n = Some rows
    ∧ NoDup (map fst rows)
    ∧ decreasing_counts rows
    ∧ ((0 ≤ top_n)%Z → (length rows ≤ Z.to_nat top_n)%nat)
    ∧ ∀ publisher n, (publisher, n) ∈ rows →
        isna publisher = false ∧ publisher ∈ publishers
        ∧ n = group_count publisher publishers headlines.
Proof.
  intros Hpub Hhead Hne. eexists.
  split; [apply (get_top_publishers_run _ _ _ _ _ Hpub Hhead Hne)|].
  set (groups := map (λ publisher,
                        (publisher, group_count publisher publishers headlines))
                     (group_keys publishers)).
  split; [|split; [|split]].
  - eapply sublist_NoDup; [|apply (fmap_sublist fst), slice_to_sublist].
    rewrite (sort_values_permutation groups). unfold groups.
    rewrite grouping_keys. apply group_keys_NoDup.
  - unfold decreasing_counts.
    destruct (slice_to_take top_n (sort_values_descending groups)) as [m ->].
    eapply StronglySorted_app_1_l. rewrite take_drop. apply sort_values_sorted.
  - apply slice_to_length.
  - intros publisher n Hin%slice_to_subseteq.
    rewrite (sort_values_permutation groups) in Hin.
    apply list_elem_of_fmap in Hin as (p & [= -> ->] & Hp).
    apply group_keys_present in Hp as [Hna Hp]. done.
Qed.

Lemma get_top_publishers_rows_witness :
  (get_col "publisher" sample_news = Some [Str "benzinga"; Str "a@benzinga.com"]
   ∧ get_col "headline" sample_news = Some [Str "Stocks rally"; Str "Shares slide"]
   ∧ "headline" ≠ "publisher")
  ∧ ∃ rows,
      @get_top_publishers stable_sort_values sample_news "publisher" "headline" 20
      = Some rows
      ∧ NoDup (map fst rows)
      ∧ decreasing_counts rows
      ∧ ((0 ≤ 20)%Z → (length rows ≤ Z.to_nat 20)%nat)
      ∧ ∀ publisher n, (publisher, n) ∈ rows →
          isna publisher = false
          ∧ publisher ∈ [Str "benzinga"; Str "a@benzinga.com"]
          ∧ n = group_count publisher [Str "benzinga"; Str "a@benzinga.com"]
                  [Str "Stocks rally"; Str "Shares slide"].
Proof.
  split; [repeat split; discriminate|].
  apply (@get_top_publishers_rows stable_sort_values sample_news);
    [reflexivity|reflexivity|discriminate].
Defined.

(** X29: the rows are the top ones: a publisher name of the table that has
    no row has at most the count of every row, and no name is left out when
    [top_n] is at least the number of rows of the table. *)
Theorem get_top_publishers_top `{SortValues} (f : frame)
    (publisher_column headline_column : string) (top_n : Z)
    (publishers headlines : list cell) (rows : list (cell * nat)) (name : string) :
  get_col publisher_column f = Some publishers →
  get_col headline_column f = Some headlines →
  headline_column ≠ publisher_column →
  get_top_publishers f publisher_column headline_column top_n = Some rows →
  Str name ∈ publishers →
  (Str name ∈ map fst rows
   ∨ ∀ publisher n, (publisher, n) ∈ rows →
       (group_count (Str name) publishers headlines ≤ n)%nat)
  ∧ ((Z.of_nat (length publishers) ≤ top_n)%Z → Str name ∈ map fst rows).
Proof.
  intros Hpub Hhead Hne Hrun Hname.
  rewrite (get_top_publishers_run _ _ _ _ _ Hpub Hhead Hne) in Hrun.
  injection Hrun as <-.
  set (groups := map (λ publisher,
                        (publisher, group_count publisher publishers headlines))
                     (group_keys publishers)).
  assert (Hrow : (Str name, group_count (Str name) publishers headlines)
                 ∈ sort_values_descending groups).
  { rewrite (sort_values_permutation groups). apply list_elem_of_fmap.
    exists (Str name). split; [reflexivity|apply group_keys_string, Hname]. }
  split.
  - destruct (slice_to_take top_n (sort_values_descending groups)) as [m ->].
    rewrite <- (take_drop m (sort_values_descending groups)) in Hrow.
    apply elem_of_app in Hrow as [Htop|Hrest].
    + left. apply list_elem_of_fmap. eexists. split; [|exact Htop]. reflexivity.
    + right. intros publisher n Hin.
      pose proof (sort_values_sorted groups) as Hsorted.
      rewrite <- (take_drop m (sort_values_descending groups)) in Hsorted.
      apply (StronglySorted_app_1_elem_of _ _ _ _ _ Hsorted Hin Hrest).
  - intros Hlen. rewrite slice_to_all.
    + apply list_elem_of_fmap. eexists. split; [|exact Hrow]. reflexivity.
    + rewrite (Permutation_length (sort_values_permutation groups)).
      unfold groups, group_keys. rewrite !length_map.
      pose proof (Counter_length cell_eqb (filter (λ c, negb (isna c)) publishers)).
      pose proof (length_filter (λ c, negb (isna c)) publishers). lia.
Qed.

Lemma get_top_publishers_top_witness :
  (get_col "publisher" sample_news = Some [Str "benzinga"; Str "a@benzinga.com"]
   ∧ get_col "headline" sample_news = Some [Str "Stocks rally"; Str "Shares slide"]
   ∧ "headline" ≠ "publisher"
   ∧ @get_top_publishers stable_sort_values sample_news "publisher" "headline" 1
     = Some [(Str "benzinga", 1)]
   ∧ Str "a@benzinga.com" ∈ [Str "benzinga"; Str "a@benzinga.com"])
  ∧ (Str "a@benzinga.com" ∈ map fst [(Str "benzinga", 1)]
     ∨ ∀ publisher n, (publisher, n) ∈ [(Str "benzinga", 1)] →
         (group_count (Str "a@benzinga.com") [Str "benzinga"; Str "a@benzinga.com"]
            [Str "Stocks rally"; Str "Shares slide"] ≤ n)%nat)
    ∧ ((Z.of_nat (length [Str "benzinga"; Str "a@benzinga.com"]) ≤ 1)%Z →
       Str "a@benzinga.com" ∈ map fst [(Str "benzinga", 1)]).
Proof.
  assert (Hin : Str "a@benzinga.com" ∈ [Str "benzinga"; Str "a@benzinga.com"])
    by (right; left).
  split; [repeat split; (reflexivity || discriminate || exact Hin)|].
  apply (@get_top_publishers_top stable_sort_values sample_news "publisher"
           "headline" 1);
    [reflexivity|reflexivity|discriminate|vm_compute; reflexivity|exact Hin].
Defined.
